(** * libdap4/d4meta.c: building netCDF-4 metadata from the DAP4 node graph

    A shallow embedding of [src/libdap4/d4meta.c].  The node graph is a
    heap of [NCD4node] records addressed by node number (a C pointer is a
    node number, [NULL] is [None]); the build-result slot [meta] is updated
    in place.  The netCDF library is an external collaborator: its calls
    are recorded in a trace and answered by a parameter of the model. *)

From Stdlib Require Import ZArith String Ascii List Lia.
From Stdlib Require Import Floats.SpecFloat.
From stdpp Require Import gmap list.
Import ListNotations.

Local Open Scope string_scope.
Local Open Scope Z_scope.

(** ** Results of running C code *)

(** [Undefined] is C undefined behaviour (a [NULL] dereference, a read of
    indeterminate memory); [OutOfFuel] is the bound of a loop or of a
    recursion reached. *)
Inductive outcome (A : Type) : Type :=
  | Ok (a : A)
  | Undefined
  | OutOfFuel.
Arguments Ok {A} a.
Arguments Undefined {A}.
Arguments OutOfFuel {A}.

Definition obind {A B : Type} (c : outcome A) (k : A -> outcome B) : outcome B :=
  match c with
  | Ok a => k a
  | Undefined => Undefined
  | OutOfFuel => OutOfFuel
  end.

Notation "'let*' x ':=' c 'in' k" := (obind c (fun x => k))
  (at level 10, x pattern, c at level 100, k at level 200).

(** ** netCDF constants (netcdf.h, ncd4types.h) *)

Inductive NCD4sort : Type :=
  | NCD4_NULL | NCD4_ATTR | NCD4_ATTRSET | NCD4_XML | NCD4_DIM
  | NCD4_GROUP | NCD4_TYPE | NCD4_VAR | NCD4_ECONST.

(** [nc_type]; ncd4types.h names [NC_VLEN] as [NC_SEQ] and [NC_COMPOUND]
    as [NC_STRUCT]. *)
Inductive nc_type : Type :=
  | NC_NAT | NC_BYTE | NC_CHAR | NC_SHORT | NC_INT | NC_FLOAT | NC_DOUBLE
  | NC_UBYTE | NC_USHORT | NC_UINT | NC_INT64 | NC_UINT64 | NC_STRING
  | NC_SEQ | NC_OPAQUE | NC_ENUM | NC_STRUCT.

Definition nc_code (t : nc_type) : Z :=
  match t with
  | NC_NAT => 0 | NC_BYTE => 1 | NC_CHAR => 2 | NC_SHORT => 3 | NC_INT => 4
  | NC_FLOAT => 5 | NC_DOUBLE => 6 | NC_UBYTE => 7 | NC_USHORT => 8
  | NC_UINT => 9 | NC_INT64 => 10 | NC_UINT64 => 11 | NC_STRING => 12
  | NC_SEQ => 13 | NC_OPAQUE => 14 | NC_ENUM => 15 | NC_STRUCT => 16
  end.

Definition nc_of_code (z : Z) : option nc_type :=
  match z with
  | 0 => Some NC_NAT | 1 => Some NC_BYTE | 2 => Some NC_CHAR
  | 3 => Some NC_SHORT | 4 => Some NC_INT | 5 => Some NC_FLOAT
  | 6 => Some NC_DOUBLE | 7 => Some NC_UBYTE | 8 => Some NC_USHORT
  | 9 => Some NC_UINT | 10 => Some NC_INT64 | 11 => Some NC_UINT64
  | 12 => Some NC_STRING | 13 => Some NC_SEQ | 14 => Some NC_OPAQUE
  | 15 => Some NC_ENUM | 16 => Some NC_STRUCT
  | _ => None
  end.

Definition NC_MAX_ATOMIC_TYPE : Z := nc_code NC_STRING.

Definition NC_NOERR : Z := 0.
Definition NC_EINVAL : Z := -36.
Definition NC_ENAMEINUSE : Z := -42.
Definition NC_EBADTYPE : Z := -45.
Definition NC_ERANGE : Z := -60.
Definition NC_ENOMEM : Z := -61.
Definition NC_GLOBAL : Z := -1.

(** Reserved attribute names (ncd4types.h). *)
Definition UCARTAGNC4 : string := "_edu.ucar.".
Definition UCARTAGVLEN : string := "_edu.ucar.isvlen".
Definition NC4TAGMAPS : string := "_edu.ucar.maps".

(** [sizeof(nc_vlen_t)]: a [size_t] and a pointer, 16 bytes on LP64. *)
Definition sizeof_nc_vlen_t : Z := 16.

(** Modelled from the spec: the Atomic Type Table [NCD4_typesize]
    (d4util.c), the fixed mapping from primitive kind to byte width; a type
    id that is no primitive kind has width 0.  Pointers are 8 bytes. *)
Definition NCD4_typesize (tid : Z) : Z :=
  match nc_of_code tid with
  | Some NC_BYTE | Some NC_UBYTE | Some NC_CHAR => 1
  | Some NC_SHORT | Some NC_USHORT => 2
  | Some NC_INT | Some NC_UINT => 4
  | Some NC_FLOAT => 4
  | Some NC_DOUBLE => 8
  | Some NC_INT64 | Some NC_UINT64 => 8
  | Some NC_STRING => 8
  | _ => 0
  end.

(** ** Machine integers and the conversion union *)

Definition wrap (w : Z) (z : Z) : Z := z mod 2 ^ w.

Definition to_signed (w : Z) (z : Z) : Z :=
  let u := wrap w z in
  if u <? 2 ^ (w - 1) then u else u - 2 ^ w.

(** [union ATOMICS] is eight bytes with every member at offset 0
    ([i8[8]], [u16[4]], [i32[2]], [f32[2]], [i64[1]], [f64[1]], [s[1]], ...).
    [ABits u] is its content as the little-endian 64-bit number [u];
    [APtr s] is the content after [s[0] = strdup(s)]; [AUninit] is the
    content of a local that was never written. *)
Inductive ATOMICS : Type :=
  | AUninit
  | ABits (u : Z)
  | APtr (s : string).

(** A store to a member narrower than the union: the low [w] bits are
    replaced, the remaining bytes keep their content. *)
Definition store_low (w : Z) (u v : Z) : Z :=
  Z.lor (Z.shiftl (Z.shiftr u w) w) (wrap w v).

(** The first [n] bytes of the union, in memory order. *)
Fixpoint le_bytes (n : nat) (u : Z) : list Z :=
  match n with
  | O => []
  | S n' => (u mod 256) :: le_bytes n' (u / 256)
  end.

(** *** IEEE 754 images *)

Definition b64_decode (u : Z) : spec_float :=
  let s := Z.testbit u 63 in
  let e := Z.land (Z.shiftr u 52) 2047 in
  let m := Z.land u (2 ^ 52 - 1) in
  if e =? 0 then
    match m with Zpos p => S754_finite s p (-1074) | _ => S754_zero s end
  else if e =? 2047 then
    (if m =? 0 then S754_infinity s else S754_nan)
  else
    match m + 2 ^ 52 with Zpos p => S754_finite s p (e - 1075) | _ => S754_nan end.

Definition sign_bit (w : Z) (s : bool) : Z := if s then 2 ^ (w - 1) else 0.

Definition b64_encode (f : spec_float) : Z :=
  match f with
  | S754_zero s => sign_bit 64 s
  | S754_infinity s => sign_bit 64 s + 2047 * 2 ^ 52
  | S754_nan => 2047 * 2 ^ 52 + 2 ^ 51
  | S754_finite s m e =>
      if Zpos m <? 2 ^ 52 then sign_bit 64 s + Zpos m
      else sign_bit 64 s + (e + 1075) * 2 ^ 52 + (Zpos m - 2 ^ 52)
  end.

Definition b32_encode (f : spec_float) : Z :=
  match f with
  | S754_zero s => sign_bit 32 s
  | S754_infinity s => sign_bit 32 s + 255 * 2 ^ 23
  | S754_nan => 255 * 2 ^ 23 + 2 ^ 22
  | S754_finite s m e =>
      if Zpos m <? 2 ^ 23 then sign_bit 32 s + Zpos m
      else sign_bit 32 s + (e + 150) * 2 ^ 23 + (Zpos m - 2 ^ 23)
  end.

(** The cast [(float)f64] on images: round to nearest even into binary32;
    a NaN keeps its sign and the top of its payload and is made quiet. *)
Definition float_of_double (u : Z) : Z :=
  match b64_decode u with
  | S754_finite s m e => b32_encode (binary_round 24 128 s m e)
  | S754_nan =>
      sign_bit 32 (Z.testbit u 63) + 255 * 2 ^ 23
      + Z.lor (2 ^ 22) (Z.shiftr (Z.land u (2 ^ 52 - 1)) 29)
  | f => b32_encode f
  end.

(** ** The C library's [sscanf]

    [convertString] parses with [sscanf] and the directives [%lld], [%llu]
    and [%lf].  The three parsers are parameters of the model: each gives
    the 64-bit image written through the pointer when one item was
    converted, and [None] when [sscanf] did not return 1. *)
Record libc : Type := {
  scan_lld : string -> option Z;
  scan_llu : string -> option Z;
  scan_lf : string -> option Z
}.

(** A reference instance, after the [sscanf] of the GNU C library:
    optional white space and an optional sign, then for [%lld] and [%llu]
    decimal digits (out-of-range integers saturate as [strtoll] and
    [strtoull] do), and for [%lf] one of: decimal digits with an optional
    fraction and decimal exponent; [0x] and hexadecimal digits with an
    optional fraction and binary exponent; [inf] or [infinity]; [nan].
    Letters are matched in either case. *)
Module RefScan.

Definition is_space (c : ascii) : bool :=
    let n := Z.of_nat (nat_of_ascii c) in
    (n =? 32) || ((9 <=? n) && (n <=? 13)).

Definition digit_of (c : ascii) : option Z :=
    let n := Z.of_nat (nat_of_ascii c) in
    if (48 <=? n) && (n <=? 57) then Some (n - 48) else None.

Fixpoint skip_space (l : list ascii) : list ascii :=
    match l with
    | c :: r => if is_space c then skip_space r else l
    | [] => []
    end.

  (** Value and number of the leading digits, and the rest. *)
Fixpoint digits (l : list ascii) (acc : Z) (cnt : Z) : Z * Z * list ascii :=
    match l with
    | c :: r =>
        match digit_of c with
        | Some d => digits r (10 * acc + d) (cnt + 1)
        | None => (acc, cnt, l)
        end
    | [] => (acc, cnt, [])
    end.

Definition sign (l : list ascii) : bool * list ascii :=
    match l with
    | "-"%char :: r => (true, r)
    | "+"%char :: r => (false, r)
    | _ => (false, l)
    end.

Definition lld (s : string) : option Z :=
    let '(neg, r) := sign (skip_space (list_ascii_of_string s)) in
    let '(mag, cnt, _) := digits r 0 0 in
    if cnt =? 0 then None
    else
      let v := if neg then - mag else mag in
      Some (wrap 64 (Z.max (- 2 ^ 63) (Z.min (2 ^ 63 - 1) v))).

Definition llu (s : string) : option Z :=
    let '(neg, r) := sign (skip_space (list_ascii_of_string s)) in
    let '(mag, cnt, _) := digits r 0 0 in
    if cnt =? 0 then None
    else if 2 ^ 64 <=? mag then Some (2 ^ 64 - 1)
    else Some (wrap 64 (if neg then - mag else mag)).

  (** The binary64 nearest to [(-1)^neg * n * 10^e10]. *)
Definition decimal_to_double (neg : bool) (n : Z) (e10 : Z) : Z :=
    match n with
    | Zpos p =>
        if 0 <=? e10 then
          match Zpos p * 10 ^ e10 with
          | Zpos q => b64_encode (binary_round 53 1024 neg q 0)
          | _ => sign_bit 64 neg
          end
        else
          let '(mz, ez, lz) :=
            SFdiv_core_binary 53 1024 (Zpos p) 0 (10 ^ (- e10)) 0 in
          b64_encode (binary_round_aux 53 1024 neg mz ez lz)
    | _ => sign_bit 64 neg
    end.

Definition exponent (l : list ascii) : Z :=
    match l with
    | c :: r =>
        if (Ascii.eqb c "e" || Ascii.eqb c "E")%bool then
          let '(eneg, r') := sign r in
          let '(ev, ecnt, _) := digits r' 0 0 in
          if ecnt =? 0 then 0 else if eneg then - ev else ev
        else 0
    | [] => 0
    end.

Definition lf_decimal (neg : bool) (r : list ascii) : option Z :=
    let '(ip, icnt, r1) := digits r 0 0 in
    let '(n, fcnt, r2) :=
      match r1 with
      | "."%char :: r' => digits r' ip 0
      | _ => (ip, 0, r1)
      end in
    if icnt + fcnt =? 0 then None
    else Some (decimal_to_double neg n (exponent r2 - fcnt)).

Definition lower (c : ascii) : ascii :=
    let n := nat_of_ascii c in
    if (Nat.leb 65 n && Nat.leb n 90)%bool then ascii_of_nat (n + 32) else c.

  (** The rest of [l] after the lower-case word [word], matched in either
      case. *)
Fixpoint after_word (word l : list ascii) : option (list ascii) :=
    match word, l with
    | [], _ => Some l
    | a :: word', c :: l' =>
        if Ascii.eqb a (lower c) then after_word word' l' else None
    | _ :: _, [] => None
    end.

Definition hexdigit_of (c : ascii) : option Z :=
    let n := Z.of_nat (nat_of_ascii (lower c)) in
    if (48 <=? n) && (n <=? 57) then Some (n - 48)
    else if (97 <=? n) && (n <=? 102) then Some (n - 87)
    else None.

Fixpoint hexdigits (l : list ascii) (acc : Z) (cnt : Z) : Z * Z * list ascii :=
    match l with
    | c :: r =>
        match hexdigit_of c with
        | Some d => hexdigits r (16 * acc + d) (cnt + 1)
        | None => (acc, cnt, l)
        end
    | [] => (acc, cnt, [])
    end.

  (** The binary64 nearest to [(-1)^neg * n * 2^e2]. *)
Definition binary_to_double (neg : bool) (n : Z) (e2 : Z) : Z :=
    match n with
    | Zpos p => b64_encode (binary_round 53 1024 neg p e2)
    | _ => sign_bit 64 neg
    end.

Definition binary_exponent (l : list ascii) : Z :=
    match l with
    | c :: r =>
        if Ascii.eqb (lower c) "p" then
          let '(eneg, r') := sign r in
          let '(ev, ecnt, _) := digits r' 0 0 in
          if ecnt =? 0 then 0 else if eneg then - ev else ev
        else 0
    | [] => 0
    end.

  (** After [0x]: at least one hexadecimal digit is needed. *)
Definition lf_hexadecimal (neg : bool) (r : list ascii) : option Z :=
    let '(ip, icnt, r1) := hexdigits r 0 0 in
    let '(n, fcnt, r2) :=
      match r1 with
      | "."%char :: r' => hexdigits r' ip 0
      | _ => (ip, 0, r1)
      end in
    if icnt + fcnt =? 0 then None
    else Some (binary_to_double neg n (binary_exponent r2 - 4 * fcnt)).

  (** After [inf]: a following [i] must begin [inity]. *)
Definition lf_infinity (neg : bool) (r : list ascii) : option Z :=
    let inf := sign_bit 64 neg + 2047 * 2 ^ 52 in
    match r with
    | c :: _ =>
        if Ascii.eqb (lower c) "i" then
          match after_word ["i"; "n"; "i"; "t"; "y"]%char r with
          | Some _ => Some inf
          | None => None
          end
        else Some inf
    | [] => Some inf
    end.

Definition lf (s : string) : option Z :=
    let '(neg, r) := sign (skip_space (list_ascii_of_string s)) in
    match r with
    | c :: _ =>
        if Ascii.eqb (lower c) "i" then
          match after_word ["i"; "n"; "f"]%char r with
          | Some r1 => lf_infinity neg r1
          | None => None
          end
        else if Ascii.eqb (lower c) "n" then
          match after_word ["n"; "a"; "n"]%char r with
          | Some _ => Some (sign_bit 64 neg + 2047 * 2 ^ 52 + 2 ^ 51)
          | None => None
          end
        else
          match after_word ["0"; "x"]%char r with
          | Some r1 => lf_hexadecimal neg r1
          | None => lf_decimal neg r
          end
    | [] => None
    end.

Definition C : libc := {| scan_lld := lld; scan_llu := llu; scan_lf := lf |}.

End RefScan.

(** ** The node graph (ncd4types.h) *)

(** [struct NCD4node], with the members d4meta.c reads; nested members are
    joined with an underscore ([meta.id] is [meta_id]). *)
Record NCD4node : Type := {
  sort : NCD4sort;
  subsort : nc_type;
  name : string;
  container : option nat;
  basetype : option nat;
  groups : list nat;
  vars : list nat;
  types : list nat;
  dims : list nat;
  attributes : list nat;
  maps : list nat;
  group_isdataset : bool;
  dim_size : Z;
  en_econsts : list nat;
  en_ecvalue : ATOMICS;
  attr_values : list string;
  opaque_size : Z;
  nc4_orig_name : option string;
  nc4_orig_group : option nat;
  meta_id : Z;
  meta_cmpdid : Z;
  meta_offset : Z
}.

Abbreviation heap := (gmap nat NCD4node).

Definition ISGROUP (s : NCD4sort) : bool :=
  match s with NCD4_GROUP => true | _ => false end.
Definition ISTYPE (s : NCD4sort) : bool :=
  match s with NCD4_TYPE => true | _ => false end.
Definition ISVAR (s : NCD4sort) : bool :=
  match s with NCD4_VAR => true | _ => false end.

(** Reading through a node pointer. *)
Definition deref (h : heap) (p : nat) : outcome NCD4node :=
  match h !! p with
  | Some n => Ok n
  | None => Undefined
  end.

Definition deref_opt (h : heap) (p : option nat) : outcome NCD4node :=
  match p with
  | Some a => deref h a
  | None => Undefined
  end.

Definition nonnull (p : option nat) : outcome nat :=
  match p with
  | Some a => Ok a
  | None => Undefined
  end.

(** In-place writes to the build-result slot of a node. *)
Definition set_meta_id (v : Z) (n : NCD4node) : NCD4node :=
  {| sort := sort n; subsort := subsort n; name := name n; container :=
     container n; basetype := basetype n; groups := groups n; vars := vars
     n; types := types n; dims := dims n; attributes := attributes n; maps
     := maps n; group_isdataset := group_isdataset n; dim_size := dim_size
     n; en_econsts := en_econsts n; en_ecvalue := en_ecvalue n;
     attr_values := attr_values n; opaque_size := opaque_size n;
     nc4_orig_name := nc4_orig_name n; nc4_orig_group := nc4_orig_group n;
     meta_id := v; meta_cmpdid := meta_cmpdid n; meta_offset :=
     meta_offset n |}.

Definition set_meta_cmpdid (v : Z) (n : NCD4node) : NCD4node :=
  {| sort := sort n; subsort := subsort n; name := name n; container :=
     container n; basetype := basetype n; groups := groups n; vars := vars
     n; types := types n; dims := dims n; attributes := attributes n; maps
     := maps n; group_isdataset := group_isdataset n; dim_size := dim_size
     n; en_econsts := en_econsts n; en_ecvalue := en_ecvalue n;
     attr_values := attr_values n; opaque_size := opaque_size n;
     nc4_orig_name := nc4_orig_name n; nc4_orig_group := nc4_orig_group n;
     meta_id := meta_id n; meta_cmpdid := v; meta_offset := meta_offset n
     |}.

Definition set_meta_offset (v : Z) (n : NCD4node) : NCD4node :=
  {| sort := sort n; subsort := subsort n; name := name n; container :=
     container n; basetype := basetype n; groups := groups n; vars := vars
     n; types := types n; dims := dims n; attributes := attributes n; maps
     := maps n; group_isdataset := group_isdataset n; dim_size := dim_size
     n; en_econsts := en_econsts n; en_ecvalue := en_ecvalue n;
     attr_values := attr_values n; opaque_size := opaque_size n;
     nc4_orig_name := nc4_orig_name n; nc4_orig_group := nc4_orig_group n;
     meta_id := meta_id n; meta_cmpdid := meta_cmpdid n; meta_offset := v
     |}.

Definition write_meta_id (p : nat) (v : Z) (h : heap) : heap :=
  alter (set_meta_id v) p h.
Definition write_meta_cmpdid (p : nat) (v : Z) (h : heap) : heap :=
  alter (set_meta_cmpdid v) p h.
Definition write_meta_offset (p : nat) (v : Z) (h : heap) : heap :=
  alter (set_meta_offset v) p h.

(** Node literals for the examples: a zeroed node of a given sort, subsort,
    name and container, and functional updates of its members. *)
Module Fixture.

Definition node (s : NCD4sort) (ss : nc_type) (nm : string)
    (c : option nat) : NCD4node :=
  {| sort := s; subsort := ss; name := nm; container := c;
     basetype := None; groups := []; vars := []; types := []; dims := [];
     attributes := []; maps := []; group_isdataset := false; dim_size := 0;
     en_econsts := []; en_ecvalue := ABits 0; attr_values := [];
     opaque_size := 0; nc4_orig_name := None; nc4_orig_group := None;
     meta_id := 0; meta_cmpdid := 0; meta_offset := 0 |}.

Definition with_basetype (v : option nat) (n : NCD4node) : NCD4node :=
  {| sort := sort n; subsort := subsort n; name := name n; container :=
     container n; basetype := v; groups := groups n; vars := vars n; types
     := types n; dims := dims n; attributes := attributes n; maps := maps
     n; group_isdataset := group_isdataset n; dim_size := dim_size n;
     en_econsts := en_econsts n; en_ecvalue := en_ecvalue n; attr_values
     := attr_values n; opaque_size := opaque_size n; nc4_orig_name :=
     nc4_orig_name n; nc4_orig_group := nc4_orig_group n; meta_id :=
     meta_id n; meta_cmpdid := meta_cmpdid n; meta_offset := meta_offset n
     |}.

Definition with_groups (v : list nat) (n : NCD4node) : NCD4node :=
  {| sort := sort n; subsort := subsort n; name := name n; container :=
     container n; basetype := basetype n; groups := v; vars := vars n;
     types := types n; dims := dims n; attributes := attributes n; maps :=
     maps n; group_isdataset := group_isdataset n; dim_size := dim_size n;
     en_econsts := en_econsts n; en_ecvalue := en_ecvalue n; attr_values
     := attr_values n; opaque_size := opaque_size n; nc4_orig_name :=
     nc4_orig_name n; nc4_orig_group := nc4_orig_group n; meta_id :=
     meta_id n; meta_cmpdid := meta_cmpdid n; meta_offset := meta_offset n
     |}.

Definition with_vars (v : list nat) (n : NCD4node) : NCD4node :=
  {| sort := sort n; subsort := subsort n; name := name n; container :=
     container n; basetype := basetype n; groups := groups n; vars := v;
     types := types n; dims := dims n; attributes := attributes n; maps :=
     maps n; group_isdataset := group_isdataset n; dim_size := dim_size n;
     en_econsts := en_econsts n; en_ecvalue := en_ecvalue n; attr_values
     := attr_values n; opaque_size := opaque_size n; nc4_orig_name :=
     nc4_orig_name n; nc4_orig_group := nc4_orig_group n; meta_id :=
     meta_id n; meta_cmpdid := meta_cmpdid n; meta_offset := meta_offset n
     |}.

Definition with_dims (v : list nat) (n : NCD4node) : NCD4node :=
  {| sort := sort n; subsort := subsort n; name := name n; container :=
     container n; basetype := basetype n; groups := groups n; vars := vars
     n; types := types n; dims := v; attributes := attributes n; maps :=
     maps n; group_isdataset := group_isdataset n; dim_size := dim_size n;
     en_econsts := en_econsts n; en_ecvalue := en_ecvalue n; attr_values
     := attr_values n; opaque_size := opaque_size n; nc4_orig_name :=
     nc4_orig_name n; nc4_orig_group := nc4_orig_group n; meta_id :=
     meta_id n; meta_cmpdid := meta_cmpdid n; meta_offset := meta_offset n
     |}.

Definition with_attributes (v : list nat) (n : NCD4node) : NCD4node :=
  {| sort := sort n; subsort := subsort n; name := name n; container :=
     container n; basetype := basetype n; groups := groups n; vars := vars
     n; types := types n; dims := dims n; attributes := v; maps := maps n;
     group_isdataset := group_isdataset n; dim_size := dim_size n;
     en_econsts := en_econsts n; en_ecvalue := en_ecvalue n; attr_values
     := attr_values n; opaque_size := opaque_size n; nc4_orig_name :=
     nc4_orig_name n; nc4_orig_group := nc4_orig_group n; meta_id :=
     meta_id n; meta_cmpdid := meta_cmpdid n; meta_offset := meta_offset n
     |}.

Definition with_maps (v : list nat) (n : NCD4node) : NCD4node :=
  {| sort := sort n; subsort := subsort n; name := name n; container :=
     container n; basetype := basetype n; groups := groups n; vars := vars
     n; types := types n; dims := dims n; attributes := attributes n; maps
     := v; group_isdataset := group_isdataset n; dim_size := dim_size n;
     en_econsts := en_econsts n; en_ecvalue := en_ecvalue n; attr_values
     := attr_values n; opaque_size := opaque_size n; nc4_orig_name :=
     nc4_orig_name n; nc4_orig_group := nc4_orig_group n; meta_id :=
     meta_id n; meta_cmpdid := meta_cmpdid n; meta_offset := meta_offset n
     |}.

Definition with_group_isdataset (v : bool) (n : NCD4node) : NCD4node :=
  {| sort := sort n; subsort := subsort n; name := name n; container :=
     container n; basetype := basetype n; groups := groups n; vars := vars
     n; types := types n; dims := dims n; attributes := attributes n; maps
     := maps n; group_isdataset := v; dim_size := dim_size n; en_econsts
     := en_econsts n; en_ecvalue := en_ecvalue n; attr_values :=
     attr_values n; opaque_size := opaque_size n; nc4_orig_name :=
     nc4_orig_name n; nc4_orig_group := nc4_orig_group n; meta_id :=
     meta_id n; meta_cmpdid := meta_cmpdid n; meta_offset := meta_offset n
     |}.

Definition with_dim_size (v : Z) (n : NCD4node) : NCD4node :=
  {| sort := sort n; subsort := subsort n; name := name n; container :=
     container n; basetype := basetype n; groups := groups n; vars := vars
     n; types := types n; dims := dims n; attributes := attributes n; maps
     := maps n; group_isdataset := group_isdataset n; dim_size := v;
     en_econsts := en_econsts n; en_ecvalue := en_ecvalue n; attr_values
     := attr_values n; opaque_size := opaque_size n; nc4_orig_name :=
     nc4_orig_name n; nc4_orig_group := nc4_orig_group n; meta_id :=
     meta_id n; meta_cmpdid := meta_cmpdid n; meta_offset := meta_offset n
     |}.

Definition with_en_econsts (v : list nat) (n : NCD4node) : NCD4node :=
  {| sort := sort n; subsort := subsort n; name := name n; container :=
     container n; basetype := basetype n; groups := groups n; vars := vars
     n; types := types n; dims := dims n; attributes := attributes n; maps
     := maps n; group_isdataset := group_isdataset n; dim_size := dim_size
     n; en_econsts := v; en_ecvalue := en_ecvalue n; attr_values :=
     attr_values n; opaque_size := opaque_size n; nc4_orig_name :=
     nc4_orig_name n; nc4_orig_group := nc4_orig_group n; meta_id :=
     meta_id n; meta_cmpdid := meta_cmpdid n; meta_offset := meta_offset n
     |}.

Definition with_en_ecvalue (v : ATOMICS) (n : NCD4node) : NCD4node :=
  {| sort := sort n; subsort := subsort n; name := name n; container :=
     container n; basetype := basetype n; groups := groups n; vars := vars
     n; types := types n; dims := dims n; attributes := attributes n; maps
     := maps n; group_isdataset := group_isdataset n; dim_size := dim_size
     n; en_econsts := en_econsts n; en_ecvalue := v; attr_values :=
     attr_values n; opaque_size := opaque_size n; nc4_orig_name :=
     nc4_orig_name n; nc4_orig_group := nc4_orig_group n; meta_id :=
     meta_id n; meta_cmpdid := meta_cmpdid n; meta_offset := meta_offset n
     |}.

Definition with_attr_values (v : list string) (n : NCD4node) : NCD4node :=
  {| sort := sort n; subsort := subsort n; name := name n; container :=
     container n; basetype := basetype n; groups := groups n; vars := vars
     n; types := types n; dims := dims n; attributes := attributes n; maps
     := maps n; group_isdataset := group_isdataset n; dim_size := dim_size
     n; en_econsts := en_econsts n; en_ecvalue := en_ecvalue n;
     attr_values := v; opaque_size := opaque_size n; nc4_orig_name :=
     nc4_orig_name n; nc4_orig_group := nc4_orig_group n; meta_id :=
     meta_id n; meta_cmpdid := meta_cmpdid n; meta_offset := meta_offset n
     |}.

Definition with_opaque_size (v : Z) (n : NCD4node) : NCD4node :=
  {| sort := sort n; subsort := subsort n; name := name n; container :=
     container n; basetype := basetype n; groups := groups n; vars := vars
     n; types := types n; dims := dims n; attributes := attributes n; maps
     := maps n; group_isdataset := group_isdataset n; dim_size := dim_size
     n; en_econsts := en_econsts n; en_ecvalue := en_ecvalue n;
     attr_values := attr_values n; opaque_size := v; nc4_orig_name :=
     nc4_orig_name n; nc4_orig_group := nc4_orig_group n; meta_id :=
     meta_id n; meta_cmpdid := meta_cmpdid n; meta_offset := meta_offset n
     |}.

Definition with_nc4_orig_name (v : option string) (n : NCD4node) : NCD4node :=
  {| sort := sort n; subsort := subsort n; name := name n; container :=
     container n; basetype := basetype n; groups := groups n; vars := vars
     n; types := types n; dims := dims n; attributes := attributes n; maps
     := maps n; group_isdataset := group_isdataset n; dim_size := dim_size
     n; en_econsts := en_econsts n; en_ecvalue := en_ecvalue n;
     attr_values := attr_values n; opaque_size := opaque_size n;
     nc4_orig_name := v; nc4_orig_group := nc4_orig_group n; meta_id :=
     meta_id n; meta_cmpdid := meta_cmpdid n; meta_offset := meta_offset n
     |}.

Definition with_nc4_orig_group (v : option nat) (n : NCD4node) : NCD4node :=
  {| sort := sort n; subsort := subsort n; name := name n; container :=
     container n; basetype := basetype n; groups := groups n; vars := vars
     n; types := types n; dims := dims n; attributes := attributes n; maps
     := maps n; group_isdataset := group_isdataset n; dim_size := dim_size
     n; en_econsts := en_econsts n; en_ecvalue := en_ecvalue n;
     attr_values := attr_values n; opaque_size := opaque_size n;
     nc4_orig_name := nc4_orig_name n; nc4_orig_group := v; meta_id :=
     meta_id n; meta_cmpdid := meta_cmpdid n; meta_offset := meta_offset n
     |}.

(** An atomic type node after the fix-up of [NCD4_metabuild]. *)
Definition atomic (t : nc_type) (nm : string) (c : option nat) : NCD4node :=
  set_meta_id (nc_code t) (node NCD4_TYPE t nm c).

End Fixture.

(** ** Attribute Value Encoder *)

(** One cell of the buffer handed to [nc_put_att]: a byte, or (for text
    attributes) a whole pointer-sized slot holding a [char*]. *)
Inductive mcell : Type :=
  | MByte (b : Z)
  | MPtr (s : string).

(** Objects whose addresses [decodeEconst] compares: the [en.ecvalue]
    member of a node, and its local variable [number]. *)
Inductive objaddr : Type :=
  | ObjEcvalue (node : nat)
  | ObjLocalNumber.

Definition objaddr_eqb (a b : objaddr) : bool :=
  match a, b with
  | ObjEcvalue x, ObjEcvalue y => Nat.eqb x y
  | ObjLocalNumber, ObjLocalNumber => true
  | _, _ => false
  end.

Definition nc_type_eqb (a b : nc_type) : bool := nc_code a =? nc_code b.

(** [downConvert]: the four views of the union are read, then the member
    of the declared width is stored back over the low bytes. *)
Definition downConvert (converter : ATOMICS) (type : NCD4node)
  : outcome (Z * ATOMICS) :=
  let numeric (f : Z -> Z) :=
    match converter with
    | ABits u => Ok (NC_NOERR, ABits (f u))
    | _ => Undefined
    end in
  match subsort type with
  | NC_BYTE => numeric (fun u => store_low 8 u (to_signed 64 u))
  | NC_UBYTE => numeric (fun u => store_low 8 u u)
  | NC_SHORT => numeric (fun u => store_low 16 u (to_signed 64 u))
  | NC_USHORT => numeric (fun u => store_low 16 u u)
  | NC_INT => numeric (fun u => store_low 32 u (to_signed 64 u))
  | NC_UINT => numeric (fun u => store_low 32 u u)
  | NC_INT64 => numeric (fun u => wrap 64 (to_signed 64 u))
  | NC_UINT64 => numeric (fun u => u)
  | NC_FLOAT => numeric (fun u => store_low 32 u (float_of_double u))
  | NC_DOUBLE => numeric (fun u => u)
  | _ => Ok (NC_NOERR, converter)
  end.

Section AttributeValues.

Context (C : libc).

Definition convertString (converter : ATOMICS) (type : NCD4node) (s : string)
    : outcome (Z * ATOMICS) :=
    let scanned (r : option Z) :=
      match r with
      | Some u => downConvert (ABits u) type
      | None => Ok (NC_ERANGE, converter)
      end in
    match subsort type with
    | NC_BYTE | NC_SHORT | NC_INT | NC_INT64 => scanned (scan_lld C s)
    | NC_UBYTE | NC_USHORT | NC_UINT | NC_UINT64 => scanned (scan_llu C s)
    | NC_FLOAT | NC_DOUBLE => scanned (scan_lf C s)
    | NC_STRING => downConvert (APtr s) type
    | _ => downConvert converter type
    end.

  (** [copyAtomic]: [len] bytes from the start of the union are appended to
      the buffer; the [switch] has no default, so for another type id the
      [len] bytes of the buffer stay indeterminate. *)
Definition copyAtomic (converter : ATOMICS) (type : Z) (len : Z)
      (memory : list mcell) : outcome (list mcell) :=
    let bytes :=
      match converter with
      | ABits u => Ok (memory ++ map MByte (le_bytes (Z.to_nat len) u))%list
      | APtr s => Ok (memory ++ [MPtr s])%list
      | AUninit => Undefined
      end in
    match nc_of_code type with
    | Some NC_CHAR | Some NC_BYTE | Some NC_UBYTE
    | Some NC_SHORT | Some NC_USHORT
    | Some NC_INT | Some NC_UINT
    | Some NC_INT64 | Some NC_UINT64
    | Some NC_FLOAT | Some NC_DOUBLE | Some NC_STRING => bytes
    | _ => if len =? 0 then Ok memory else Undefined
    end.

  (** The first constant of the list whose name is [s]. *)
Fixpoint econst_by_name (h : heap) (econsts : list nat) (s : string)
    : outcome (option nat) :=
    match econsts with
    | [] => Ok None
    | ec :: rest =>
        let* n := deref h ec in
        if String.eqb (name n) s then Ok (Some ec)
        else econst_by_name h rest s
    end.

  (** The second loop of [decodeEconst] tests
      [ec->en.ecvalue.u64 == number.u64].  Both operands are arrays
      ([unsigned long long u64[1]], read elsewhere as [u64[0]]), so each
      decays to the address of its object and the addresses are compared:
      the value read into [number] takes no part. *)
Definition econst_by_value (econsts : list nat) : option nat :=
    find (fun ec => objaddr_eqb (ObjEcvalue ec) ObjLocalNumber) econsts.

Definition decodeEconst (h : heap) (enumtype : NCD4node) (nameorval : string)
      (converter : ATOMICS) : outcome (Z * ATOMICS) :=
    let* byname := econst_by_name h (en_econsts enumtype) nameorval in
    let finish (match_ : option nat) :=
      match match_ with
      | None => Ok (NC_EINVAL, converter)
      | Some ec => let* n := deref h ec in Ok (NC_NOERR, en_ecvalue n)
      end in
    match byname with
    | Some ec => finish (Some ec)
    | None =>
        let* base := deref_opt h (basetype enumtype) in
        let* (ret, number) := convertString AUninit base nameorval in
        if negb (ret =? 0) then Ok (ret, converter)
        else finish (econst_by_value (en_econsts enumtype))
    end.

  (** The loop of [compileAttrValues] over the values; [converter] is
      declared outside the loop and keeps its content between values. *)
Fixpoint compileAttrValues_loop (h : heap) (isenum : bool)
      (btype truebase : NCD4node) (values : list string)
      (converter : ATOMICS) (memory : list mcell)
    : outcome (Z * option (list mcell)) :=
    match values with
    | [] => Ok (NC_NOERR, Some memory)
    | s :: rest =>
        let* (ret, converter1) :=
          (if isenum then decodeEconst h btype s converter
           else
             let* (r, c) := convertString converter btype s in
             Ok ((if negb (r =? 0) then NC_EBADTYPE else r), c)) in
        if negb (ret =? 0) then Ok (ret, None)
        else
          let* (_, converter2) := downConvert converter1 truebase in
          let* memory' :=
            copyAtomic converter2 (meta_id truebase)
              (NCD4_typesize (meta_id truebase)) memory in
          compileAttrValues_loop h isenum btype truebase rest
            converter2 memory'
    end.

  (** [compileAttrValues]: the status, and the buffer stored through
      [memoryp] when the end of the function is reached without [FAIL].
      Allocation is taken to succeed. *)
Definition compileAttrValues (h : heap) (btype : option nat)
      (values : list string) : outcome (Z * option (list mcell)) :=
    let* bt := deref_opt h btype in
    let isenum := nc_type_eqb (subsort bt) NC_ENUM in
    let* truebase :=
      (if isenum then deref_opt h (basetype bt) else Ok bt) in
    if negb (ISTYPE (sort truebase)) || (meta_id truebase >? NC_MAX_ATOMIC_TYPE)
    then Ok (NC_EBADTYPE, None)
    else compileAttrValues_loop h isenum bt truebase values AUninit [].

End AttributeValues.

(** ** Walking the container back-references *)

(** [groupFor]: [fuel] bounds the number of iterations of the [while]. *)
Fixpoint groupFor (fuel : nat) (h : heap) (node : option nat) : outcome nat :=
  match fuel with
  | O => OutOfFuel
  | S k =>
      let* p := nonnull node in
      let* n := deref h p in
      match sort n with
      | NCD4_GROUP => Ok p
      | _ => groupFor k h (container n)
      end
  end.

(** ** FQN Namer *)

Definition escaped_char (c : ascii) : bool :=
  (Ascii.eqb c "\" || Ascii.eqb c "/" || Ascii.eqb c "." || Ascii.eqb c "@")%bool.

Fixpoint backslashEscape (s : string) : string :=
  match s with
  | EmptyString => EmptyString
  | String c rest =>
      if escaped_char c
      then String "\" (String "\" (backslashEscape rest))
      else String c (backslashEscape rest)
  end.

(** First loop of [getFieldFQN]: every visited node is inserted at the
    front of [path]. *)
Fixpoint fieldPath (fuel : nat) (h : heap) (x : option nat) (path : list nat)
  : outcome (list nat) :=
  match fuel with
  | O => OutOfFuel
  | S k =>
      let* p := nonnull x in
      let* n := deref h p in
      if ISGROUP (sort n) then Ok path
      else fieldPath k h (container n) (p :: path)
  end.

(** Second loop of [getFieldFQN]: [first] is the test [i > 0] negated. *)
Fixpoint fieldJoin (h : heap) (path : list nat) (first : bool) (fqn : string)
  : outcome string :=
  match path with
  | [] => Ok fqn
  | elem :: rest =>
      let* n := deref h elem in
      let escaped := backslashEscape (name n) in
      let fqn1 := if first then fqn else (fqn ++ ".")%string in
      fieldJoin h rest false (fqn1 ++ escaped)%string
  end.

Definition getFieldFQN (fuel : nat) (h : heap) (field : nat) (tail : string)
  : outcome string :=
  let* path := fieldPath fuel h (Some field) [] in
  let* fqn := fieldJoin h path true "" in
  Ok (fqn ++ tail)%string.

(** ** Offset Calculator *)

(** [computeTypeSize]; the result is an [unsigned long long]. *)
Fixpoint computeTypeSize (fuel : nat) (h : heap) (type : option nat)
  : outcome Z :=
  match fuel with
  | O => OutOfFuel
  | S k =>
      let* t := deref_opt h type in
      match sort t with
      | NCD4_TYPE =>
          match subsort t with
          | NC_OPAQUE =>
              Ok (if opaque_size t =? 0 then sizeof_nc_vlen_t
                  else wrap 64 (opaque_size t))
          | NC_ENUM => computeTypeSize k h (basetype t)
          | NC_SEQ => Ok sizeof_nc_vlen_t
          | NC_STRUCT => Ok (meta_offset t)
          | _ => Ok (NCD4_typesize (meta_id t))
          end
      | _ => Ok 0
      end
  end.

(** The body of the [for] loop of [computeOffsets] over the fields, given
    the two functions it calls; the result is the final [offset]. *)
Fixpoint computeOffsets_loop
    (offsets : nat -> heap -> outcome heap)
    (typesize : heap -> option nat -> outcome Z)
    (fields : list nat) (offset : Z) (h : heap) : outcome (Z * heap) :=
  match fields with
  | [] => Ok (offset, h)
  | f :: rest =>
      let* field := deref h f in
      let* (size, h1) :=
        match subsort field with
        | NC_STRUCT =>
            let* bt := nonnull (basetype field) in
            let* h1 := offsets bt h in
            let* size := typesize h1 (basetype field) in
            Ok (size, h1)
        | NC_SEQ => Ok (sizeof_nc_vlen_t, h)
        | _ =>
            let* size := typesize h (basetype field) in
            Ok (size, h)
        end in
      computeOffsets_loop offsets typesize rest (wrap 64 (offset + size))
        (write_meta_offset f offset h1)
  end.

(** [computeOffsets]: [fuel] bounds the depth of the recursion. *)
Fixpoint computeOffsets (fuel : nat) (cmpd : nat) (h : heap) : outcome heap :=
  match fuel with
  | O => OutOfFuel
  | S k =>
      let* c := deref h cmpd in
      let* (offset, h') :=
        computeOffsets_loop (computeOffsets k) (computeTypeSize k)
          (vars c) 0 h in
      Ok (write_meta_offset cmpd offset h')
  end.

(** ** The destination store (the netCDF library) *)

(** One constructor per library function d4meta.c calls, with the
    arguments passed (output pointers left out). *)
Inductive Call : Type :=
  | nc_def_grp (parent_ncid : Z) (nm : string)
  | nc_def_dim (ncid : Z) (nm : string) (len : Z)
  | nc_def_enum (ncid : Z) (base_typeid : Z) (nm : string)
  | nc_insert_enum (ncid xtype : Z) (nm : string) (value : ATOMICS)
  | nc_def_opaque (ncid : Z) (size : Z) (nm : string)
  | nc_def_vlen (ncid : Z) (nm : string) (base_typeid : Z)
  | nc_def_compound (ncid : Z) (size : Z) (nm : option string)
  | nc_insert_compound (ncid xtype : Z) (nm : string) (offset field_typeid : Z)
  | nc_insert_array_compound (ncid xtype : Z) (nm : string)
      (offset field_typeid : Z) (ndims : Z) (dim_sizes : list Z)
  | nc_def_var (ncid : Z) (nm : string) (xtype : Z) (ndims : Z)
      (dimids : list Z)
  | nc_put_att (ncid varid : Z) (nm : string) (xtype : Z) (len : Z)
      (data : list mcell)
  | nc_inq_typeid (ncid : Z) (nm : string).

(** The calls that define a type in the store. *)
Definition is_type_definition (c : Call) : bool :=
  match c with
  | nc_def_enum _ _ _ | nc_def_opaque _ _ _ | nc_def_vlen _ _ _
  | nc_def_compound _ _ _ => true
  | _ => false
  end.

(** What d4meta.c takes from outside: the C library, the netCDF library
    ([nc] answers a call in a store state with a status, the value written
    through the output pointer on success, and the next state), and two
    functions of d4util.c. *)
Record externals (Store : Type) : Type := {
  ext_libc : libc;
  nc : Call -> Store -> Z * Z * Store;
  NCD4_makeFQN : heap -> nat -> string;
  NCD4_toposort : heap -> list nat -> list nat
}.
Arguments ext_libc {Store} e.
Arguments nc {Store} e c s.
Arguments NCD4_makeFQN {Store} e h p.
Arguments NCD4_toposort {Store} e h l.

(** [NCD4meta]: the members the build reads. *)
Record NCD4meta : Type := {
  ncid : Z;
  root : nat;
  allnodes : list nat
}.

(** The state of a build pass: the node graph, the store, and the calls
    issued so far, oldest first. *)
Record BState (Store : Type) : Type := {
  st_heap : heap;
  st_store : Store;
  st_trace : list Call
}.
Arguments st_heap {Store} b.
Arguments st_store {Store} b.
Arguments st_trace {Store} b.
Arguments Build_BState {Store} st_heap st_store st_trace.

(** Modelled from the spec: [NCD4_findAttr] (d4util.c), the look-up of the
    out-of-band tag a node carries, by name among its attributes. *)
Fixpoint NCD4_findAttr (h : heap) (attrs : list nat) (attrname : string)
  : outcome (option nat) :=
  match attrs with
  | [] => Ok None
  | a :: rest =>
      let* n := deref h a in
      if String.eqb (name n) attrname then Ok (Some a)
      else NCD4_findAttr h rest attrname
  end.

(** [ISTOPLEVEL] (ncd4types.h): no container, or a group as container. *)
Definition ISTOPLEVEL (h : heap) (x : NCD4node) : outcome bool :=
  match container x with
  | None => Ok true
  | Some c => let* cn := deref h c in Ok (ISGROUP (sort cn))
  end.

(** [getDimrefs]: the store ids of the dimensions, in declared order. *)
Fixpoint getDimrefs (h : heap) (ds : list nat) : outcome (list Z) :=
  match ds with
  | [] => Ok []
  | d :: rest =>
      let* dn := deref h d in
      let* ids := getDimrefs h rest in
      Ok (meta_id dn :: ids)
  end.

(** [getDimsizes] writes one [size_t] per dimension. *)
Fixpoint getDimsizes (h : heap) (ds : list nat) : outcome (list Z) :=
  match ds with
  | [] => Ok []
  | d :: rest =>
      let* dn := deref h d in
      let* sizes := getDimsizes h rest in
      Ok (wrap 64 (dim_size dn) :: sizes)
  end.

(** [buildCompound] passes an [int dimsizes[]] to [getDimsizes], which
    fills it as [size_t*]; [nc_insert_array_compound] then reads [rank]
    elements of type [int]: the low and high halves of the sizes. *)
Definition dimsizes_as_int (rank : nat) (sizes : list Z) : list Z :=
  take rank (flat_map (fun d => [to_signed 32 d; to_signed 32 (d / 2 ^ 32)]) sizes).

(** [freeStringMemory]: [mem] points into the block that [malloc]
    returned, [offset] elements after its start.  The loop reads (and
    frees) one string per element and advances [mem]; [free(mem)] is then
    called on the advanced pointer.  [free] is defined for the pointer
    [malloc] returned, the start of the block, and for no other pointer
    into it. *)
Fixpoint freeStringMemory_loop (cells : list mcell) (count offset : nat)
  : outcome nat :=
  match count with
  | O => Ok offset
  | S k =>
      match cells !! offset with
      | Some _ => freeStringMemory_loop cells k (S offset)
      | None => Undefined
      end
  end.

Definition free_at (offset : nat) : outcome unit :=
  if Nat.eqb offset 0 then Ok tt else Undefined.

Definition freeStringMemory (mem : option (list mcell)) (count : nat)
  : outcome unit :=
  match mem with
  | None => Ok tt
  | Some cells =>
      let* offset := freeStringMemory_loop cells count 0 in
      free_at offset
  end.

(** ** The builders *)

Section Builder.

Context {Store : Type} (E : externals Store).

Definition with_heap (f : heap -> heap) (st : BState Store) : BState Store :=
  Build_BState (f (st_heap st)) (st_store st) (st_trace st).

(** A library call: it is appended to the trace and answered by [nc]. *)
Definition issue (c : Call) (st : BState Store) : Z * Z * BState Store :=
  let '(ret, out, s') := nc E c (st_store st) in
  (ret, out, Build_BState (st_heap st) s' (st_trace st ++ [c])).

(** A library call with the output pointer [&node->meta.id], which is
    written on success. *)
Definition define (c : Call) (node : nat) (st : BState Store)
  : Z * BState Store :=
  let '(ret, out, st1) := issue c st in
  if ret =? 0 then (ret, with_heap (write_meta_id node out) st1)
  else (ret, st1).

(** A library call without output pointer. *)
Definition perform (c : Call) (st : BState Store) : Z * BState Store :=
  let '(ret, _, st1) := issue c st in (ret, st1).

(** The macro [NCCHECK]: a non-zero status jumps to [done], which returns
    it; otherwise the function goes on. *)
Definition NCCHECK (r : Z * BState Store)
    (k : BState Store -> outcome (Z * BState Store))
  : outcome (Z * BState Store) :=
  let '(ret, st) := r in
  if negb (ret =? 0) then Ok (ret, st) else k st.

(** The same test on the status of a builder: [if((ret=f(...))) goto done]. *)
Definition CHECKED (c : outcome (Z * BState Store))
    (k : BState Store -> outcome (Z * BState Store))
  : outcome (Z * BState Store) :=
  let* r := c in NCCHECK r k.

Definition done (st : BState Store) : outcome (Z * BState Store) :=
  Ok (NC_NOERR, st).

(** *** Groups and dimensions *)

Fixpoint buildGroups (fuel : nat) (builder : NCD4meta) (parent : nat)
    (st : BState Store) : outcome (Z * BState Store) :=
  match fuel with
  | O => OutOfFuel
  | S k =>
      let* p := deref (st_heap st) parent in
      (fix loop (gs : list nat) (st : BState Store) :=
         match gs with
         | [] => done st
         | g :: rest =>
             let* gn := deref (st_heap st) g in
             let* pn := deref (st_heap st) parent in
             NCCHECK
               (if group_isdataset gn
                then (NC_NOERR, with_heap (write_meta_id g (ncid builder)) st)
                else define (nc_def_grp (meta_id pn) (name gn)) g st)
               (fun st1 =>
                  CHECKED (buildGroups k builder g st1) (loop rest))
         end) (groups p) st
  end.

Definition buildDimension (fuel : nat) (dim : nat) (st : BState Store)
  : outcome (Z * BState Store) :=
  let h := st_heap st in
  let* g := groupFor fuel h (Some dim) in
  let* group := deref h g in
  let* d := deref h dim in
  NCCHECK (define (nc_def_dim (meta_id group) (name d) (wrap 64 (dim_size d)))
             dim st) done.

(** *** Type Builder *)

Fixpoint buildEnumeration_consts (group en : nat) (econsts : list nat)
    (st : BState Store) : outcome (Z * BState Store) :=
  match econsts with
  | [] => done st
  | ec :: rest =>
      let h := st_heap st in
      let* ecn := deref h ec in
      let* gn := deref h group in
      let* enn := deref h en in
      NCCHECK (perform (nc_insert_enum (meta_id gn) (meta_id enn) (name ecn)
                          (en_ecvalue ecn)) st)
        (buildEnumeration_consts group en rest)
  end.

Definition buildEnumeration (fuel : nat) (en : nat) (st : BState Store)
  : outcome (Z * BState Store) :=
  let h := st_heap st in
  let* g := groupFor fuel h (Some en) in
  let* gn := deref h g in
  let* enn := deref h en in
  let* base := deref_opt h (basetype enn) in
  NCCHECK (define (nc_def_enum (meta_id gn) (meta_id base) (name enn)) en st)
    (buildEnumeration_consts g en (en_econsts enn)).

Definition buildOpaque (fuel : nat) (builder : NCD4meta) (op : nat)
    (st : BState Store) : outcome (Z * BState Store) :=
  let h := st_heap st in
  let* g := groupFor fuel h (Some op) in
  let* opn := deref h op in
  if opaque_size opn >? 0 then
    let '(nm, group) :=
      match nc4_orig_name opn with
      | Some orig => (orig, nc4_orig_group opn)
      | None => (name opn, Some g)
      end in
    let* gn := deref_opt h group in
    NCCHECK (define (nc_def_opaque (meta_id gn) (wrap 64 (opaque_size opn)) nm)
               op st) done
  else
    let* rootn := deref h (root builder) in
    NCCHECK (define (nc_def_vlen (meta_id rootn) "_bytestring"
                       (nc_code NC_UBYTE)) op st) done.

Fixpoint buildCompound_fields (cmpdtype group : nat) (fields : list nat)
    (st : BState Store) : outcome (Z * BState Store) :=
  match fields with
  | [] => done st
  | f :: rest =>
      let h := st_heap st in
      let* field := deref h f in
      let* gn := deref h group in
      let* cn := deref h cmpdtype in
      let rank := length (dims field) in
      match rank with
      | O =>
          let* bt := deref_opt h (basetype field) in
          NCCHECK (perform (nc_insert_compound (meta_id gn) (meta_id cn)
                              (name field) (meta_offset field) (meta_id bt)) st)
            (buildCompound_fields cmpdtype group rest)
      | _ =>
          let* sizes := getDimsizes h (dims field) in
          let* bt := deref_opt h (basetype field) in
          NCCHECK (perform (nc_insert_array_compound (meta_id gn) (meta_id cn)
                              (name field) (meta_offset field) (meta_id bt)
                              (Z.of_nat rank) (dimsizes_as_int rank sizes)) st)
            (buildCompound_fields cmpdtype group rest)
      end
  end.

Definition buildCompound (fuel : nat) (cmpdtype group : nat)
    (nm : option string) (st : BState Store) : outcome (Z * BState Store) :=
  let* h1 := computeOffsets fuel cmpdtype (st_heap st) in
  let st1 := with_heap (fun _ => h1) st in
  let* gn := deref h1 group in
  let* cn := deref h1 cmpdtype in
  NCCHECK (define (nc_def_compound (meta_id gn) (meta_offset cn) nm)
             cmpdtype st1)
    (buildCompound_fields cmpdtype group (vars cn)).

Definition buildStructureType (fuel : nat) (structtype : nat)
    (st : BState Store) : outcome (Z * BState Store) :=
  let h := st_heap st in
  let* g := groupFor fuel h (Some structtype) in
  let* sn := deref h structtype in
  let* (nm, group) :=
    match nc4_orig_name sn with
    | Some orig => let* og := nonnull (nc4_orig_group sn) in Ok (orig, og)
    | None => let* fqn := getFieldFQN fuel h structtype "_t" in Ok (fqn, g)
    end in
  let* gn := deref h group in
  let '(probe, tid, st1) := issue (nc_inq_typeid (meta_id gn) nm) st in
  if probe =? NC_NOERR then
    Ok (NC_NOERR, with_heap (write_meta_id structtype tid) st1)
  else
    CHECKED (buildCompound fuel structtype group (Some nm) st1) done.

Definition buildSequenceType (fuel : nat) (seqtype : nat)
    (st : BState Store) : outcome (Z * BState Store) :=
  let h := st_heap st in
  let* g := groupFor fuel h (Some seqtype) in
  let field1 : option nat := None in
  let* sn := deref h seqtype in
  let* (names, group) :=
    match nc4_orig_name sn with
    | Some orig =>
        let* og := nonnull (nc4_orig_group sn) in Ok ((orig, None), og)
    | None =>
        let* vlen := getFieldFQN fuel h seqtype "_t" in
        let* cmpd := getFieldFQN fuel h seqtype "_cmpd_t" in
        Ok ((vlen, Some cmpd), g)
    end in
  let '(vlentypename, cmpdtypename) := names in
  let* gn := deref h group in
  let '(probe, tid, st1) := issue (nc_inq_typeid (meta_id gn) vlentypename) st in
  if probe =? NC_NOERR then
    Ok (NC_NOERR, with_heap (write_meta_id seqtype tid) st1)
  else
    let* ucar := NCD4_findAttr h (attributes sn) UCARTAGVLEN in
    let usevlen :=
      match ucar with
      | Some _ => Nat.eqb (length (vars sn)) 1
      | None => false
      end in
    let define_vlen (tid : Z) (st : BState Store) :=
      let* gn := deref (st_heap st) group in
      NCCHECK (define (nc_def_vlen (meta_id gn) vlentypename tid) seqtype st)
        done in
    if usevlen then
      let* f1 := deref_opt h field1 in
      let* bt := deref_opt h (basetype f1) in
      define_vlen (meta_id bt) st1
    else
      CHECKED (buildCompound fuel seqtype group cmpdtypename st1)
        (fun st2 =>
           let* sn2 := deref (st_heap st2) seqtype in
           let st3 := with_heap (write_meta_cmpdid seqtype (meta_id sn2)) st2 in
           define_vlen (meta_id sn2) st3).

(** *** Variable Builder *)

Fixpoint buildAttributes_loop (fuel : nat) (varorgroup : nat)
    (attrs : list nat) (st : BState Store) : outcome (Z * BState Store) :=
  match attrs with
  | [] => done st
  | a :: rest =>
      let h := st_heap st in
      let* attr := deref h a in
      let count := Z.of_nat (length (attr_values attr)) in
      if String.prefix UCARTAGNC4 (name attr) then
        buildAttributes_loop fuel varorgroup rest st
      else
        let* vg := deref h varorgroup in
        let varid := if ISGROUP (sort vg) then NC_GLOBAL else meta_id vg in
        let* (ret, memory) :=
          compileAttrValues (ext_libc E) h (basetype attr) (attr_values attr) in
        if negb (ret =? 0) then Ok (NC_ERANGE, st)
        else
          let* g := groupFor fuel h (Some varorgroup) in
          let* gn := deref h g in
          let* bt := deref_opt h (basetype attr) in
          NCCHECK (perform (nc_put_att (meta_id gn) varid (name attr)
                              (meta_id bt) count
                              (match memory with Some m => m | None => [] end))
                     st)
            (buildAttributes_loop fuel varorgroup rest)
  end.

Definition buildAttributes (fuel : nat) (varorgroup : nat) (st : BState Store)
  : outcome (Z * BState Store) :=
  let* vg := deref (st_heap st) varorgroup in
  buildAttributes_loop fuel varorgroup (attributes vg) st.

(** The outer [for] of [buildMaps] and the loop that fills [memory] share
    the counter [i]: the inner loop leaves it at [count].  The status of
    [nc_put_att] is kept in [ret] while [freeStringMemory] runs, and is
    tested after it. *)
Fixpoint buildMaps_loop (fuel : nat) (i : nat) (var : nat) (st : BState Store)
  : outcome (Z * BState Store) :=
  match fuel with
  | O => OutOfFuel
  | S k =>
      let h := st_heap st in
      let* vn := deref h var in
      let count := length (maps vn) in
      if Nat.ltb i count then
        let memory := map (fun mapref => MPtr (NCD4_makeFQN E h mapref)) (maps vn) in
        let i := count in
        let* g := groupFor fuel h (Some var) in
        let* gn := deref h g in
        let r := perform (nc_put_att (meta_id gn) (meta_id vn) NC4TAGMAPS
                            (nc_code NC_STRING) (Z.of_nat count) memory) st in
        let* _ := freeStringMemory (Some memory) count in
        NCCHECK r (buildMaps_loop k (S i) var)
      else done st
  end.

Definition buildMaps (fuel : nat) (var : nat) (st : BState Store)
  : outcome (Z * BState Store) :=
  buildMaps_loop fuel 0 var st.

Definition buildMetaData (fuel : nat) (var : nat) (st : BState Store)
  : outcome (Z * BState Store) :=
  CHECKED (buildAttributes fuel var st)
    (fun st1 => CHECKED (buildMaps fuel var st1) done).

Definition buildAtomicVar (fuel : nat) (var : nat) (st : BState Store)
  : outcome (Z * BState Store) :=
  let h := st_heap st in
  let* g := groupFor fuel h (Some var) in
  let* vn := deref h var in
  let* dimids := getDimrefs h (dims vn) in
  let rank := Z.of_nat (length (dims vn)) in
  let* gn := deref h g in
  let* bt := deref_opt h (basetype vn) in
  NCCHECK (define (nc_def_var (meta_id gn) (name vn) (meta_id bt) rank dimids)
             var st)
    (fun st1 => CHECKED (buildMetaData fuel var st1) done).

Definition buildStructure (fuel : nat) (structvar : nat) (st : BState Store)
  : outcome (Z * BState Store) :=
  let h := st_heap st in
  let* vn := deref h structvar in
  let rank := Z.of_nat (length (dims vn)) in
  let* dimids := getDimrefs h (dims vn) in
  let* g := groupFor fuel h (Some structvar) in
  let* gn := deref h g in
  let* bt := deref_opt h (basetype vn) in
  NCCHECK (define (nc_def_var (meta_id gn) (name vn) (meta_id bt) rank dimids)
             structvar st)
    (fun st1 => CHECKED (buildMetaData fuel structvar st1) done).

Definition buildSequence (fuel : nat) (seq : nat) (st : BState Store)
  : outcome (Z * BState Store) :=
  let h := st_heap st in
  let* vn := deref h seq in
  let rank := Z.of_nat (length (dims vn)) in
  let* dimids := getDimrefs h (dims vn) in
  let* g := groupFor fuel h (Some seq) in
  let* gn := deref h g in
  let* bt := deref_opt h (basetype vn) in
  NCCHECK (define (nc_def_var (meta_id gn) (name vn) (meta_id bt) rank dimids)
             seq st)
    (fun st1 => CHECKED (buildMetaData fuel seq st1) done).

Definition buildVariable (fuel : nat) (var : nat) (st : BState Store)
  : outcome (Z * BState Store) :=
  let* vn := deref (st_heap st) var in
  match subsort vn with
  | NC_STRUCT => CHECKED (buildStructure fuel var st) done
  | NC_SEQ => CHECKED (buildSequence fuel var st) done
  | _ => CHECKED (buildAtomicVar fuel var st) done
  end.

(** *** The build pass *)

(** The [switch] in the first loop of [build], for one node [x]. *)
Definition build_switch (fuel : nat) (builder : NCD4meta) (x : nat)
    (st : BState Store) : outcome (Z * BState Store) :=
  let* xn := deref (st_heap st) x in
  match sort xn with
  | NCD4_DIM => buildDimension fuel x st
  | NCD4_TYPE =>
      match subsort xn with
      | NC_ENUM => buildEnumeration fuel x st
      | NC_OPAQUE => buildOpaque fuel builder x st
      | NC_STRUCT => buildStructureType fuel x st
      | NC_SEQ => buildSequenceType fuel x st
      | _ => done st
      end
  | _ => done st
  end.

(** First loop of [build]: dimensions and types, in the order of
    [allnodes]; a non-zero status leaves the loop. *)
Fixpoint build_types (fuel : nat) (builder : NCD4meta) (nodes : list nat)
    (st : BState Store) : outcome (Z * BState Store) :=
  match nodes with
  | [] => done st
  | x :: rest =>
      CHECKED (build_switch fuel builder x st)
        (build_types fuel builder rest)
  end.

(** Second loop of [build]: the value [buildVariable] returns is not
    assigned to [ret]. *)
Fixpoint build_variables (fuel : nat) (nodes : list nat) (st : BState Store)
  : outcome (BState Store) :=
  match nodes with
  | [] => Ok st
  | x :: rest =>
      let* xn := deref (st_heap st) x in
      let* toplevel :=
        (if ISVAR (sort xn) then ISTOPLEVEL (st_heap st) xn else Ok false) in
      if toplevel then
        let* (_, st1) := buildVariable fuel x st in
        build_variables fuel rest st1
      else build_variables fuel rest st
  end.

Definition build (fuel : nat) (builder : NCD4meta) (root : nat)
    (st : BState Store) : outcome (Z * BState Store) :=
  CHECKED (buildGroups fuel builder root st)
    (fun st1 =>
       CHECKED (build_types fuel builder (allnodes builder) st1)
         (fun st2 =>
            let* st3 := build_variables fuel (allnodes builder) st2 in
            Ok (NC_NOERR, st3))).

(** The fix-up of the atomic types in [NCD4_metabuild]. *)
Fixpoint fixup_atomic (nodes : list nat) (h : heap) : outcome heap :=
  match nodes with
  | [] => Ok h
  | p :: rest =>
      let* n := deref h p in
      if negb (ISTYPE (sort n)) then fixup_atomic rest h
      else if nc_code (subsort n) >? NC_MAX_ATOMIC_TYPE then fixup_atomic rest h
      else fixup_atomic rest (write_meta_id p (nc_code (subsort n)) h)
  end.

Definition NCD4_metabuild (fuel : nat) (metadata : NCD4meta) (ncid_ : Z)
    (st : BState Store) : outcome (Z * BState Store) :=
  let metadata1 :=
    {| ncid := ncid_; root := root metadata; allnodes := allnodes metadata |} in
  let* _ := deref (st_heap st) (root metadata1) in
  let h1 := write_meta_id (root metadata1) ncid_ (st_heap st) in
  let* h2 := fixup_atomic (allnodes metadata1) h1 in
  let metadata2 :=
    {| ncid := ncid_; root := root metadata1;
       allnodes := NCD4_toposort E h2 (allnodes metadata1) |} in
  build fuel metadata2 (root metadata2) (with_heap (fun _ => h2) st).

End Builder.

(** ** A reference destination store *)

(** Modelled from the spec: a destination store with the interface of
    section 6.  Ids are handed out from one counter; a type name can be
    defined once per group; [nc_inq_typeid] finds the types defined in the
    group asked about.  [policy] injects failures: a call for which it
    gives a non-zero status fails with that status and changes nothing. *)
Module RefStore.

Record state : Type := {
  next_id : Z;
  typenames : list (Z * string * Z)
}.

Definition init : state := {| next_id := 100; typenames := [] |}.

Fixpoint lookup (l : list (Z * string * Z)) (g : Z) (nm : string) : option Z :=
  match l with
  | [] => None
  | (g', nm', tid) :: rest =>
      if (g' =? g) && String.eqb nm' nm then Some tid else lookup rest g nm
  end.

Definition fresh (s : state) : Z * Z * state :=
  (NC_NOERR, next_id s,
   {| next_id := next_id s + 1; typenames := typenames s |}).

Definition def_type (g : Z) (nm : string) (s : state) : Z * Z * state :=
  match lookup (typenames s) g nm with
  | Some _ => (NC_ENAMEINUSE, 0, s)
  | None =>
      (NC_NOERR, next_id s,
       {| next_id := next_id s + 1;
          typenames := (g, nm, next_id s) :: typenames s |})
  end.

Definition answer (c : Call) (s : state) : Z * Z * state :=
  match c with
  | nc_def_grp _ _ | nc_def_dim _ _ _ | nc_def_var _ _ _ _ _ => fresh s
  | nc_def_enum g _ nm | nc_def_opaque g _ nm | nc_def_vlen g nm _
  | nc_def_compound g _ (Some nm) => def_type g nm s
  | nc_def_compound _ _ None => (NC_EINVAL, 0, s)
  | nc_insert_enum _ _ _ _ | nc_insert_compound _ _ _ _ _
  | nc_insert_array_compound _ _ _ _ _ _ _ | nc_put_att _ _ _ _ _ _ =>
      (NC_NOERR, 0, s)
  | nc_inq_typeid g nm =>
      match lookup (typenames s) g nm with
      | Some tid => (NC_NOERR, tid, s)
      | None => (NC_EBADTYPE, 0, s)
      end
  end.

Definition nc_with (policy : Call -> Z) (c : Call) (s : state) : Z * Z * state :=
  if policy c =? 0 then answer c s else (policy c, 0, s).

Definition no_failure (c : Call) : Z := 0.

(** The externals of the examples: the reference scanner, this store, the
    node name for [NCD4_makeFQN] and the given order for [NCD4_toposort]. *)
Definition ext (policy : Call -> Z) : externals state :=
  {| ext_libc := RefScan.C;
     nc := nc_with policy;
     NCD4_makeFQN := fun h p =>
       match h !! p with Some n => ("/" ++ name n)%string | None => "" end;
     NCD4_toposort := fun _ l => l |}.

Definition start (h : heap) : BState state :=
  Build_BState h init [].

End RefStore.

(** ** The Offset Calculator as the specification words it

    Declared widths, by kind: an atomic type has the width of the Atomic
    Type Table for its kind; an opaque type its fixed size, or the size of
    a variable-length handle when the size is 0; an enumeration the width
    of its underlying type; a sequence the size of a variable-length
    handle; a structure the sum of the declared widths of its fields.
    [None]: the width is not declared within [fuel] levels. *)

Definition sumZ (l : list Z) : Z := fold_right Z.add 0 l.

Definition is_struct_type (n : NCD4node) : bool :=
  ISTYPE (sort n) && nc_type_eqb (subsort n) NC_STRUCT.

Fixpoint spec_widths (width : nat -> option Z) (fields : list nat)
  : option (list Z) :=
  match fields with
  | [] => Some []
  | f :: rest =>
      match width f, spec_widths width rest with
      | Some w, Some ws => Some (w :: ws)
      | _, _ => None
      end
  end.

(** The declared width of the field [f], given the widths of the types: a
    sequence field has a variable-length handle, a structure field the
    width of its structure type, another field the width of its type. *)
Definition spec_fieldWidth (typeWidth : nat -> option Z) (h : heap) (f : nat)
  : option Z :=
  match h !! f with
  | Some fn =>
      match subsort fn with
      | NC_SEQ => Some sizeof_nc_vlen_t
      | fieldkind =>
          match basetype fn with
          | Some bt =>
              match h !! bt with
              | Some btn =>
                  if Bool.eqb (nc_type_eqb fieldkind NC_STRUCT)
                       (is_struct_type btn)
                  then typeWidth bt else None
              | None => None
              end
          | None => None
          end
      end
  | None => None
  end.

(** The declared width of the type [t], given the widths of the types it
    is made of. *)
Definition spec_typeWidth_step (typeWidth : nat -> option Z) (h : heap)
    (t : nat) : option Z :=
  match h !! t with
  | Some n =>
      match sort n with
      | NCD4_TYPE =>
          match subsort n with
          | NC_STRUCT =>
              match spec_widths (spec_fieldWidth typeWidth h) (vars n) with
              | Some ws => Some (sumZ ws)
              | None => None
              end
          | NC_SEQ => Some sizeof_nc_vlen_t
          | NC_OPAQUE =>
              if opaque_size n =? 0 then Some sizeof_nc_vlen_t
              else if (0 <? opaque_size n) && (opaque_size n <? 2 ^ 64)
                   then Some (opaque_size n) else None
          | NC_ENUM =>
              match basetype n with
              | Some bt =>
                  match h !! bt with
                  | Some btn =>
                      if is_struct_type btn then None else typeWidth bt
                  | None => None
                  end
              | None => None
              end
          | kind => Some (NCD4_typesize (nc_code kind))
          end
      | _ => None
      end
  | None => None
  end.

Fixpoint spec_typeWidth (fuel : nat) (h : heap) (t : nat) : option Z :=
  match fuel with
  | O => None
  | S k => spec_typeWidth_step (spec_typeWidth k h) h t
  end.

(** The declared widths of the fields of the composite type [cmpd]. *)
Definition spec_fieldWidths (fuel : nat) (h : heap) (cmpd : NCD4node)
  : option (list Z) :=
  spec_widths (spec_fieldWidth (spec_typeWidth fuel h) h) (vars cmpd).

(** Every field is a variable node that belongs to the one node listing
    it, once. *)
Definition owned (h : heap) : Prop :=
  forall t c, h !! t = Some c ->
    NoDup (vars c) /\
    forall i f, vars c !! i = Some f ->
      exists fn, h !! f = Some fn /\ sort fn = NCD4_VAR /\ container fn = Some t.

(** The atomic type nodes carry their kind as store id, as the fix-up of
    [NCD4_metabuild] leaves them. *)
Definition fixed_up (h : heap) : Prop :=
  forall t n, h !! t = Some n -> sort n = NCD4_TYPE ->
    nc_code (subsort n) <= NC_MAX_ATOMIC_TYPE -> meta_id n = nc_code (subsort n).

(** Executable checks of [owned] and [fixed_up]. *)
Definition ownedb (h : heap) : bool :=
  forallb
    (fun tc : nat * NCD4node =>
       bool_decide (NoDup (vars (snd tc))) &&
       forallb
         (fun f =>
            match h !! f with
            | Some fn =>
                ISVAR (sort fn) &&
                match container fn with
                | Some t' => Nat.eqb t' (fst tc)
                | None => false
                end
            | None => false
            end)
         (vars (snd tc)))
    (map_to_list h).

Definition fixed_upb (h : heap) : bool :=
  forallb
    (fun tc : nat * NCD4node =>
       implb (ISTYPE (sort (snd tc)) &&
              (nc_code (subsort (snd tc)) <=? NC_MAX_ATOMIC_TYPE))
             (meta_id (snd tc) =? nc_code (subsort (snd tc))))
    (map_to_list h).

(** ** Invariant of the offset computation

    Relative to the graph [h0] the computation starts from:
    [declared_offset h0 x v] says that [v] is the value the specification
    gives to the slot [meta.offset] of [x], the sum of the declared widths
    of the fields before it when [x] is a field, the sum of the declared
    widths of its fields when [x] is a type. *)
Definition declared_offset (h0 : heap) (x : nat) (v : Z) : Prop :=
  exists n, h0 !! x = Some n /\
    ((sort n = NCD4_VAR /\
      exists t c i ws k,
        container n = Some t /\ h0 !! t = Some c /\ vars c !! i = Some x /\
        spec_fieldWidths k h0 c = Some ws /\ v = sumZ (take i ws))
     \/
     (sort n = NCD4_TYPE /\
      exists ws k, spec_fieldWidths k h0 n = Some ws /\ v = sumZ ws)).

(** [h'] comes from [h] by writing declared offsets into slots. *)
Definition offsets_written (h0 h h' : heap) : Prop :=
  forall x,
    h' !! x = h !! x \/
    exists n0 v, h0 !! x = Some n0 /\ declared_offset h0 x v /\
                 h' !! x = Some (set_meta_offset v n0).

(** ** Resolved identity of a composite type; laws of a store *)

(** The name and the group node under which step 1 of
    [buildStructureType] and of [buildSequenceType] looks the type up. *)
Definition resolvedIdentity (fuel : nat) (h : heap) (type : nat)
  : outcome (string * nat) :=
  let* g := groupFor fuel h (Some type) in
  let* n := deref h type in
  match nc4_orig_name n with
  | Some orig => let* og := nonnull (nc4_orig_group n) in Ok (orig, og)
  | None => let* fqn := getFieldFQN fuel h type "_t" in Ok (fqn, g)
  end.

(** The number of type definitions among the calls [cs]. *)
Definition definitions (cs : list Call) : nat :=
  length (List.filter is_type_definition cs).

Definition defined_name (c : Call) : option (Z * string) :=
  match c with
  | nc_def_enum g _ nm | nc_def_opaque g _ nm | nc_def_vlen g nm _
  | nc_def_compound g _ (Some nm) => Some (g, nm)
  | _ => None
  end.

Section StoreLaws.

Context {Store : Type} (E : externals Store).

(** The store answers the probe for [nm] in group [g] with the id [tid]. *)
Definition type_known (s : Store) (g : Z) (nm : string) (tid : Z) : Prop :=
  fst (nc E (nc_inq_typeid g nm) s) = (NC_NOERR, tid).

(** A successful definition makes the name known under the id returned. *)
Definition store_registers : Prop :=
  forall c s tid s' g nm,
    nc E c s = (NC_NOERR, tid, s') -> defined_name c = Some (g, nm) ->
    type_known s' g nm tid.

(** No call makes the store forget or rebind a known name. *)
Definition store_keeps : Prop :=
  forall c s g nm tid,
    type_known s g nm tid -> type_known (snd (nc E c s)) g nm tid.

End StoreLaws.

(** The kinds that [downConvert] narrows by keeping the low bytes of the
    parsed 64-bit image, with their width in bits, and the [sscanf]
    directive [convertString] uses for each numeric kind. *)
Definition exact_bits (t : nc_type) : option Z :=
  match t with
  | NC_BYTE | NC_UBYTE => Some 8
  | NC_SHORT | NC_USHORT => Some 16
  | NC_INT | NC_UINT => Some 32
  | NC_INT64 | NC_UINT64 | NC_DOUBLE => Some 64
  | _ => None
  end.

Definition scan_of (C : libc) (t : nc_type) : string -> option Z :=
  match t with
  | NC_BYTE | NC_SHORT | NC_INT | NC_INT64 => scan_lld C
  | NC_UBYTE | NC_USHORT | NC_UINT | NC_UINT64 => scan_llu C
  | NC_FLOAT | NC_DOUBLE => scan_lf C
  | _ => fun _ => None
  end.

(** What a caller observes of a builder: the status it returns and the
    calls issued to the store. *)
Definition observe {Store : Type} (r : outcome (Z * BState Store))
  : outcome (Z * list Call) :=
  let* (ret, st) := r in Ok (ret, st_trace st).

(** The state a builder leaves, [default] when it does not return. *)
Definition final_state {Store : Type} (default : BState Store)
    (r : outcome (Z * BState Store)) : BState Store :=
  match r with
  | Ok (_, st) => st
  | _ => default
  end.

(** The store id recorded in the build-result slot of a node. *)
Definition id_of (h : heap) (p : nat) : option Z :=
  match h !! p with
  | Some n => Some (meta_id n)
  | None => None
  end.

Definition offset_of (h : heap) (p : nat) : option Z :=
  match h !! p with
  | Some n => Some (meta_offset n)
  | None => None
  end.

(** ** Notions used to state further properties of the builders *)

(** [container_chain h p ns g]: walking the container back-references
    from [p] visits the nodes [ns], none of them a group, and then reaches
    the group [g]. *)
Fixpoint container_chain (h : heap) (p : nat) (ns : list nat) (g : nat)
  : bool :=
  match ns with
  | [] =>
      Nat.eqb p g &&
      match h !! p with
      | Some n => ISGROUP (sort n)
      | None => false
      end
  | q :: rest =>
      Nat.eqb q p &&
      match h !! p with
      | Some n =>
          negb (ISGROUP (sort n)) &&
          match container n with
          | Some c => container_chain h c rest g
          | None => false
          end
      | None => false
      end
  end.

(** The name of the node at [p]. *)
Definition node_name (h : heap) (p : nat) : string :=
  match h !! p with
  | Some n => name n
  | None => ""
  end.

(** The characters of a string. *)
Definition chars (s : string) : list ascii := list_ascii_of_string s.

(** [named_constant h econsts s u]: the first constant of [econsts] whose
    name is [s] has the 64-bit image [u] as its value. *)
Definition named_constant (h : heap) (econsts : list nat) (s : string) (u : Z)
  : Prop :=
  exists pre ec post ecn,
    econsts = (pre ++ ec :: post)%list /\
    Forall (fun q => exists qn, h !! q = Some qn /\ name qn <> s) pre /\
    h !! ec = Some ecn /\ name ecn = s /\
    en_ecvalue ecn = ABits u /\ 0 <= u < 2 ^ 64.

(** The call puts an attribute whose name is outside the reserved
    prefix. *)
Definition is_user_attribute_put (c : Call) : bool :=
  match c with
  | nc_put_att _ _ nm _ _ _ => negb (String.prefix UCARTAGNC4 nm)
  | _ => false
  end.

(** A node without the content of its build-result slot, and two graphs
    that differ in build-result slots only. *)
Definition erase_slots (n : NCD4node) : NCD4node :=
  set_meta_id 0 (set_meta_cmpdid 0 (set_meta_offset 0 n)).

Definition same_structure (h h' : heap) : Prop :=
  forall x, option_map erase_slots (h' !! x) = option_map erase_slots (h !! x).

(** The numeric kinds: those [convertString] parses with [sscanf]. *)
Definition numeric_kind (t : nc_type) : bool :=
  match t with
  | NC_BYTE | NC_SHORT | NC_INT | NC_INT64
  | NC_UBYTE | NC_USHORT | NC_UINT | NC_UINT64
  | NC_FLOAT | NC_DOUBLE => true
  | _ => false
  end.

(** Two graphs that differ in the offset slots only. *)
Definition same_but_offsets (h h' : heap) : Prop :=
  forall x,
    option_map (set_meta_offset 0) (h' !! x)
    = option_map (set_meta_offset 0) (h !! x).

(** What the fix-up of [NCD4_metabuild] does to one node. *)
Definition fixup_node (n : NCD4node) : NCD4node :=
  if ISTYPE (sort n) && (nc_code (subsort n) <=? NC_MAX_ATOMIC_TYPE)
  then set_meta_id (nc_code (subsort n)) n
  else n.

(** Every node of the graph is in the list [nodes]. *)
Definition all_listed (h : heap) (nodes : list nat) : bool :=
  forallb (fun tc : nat * NCD4node => existsb (Nat.eqb (fst tc)) nodes)
    (map_to_list h).

(** A builder that, when it returns, leaves a graph that differs from
    [h0] in build-result slots only. *)
Definition keeps_structure {Store : Type} (h0 : heap)
    (c : outcome (Z * BState Store)) : Prop :=
  forall ret st', c = Ok (ret, st') -> same_structure h0 (st_heap st').

(** The name of the attribute a call puts. *)
Definition put_name (c : Call) : option string :=
  match c with
  | nc_put_att _ _ nm _ _ _ => Some nm
  | _ => None
  end.

(** The names outside the reserved prefix among [names], in order. *)
Definition user_names (names : list string) : list string :=
  List.filter (fun nm => negb (String.prefix UCARTAGNC4 nm)) names.

(** Two graphs that differ in the dimension lists of their nodes only. *)
Definition same_but_dims (h h' : heap) : Prop :=
  forall x,
    option_map (Fixture.with_dims []) (h' !! x)
    = option_map (Fixture.with_dims []) (h !! x).

(** The offset at which a call inserts a field into a compound type. *)
Definition insert_offset (c : Call) : option Z :=
  match c with
  | nc_insert_compound _ _ _ off _ => Some off
  | nc_insert_array_compound _ _ _ off _ _ _ => Some off
  | _ => None
  end.

(** The calls of the three passes of [build]: groups; dimensions and
    types; variables with their attributes. *)
Definition is_group_call (c : Call) : bool :=
  match c with
  | nc_def_grp _ _ => true
  | _ => false
  end.

Definition is_variable_call (c : Call) : bool :=
  match c with
  | nc_def_var _ _ _ _ _ | nc_put_att _ _ _ _ _ _ => true
  | _ => false
  end.

Definition is_schema_call (c : Call) : bool :=
  negb (is_group_call c) && negb (is_variable_call c).

(** [st] comes from [st0] by issuing calls that satisfy [P], and a builder
    that issues such calls only. *)
Definition extends_by {Store : Type} (P : Call -> bool)
    (st0 st : BState Store) : Prop :=
  exists cs, st_trace st = (st_trace st0 ++ cs)%list /\ forallb P cs = true.

Definition issues_only {Store : Type} (P : Call -> bool) (st0 : BState Store)
    (c : outcome (Z * BState Store)) : Prop :=
  forall ret st', c = Ok (ret, st') -> extends_by P st0 st'.

(** ** Example schemas *)

Module Examples.

Import Fixture.

(** A 32-bit float type and a signed byte type. *)
Definition float_schema : heap :=
  {[ 1%nat := atomic NC_FLOAT "Float32" None;
     2%nat := atomic NC_BYTE "Int8" None ]}.

(** An enumeration over a signed byte with RED = 0 and GREEN = 1. *)
Definition colors_schema : heap :=
  {[ 1%nat := atomic NC_BYTE "Int8" None;
     2%nat := with_en_econsts [3; 4]%nat
                (with_basetype (Some 1%nat)
                   (node NCD4_TYPE NC_ENUM "colors" None));
     3%nat := with_en_ecvalue (ABits 0)
                (node NCD4_ECONST NC_NAT "RED" (Some 2%nat));
     4%nat := with_en_ecvalue (ABits 1)
                (node NCD4_ECONST NC_NAT "GREEN" (Some 2%nat)) ]}.

(** A root group with two top-level 32-bit integer variables a and b. *)
Definition two_vars_schema : heap :=
  {[ 0%nat := with_vars [1; 2]%nat
                (with_group_isdataset true (node NCD4_GROUP NC_NAT "" None));
     1%nat := with_basetype (Some 3%nat)
                (node NCD4_VAR NC_INT "a" (Some 0%nat));
     2%nat := with_basetype (Some 3%nat)
                (node NCD4_VAR NC_INT "b" (Some 0%nat));
     3%nat := atomic NC_INT "Int32" (Some 0%nat) ]}.

Definition two_vars_meta : NCD4meta :=
  {| ncid := 0; root := 0%nat; allnodes := [0; 3; 1; 2]%nat |}.

(** The store refuses the definition of variable a. *)
Definition refuse_a (c : Call) : Z :=
  match c with
  | nc_def_var _ "a" _ _ _ => NC_ENAMEINUSE
  | _ => 0
  end.

(** A root group with two opaque types of size 0. *)
Definition two_opaques_schema : heap :=
  {[ 0%nat := with_group_isdataset true (node NCD4_GROUP NC_NAT "" None);
     1%nat := node NCD4_TYPE NC_OPAQUE "blob1" (Some 0%nat);
     2%nat := node NCD4_TYPE NC_OPAQUE "blob2" (Some 0%nat) ]}.

Definition two_opaques_meta : NCD4meta :=
  {| ncid := 7; root := 0%nat; allnodes := [0; 1; 2]%nat |}.

(** A sequence type with the single field x and the direct-vlen marker. *)
Definition direct_vlen_schema : heap :=
  {[ 0%nat := set_meta_id 7
                (with_group_isdataset true (node NCD4_GROUP NC_NAT "" None));
     1%nat := with_basetype (Some 2%nat)
                (node NCD4_VAR NC_SEQ "s" (Some 0%nat));
     2%nat := with_attributes [5%nat]
                (with_vars [3%nat] (node NCD4_TYPE NC_SEQ "s" (Some 0%nat)));
     3%nat := with_basetype (Some 4%nat)
                (node NCD4_VAR NC_INT "x" (Some 2%nat));
     4%nat := atomic NC_INT "Int32" (Some 0%nat);
     5%nat := with_attr_values ["1"]
                (node NCD4_ATTR NC_NAT UCARTAGVLEN (Some 2%nat)) ]}.

(** A structure variable p.q whose type has the fields x and y (32-bit
    integers) and a sequence variable rows with the fields u and v. *)
Definition composite_schema : heap :=
  {[ 0%nat := set_meta_id 7
                (with_vars [1; 6]%nat
                   (with_group_isdataset true (node NCD4_GROUP NC_NAT "" None)));
     1%nat := with_basetype (Some 2%nat)
                (node NCD4_VAR NC_STRUCT "p.q" (Some 0%nat));
     2%nat := with_vars [3; 4]%nat
                (node NCD4_TYPE NC_STRUCT "p.q" (Some 0%nat));
     3%nat := with_basetype (Some 5%nat)
                (node NCD4_VAR NC_INT "x" (Some 2%nat));
     4%nat := with_basetype (Some 5%nat)
                (node NCD4_VAR NC_INT "y" (Some 2%nat));
     5%nat := atomic NC_INT "Int32" (Some 0%nat);
     6%nat := with_basetype (Some 7%nat)
                (node NCD4_VAR NC_SEQ "rows" (Some 0%nat));
     7%nat := with_vars [8; 9]%nat
                (node NCD4_TYPE NC_SEQ "rows" (Some 0%nat));
     8%nat := with_basetype (Some 5%nat)
                (node NCD4_VAR NC_INT "u" (Some 7%nat));
     9%nat := with_basetype (Some 5%nat)
                (node NCD4_VAR NC_INT "v" (Some 7%nat)) ]}.

(** A variable v with the maps A and B, in this order. *)
Definition maps_schema : heap :=
  {[ 0%nat := set_meta_id 7
                (with_vars [1; 2; 3]%nat
                   (with_group_isdataset true (node NCD4_GROUP NC_NAT "" None)));
     1%nat := set_meta_id 12
                (with_maps [2; 3]%nat
                   (with_basetype (Some 4%nat)
                      (node NCD4_VAR NC_INT "v" (Some 0%nat))));
     2%nat := with_basetype (Some 4%nat)
                (node NCD4_VAR NC_INT "A" (Some 0%nat));
     3%nat := with_basetype (Some 4%nat)
                (node NCD4_VAR NC_INT "B" (Some 0%nat));
     4%nat := atomic NC_INT "Int32" (Some 0%nat) ]}.

(** A structure type outer with the fields a (signed byte), inner (a
    structure with a 32-bit integer x and a 64-bit float y), rows (a
    sequence) and d (64-bit float). *)
Definition layout_schema : heap :=
  <[ 0%nat := with_group_isdataset true (node NCD4_GROUP NC_NAT "" None) ]>
  {[ 1%nat := atomic NC_INT "Int32" (Some 0%nat);
     2%nat := atomic NC_DOUBLE "Float64" (Some 0%nat);
     3%nat := atomic NC_BYTE "Int8" (Some 0%nat);
     10%nat := with_vars [11; 12; 13; 14]%nat
                 (node NCD4_TYPE NC_STRUCT "outer" (Some 0%nat));
     11%nat := with_basetype (Some 3%nat)
                 (node NCD4_VAR NC_BYTE "a" (Some 10%nat));
     12%nat := with_basetype (Some 20%nat)
                 (node NCD4_VAR NC_STRUCT "inner" (Some 10%nat));
     13%nat := with_basetype (Some 30%nat)
                 (node NCD4_VAR NC_SEQ "rows" (Some 10%nat));
     14%nat := with_basetype (Some 2%nat)
                 (node NCD4_VAR NC_DOUBLE "d" (Some 10%nat));
     20%nat := with_vars [21; 22]%nat
                 (node NCD4_TYPE NC_STRUCT "inner" (Some 12%nat));
     21%nat := with_basetype (Some 1%nat)
                 (node NCD4_VAR NC_INT "x" (Some 20%nat));
     22%nat := with_basetype (Some 2%nat)
                 (node NCD4_VAR NC_DOUBLE "y" (Some 20%nat));
     30%nat := with_vars [31%nat]
                 (node NCD4_TYPE NC_SEQ "rows" (Some 13%nat));
     31%nat := with_basetype (Some 1%nat)
                 (node NCD4_VAR NC_INT "r" (Some 30%nat)) ]}.

Definition outer_type : NCD4node :=
  with_vars [11; 12; 13; 14]%nat
    (node NCD4_TYPE NC_STRUCT "outer" (Some 0%nat)).

(** The composite schema with a second sequence type node whose alternate
    identity is the name and group of the sequence type rows. *)
Definition rows_alias : NCD4node :=
  with_nc4_orig_group (Some 0%nat)
    (with_nc4_orig_name (Some "rows_t")
       (node NCD4_TYPE NC_SEQ "alias" (Some 0%nat))).

Definition rows_type : NCD4node :=
  with_vars [8; 9]%nat (node NCD4_TYPE NC_SEQ "rows" (Some 0%nat)).

Definition root_group : NCD4node :=
  set_meta_id 7
    (with_vars [1; 6]%nat
       (with_group_isdataset true (node NCD4_GROUP NC_NAT "" None))).

Definition revisit_schema : heap := <[ 10%nat := rows_alias ]> composite_schema.

Definition revisit_meta : NCD4meta :=
  {| ncid := 7; root := 0%nat; allnodes := [0; 5; 7; 10]%nat |}.

Definition revisit_start : BState RefStore.state :=
  RefStore.start revisit_schema.

(** The state after the first visit of the sequence type rows. *)
Definition revisit_after : BState RefStore.state :=
  final_state revisit_start
    (build_switch (RefStore.ext RefStore.no_failure) 4 revisit_meta 7
       revisit_start).

(** Scenario A: a root group with the dimension time of size 10 and the
    64-bit float variable temp over it, with the text attribute units. *)
Definition scenario_A_schema : heap :=
  {[ 0%nat := with_dims [1%nat]
                (with_vars [2%nat]
                   (with_group_isdataset true
                      (node NCD4_GROUP NC_NAT "" None)));
     1%nat := with_dim_size 10 (node NCD4_DIM NC_NAT "time" (Some 0%nat));
     2%nat := with_attributes [5%nat]
                (with_dims [1%nat]
                   (with_basetype (Some 3%nat)
                      (node NCD4_VAR NC_DOUBLE "temp" (Some 0%nat))));
     3%nat := node NCD4_TYPE NC_DOUBLE "Float64" (Some 0%nat);
     4%nat := node NCD4_TYPE NC_STRING "String" (Some 0%nat);
     5%nat := with_attr_values ["seconds"]
                (with_basetype (Some 4%nat)
                   (node NCD4_ATTR NC_NAT "units" (Some 2%nat))) ]}.

Definition scenario_A_meta : NCD4meta :=
  {| ncid := 0; root := 0%nat; allnodes := [0; 3; 4; 1; 2; 5]%nat |}.

(** A subgroup inner of the root group with a fixed-size opaque type. *)
Definition subgroup_schema : heap :=
  {[ 0%nat := with_groups [1%nat]
                (with_group_isdataset true (node NCD4_GROUP NC_NAT "" None));
     1%nat := node NCD4_GROUP NC_NAT "inner" (Some 0%nat);
     2%nat := with_opaque_size 16
                (node NCD4_TYPE NC_OPAQUE "digest" (Some 1%nat)) ]}.

Definition subgroup_meta : NCD4meta :=
  {| ncid := 0; root := 0%nat; allnodes := [0; 1; 2]%nat |}.

(** A graph as the parser leaves it: no build-result slot is set.  A root
    group, the atomic type Int32, a variable of this type and an
    enumeration over it. *)
Definition raw_schema : heap :=
  {[ 0%nat := with_vars [2%nat]
                (with_group_isdataset true (node NCD4_GROUP NC_NAT "" None));
     1%nat := node NCD4_TYPE NC_INT "Int32" (Some 0%nat);
     2%nat := with_basetype (Some 1%nat)
                (node NCD4_VAR NC_INT "v" (Some 0%nat));
     3%nat := with_en_econsts [4%nat]
                (with_basetype (Some 1%nat)
                   (node NCD4_TYPE NC_ENUM "flag" (Some 0%nat)));
     4%nat := with_en_ecvalue (ABits 1)
                (node NCD4_ECONST NC_NAT "ON" (Some 3%nat)) ]}.

Definition raw_meta : NCD4meta :=
  {| ncid := 0; root := 0%nat; allnodes := [0; 1; 3; 4; 2]%nat |}.

(** The store refuses the definition of the enumeration flag. *)
Definition refuse_flag (c : Call) : Z :=
  match c with
  | nc_def_enum _ _ "flag" => NC_ENAMEINUSE
  | _ => 0
  end.

(** The raw schema after the fix-up, with the root bound to the store
    id 7. *)
Definition fixed_schema : heap :=
  write_meta_id 1 (nc_code NC_INT) (write_meta_id 0 7 raw_schema).

(** A variable v with a reserved attribute and the attributes units and
    scale. *)
Definition tagged_schema : heap :=
  {[ 0%nat := set_meta_id 7
                (with_vars [1%nat]
                   (with_group_isdataset true (node NCD4_GROUP NC_NAT "" None)));
     1%nat := set_meta_id 12
                (with_attributes [3; 4; 5]%nat
                   (with_basetype (Some 2%nat)
                      (node NCD4_VAR NC_INT "v" (Some 0%nat))));
     2%nat := atomic NC_INT "Int32" (Some 0%nat);
     3%nat := with_attr_values ["/x"]
                (with_basetype (Some 6%nat)
                   (node NCD4_ATTR NC_NAT "_edu.ucar.orig" (Some 1%nat)));
     4%nat := with_attr_values ["m"]
                (with_basetype (Some 6%nat)
                   (node NCD4_ATTR NC_NAT "units" (Some 1%nat)));
     5%nat := with_attr_values ["2"]
                (with_basetype (Some 2%nat)
                   (node NCD4_ATTR NC_NAT "scale" (Some 1%nat)));
     6%nat := atomic NC_STRING "String" (Some 0%nat) ]}.

(** A variable v with the attributes units, scale (whose value is no
    number) and title. *)
Definition malformed_schema : heap :=
  {[ 0%nat := set_meta_id 7
                (with_vars [1%nat]
                   (with_group_isdataset true (node NCD4_GROUP NC_NAT "" None)));
     1%nat := set_meta_id 12
                (with_attributes [3; 4; 5]%nat
                   (with_basetype (Some 2%nat)
                      (node NCD4_VAR NC_INT "v" (Some 0%nat))));
     2%nat := atomic NC_INT "Int32" (Some 0%nat);
     3%nat := with_attr_values ["m"]
                (with_basetype (Some 6%nat)
                   (node NCD4_ATTR NC_NAT "units" (Some 1%nat)));
     4%nat := with_attr_values ["two"]
                (with_basetype (Some 2%nat)
                   (node NCD4_ATTR NC_NAT "scale" (Some 1%nat)));
     5%nat := with_attr_values ["depth"]
                (with_basetype (Some 6%nat)
                   (node NCD4_ATTR NC_NAT "title" (Some 1%nat)));
     6%nat := atomic NC_STRING "String" (Some 0%nat) ]}.

(** The layout schema with the field a declared as an array of 10 by 20
    elements. *)
Definition array_layout_schema : heap :=
  <[ 40%nat := with_dim_size 10 (node NCD4_DIM NC_NAT "n" (Some 0%nat)) ]>
  (<[ 41%nat := with_dim_size 20 (node NCD4_DIM NC_NAT "m" (Some 0%nat)) ]>
   (<[ 11%nat := with_dims [40; 41]%nat
                   (with_basetype (Some 3%nat)
                      (node NCD4_VAR NC_BYTE "a" (Some 10%nat))) ]>
    layout_schema)).

End Examples.

(** * Properties *)

(** ** Attribute Value Encoder *)

(** C1 (the code departs from the claim).  For a 32-bit float attribute
    with the value 1.5, [sscanf] reads the double 1.5 and its narrowing to
    32 bits is 0x3FC00000, stored as the bytes 00 00 C0 3F.
    [compileAttrValues] returns the bytes 02 00 C0 3F instead:
    [convertString] has already narrowed the value, and the second
    [downConvert] of [compileAttrValues] reads the union as a double
    again, with the float image in its low four bytes. *)
Lemma compileAttrValues_float_twice_narrowed :
  scan_lf RefScan.C "1.5" = Some 0x3FF8000000000000 /\
  le_bytes 4 (float_of_double 0x3FF8000000000000) = [0; 0; 192; 63] /\
  compileAttrValues RefScan.C Examples.float_schema (Some 1%nat) ["1.5"]
  = Ok (NC_NOERR, Some [MByte 2; MByte 0; MByte 192; MByte 63]).
Proof. repeat split; vm_compute; reflexivity. Qed.

(** C3 (the code departs from the claim).  With the constants RED = 0 and
    GREEN = 1, the name GREEN is encoded as the byte 1 and BLUE fails, but
    the number 1 fails as well, with NC_EINVAL: the search by value
    compares the addresses of two arrays and never matches. *)
Lemma compileAttrValues_enum_number_rejected :
  compileAttrValues RefScan.C Examples.colors_schema (Some 2%nat) ["GREEN"]
  = Ok (NC_NOERR, Some [MByte 1]) /\
  compileAttrValues RefScan.C Examples.colors_schema (Some 2%nat) ["1"]
  = Ok (NC_EINVAL, None) /\
  compileAttrValues RefScan.C Examples.colors_schema (Some 2%nat) ["BLUE"]
  = Ok (NC_ERANGE, None).
Proof. repeat split; vm_compute; reflexivity. Qed.

(** *** The kinds narrowed by truncation round-trip

    For the integer kinds and the 64-bit float, the second [downConvert]
    changes nothing: the buffer holds, per value, the low bytes of the
    parsed 64-bit image. *)

Lemma store_low_eq (w u v : Z) :
  0 <= w -> store_low w u v = 2 ^ w * (u / 2 ^ w) + v mod 2 ^ w.
Proof.
  intros Hw. unfold store_low, wrap.
  rewrite Z.shiftl_mul_pow2, Z.shiftr_div_pow2 by lia.
  rewrite <- Z.add_nocarry_lor.
  - lia.
  - apply Z.bits_inj'. intros i Hi. rewrite Z.land_spec, Z.bits_0.
    destruct (Z.lt_ge_cases i w) as [Hlt | Hge].
    + rewrite Z.mul_pow2_bits_low by lia. reflexivity.
    + rewrite (Z.mod_pow2_bits_high v w i) by lia. apply andb_false_r.
Qed.

Lemma store_low_mod (w u v : Z) :
  0 <= w -> store_low w u v mod 2 ^ w = v mod 2 ^ w.
Proof.
  intros Hw. rewrite store_low_eq by lia.
  rewrite Z.add_comm, Z.mul_comm, Z.mod_add by lia.
  apply Z.mod_mod. lia.
Qed.

Lemma store_low_bound (w u v : Z) :
  0 <= w <= 64 -> 0 <= u < 2 ^ 64 -> 0 <= store_low w u v < 2 ^ 64.
Proof.
  intros Hw Hu. rewrite store_low_eq by lia.
  assert (H64 : 2 ^ 64 = 2 ^ w * 2 ^ (64 - w)).
  { rewrite <- Z.pow_add_r by lia. f_equal. lia. }
  assert (0 < 2 ^ w) by (apply Z.pow_pos_nonneg; lia).
  pose proof (Z.mod_pos_bound v (2 ^ w) ltac:(lia)).
  assert (0 <= u / 2 ^ w) by (apply Z.div_pos; lia).
  assert (u / 2 ^ w < 2 ^ (64 - w)).
  { apply Z.div_lt_upper_bound; lia. }
  rewrite H64. nia.
Qed.

Lemma to_signed_mod (w u : Z) :
  0 <= w <= 64 -> to_signed 64 u mod 2 ^ w = u mod 2 ^ w.
Proof.
  intros Hw. unfold to_signed, wrap.
  assert (H64 : 2 ^ 64 = 2 ^ w * 2 ^ (64 - w)).
  { rewrite <- Z.pow_add_r by lia. f_equal. lia. }
  assert (Hmm : (u mod 2 ^ 64) mod 2 ^ w = u mod 2 ^ w).
  { rewrite H64. rewrite Z.rem_mul_r by lia.
    rewrite (Z.mul_comm (2 ^ w)), Z.mod_add by lia. apply Z.mod_mod. lia. }
  destruct (u mod 2 ^ 64 <? 2 ^ (64 - 1)); [exact Hmm|].
  rewrite <- Hmm. rewrite H64 at 2.
  replace (u mod 2 ^ 64 - 2 ^ w * 2 ^ (64 - w))
    with (u mod 2 ^ 64 + (- 2 ^ (64 - w)) * 2 ^ w) by lia.
  apply Z.mod_add. lia.
Qed.

Lemma le_bytes_mod (n : nat) (u : Z) :
  le_bytes n (u mod 2 ^ (8 * Z.of_nat n)) = le_bytes n u.
Proof.
  revert u. induction n as [|n IH]; intros u; [reflexivity|].
  cbn [le_bytes].
  replace (8 * Z.of_nat (S n)) with (8 + 8 * Z.of_nat n) by lia.
  rewrite Z.pow_add_r by lia. change (2 ^ 8) with 256.
  f_equal.
  - rewrite Z.rem_mul_r by lia.
    rewrite (Z.mul_comm 256), Z.mod_add by lia. apply Z.mod_mod. lia.
  - rewrite <- (IH (u / 256)). f_equal.
    rewrite Z.rem_mul_r by lia.
    rewrite (Z.mul_comm 256), Z.div_add by lia.
    rewrite (Z.div_small (u mod 256)) by (apply Z.mod_pos_bound; lia).
    rewrite Z.add_0_l. reflexivity.
Qed.

Lemma downConvert_exact (n : NCD4node) (w u : Z) :
  exact_bits (subsort n) = Some w -> 0 <= u < 2 ^ 64 ->
  exists u', downConvert (ABits u) n = Ok (NC_NOERR, ABits u') /\
             u' mod 2 ^ w = u mod 2 ^ w /\ 0 <= u' < 2 ^ 64.
Proof.
  intros Hw Hu. unfold downConvert.
  destruct (subsort n); simpl in Hw; inversion Hw; subst w; clear Hw;
    eexists; (split; [reflexivity|]);
    try (split; [rewrite store_low_mod by lia; try apply to_signed_mod; lia
                | apply store_low_bound; lia]);
    try (split; [reflexivity | exact Hu]).
  unfold wrap. rewrite Z.mod_mod by lia.
  split; [apply (to_signed_mod 64); lia | apply Z.mod_pos_bound; lia].
Qed.

Lemma encode_exact_value (C : libc) (n : NCD4node) (w u : Z) (s : string)
    (converter : ATOMICS) (memory : list mcell) :
  exact_bits (subsort n) = Some w -> meta_id n = nc_code (subsort n) ->
  scan_of C (subsort n) s = Some u -> 0 <= u < 2 ^ 64 ->
  exists c1 u2,
    convertString C converter n s = Ok (NC_NOERR, c1) /\
    downConvert c1 n = Ok (NC_NOERR, ABits u2) /\
    copyAtomic (ABits u2) (meta_id n) (NCD4_typesize (meta_id n)) memory
    = Ok (memory ++ map MByte (le_bytes (Z.to_nat (w / 8)) u))%list.
Proof.
  intros Hw Hid Hscan Hu.
  destruct (downConvert_exact n w u Hw Hu) as (u1 & Hd1 & Hm1 & Hb1).
  destruct (downConvert_exact n w u1 Hw Hb1) as (u2 & Hd2 & Hm2 & Hb2).
  exists (ABits u1), u2.
  assert (Hbytes : le_bytes (Z.to_nat (w / 8)) u2 = le_bytes (Z.to_nat (w / 8)) u).
  { assert (Hw8 : 8 * Z.of_nat (Z.to_nat (w / 8)) = w).
    { destruct (subsort n); simpl in Hw; inversion Hw; reflexivity. }
    rewrite <- (le_bytes_mod _ u2), <- (le_bytes_mod _ u), Hw8. congruence. }
  split; [|split; [exact Hd2|]].
  - unfold convertString.
    destruct (subsort n) eqn:Hkind; simpl in Hw; try discriminate Hw;
      simpl in Hscan; rewrite Hscan; exact Hd1.
  - unfold copyAtomic. rewrite Hid, <- Hbytes.
    destruct (subsort n) eqn:Hkind; simpl in Hw; inversion Hw; subst w;
      reflexivity.
Qed.

(** X1.  For the integer kinds and the 64-bit float, encoding N values that
    [sscanf] accepts gives N packed elements of the width of the Atomic
    Type Table, element [i] holding the low bytes of the i-th parsed
    image: the parsed value narrowed by truncation. *)
Lemma compileAttrValues_exact_kinds (C : libc) (h : heap) (bt : nat)
    (n : NCD4node) (w : Z) (values : list string) (us : list Z) :
  h !! bt = Some n -> sort n = NCD4_TYPE ->
  exact_bits (subsort n) = Some w -> meta_id n = nc_code (subsort n) ->
  Forall2 (fun s u => scan_of C (subsort n) s = Some u /\ 0 <= u < 2 ^ 64)
    values us ->
  compileAttrValues C h (Some bt) values
  = Ok (NC_NOERR,
        Some (flat_map (fun u => map MByte (le_bytes (Z.to_nat (w / 8)) u)) us)).
Proof.
  intros Hbt Hsort Hw Hid Hvalues.
  unfold compileAttrValues. cbn [deref_opt]. unfold deref. rewrite Hbt.
  cbn [obind].
  assert (Hne : nc_type_eqb (subsort n) NC_ENUM = false)
    by (destruct (subsort n); simpl in Hw; try discriminate Hw; reflexivity).
  rewrite Hne. cbn [obind]. rewrite Hsort. cbn [ISTYPE negb orb].
  assert (Hat : (meta_id n >? NC_MAX_ATOMIC_TYPE) = false)
    by (rewrite Hid; destruct (subsort n); simpl in Hw; try discriminate Hw;
        reflexivity).
  rewrite Hat.
  change (Some (flat_map (fun u => map MByte (le_bytes (Z.to_nat (w / 8)) u)) us))
    with (Some ([] ++ flat_map
                  (fun u => map MByte (le_bytes (Z.to_nat (w / 8)) u)) us)%list).
  generalize (@nil mcell) as memory. generalize AUninit as converter.
  induction Hvalues as [|s u values us [Hscan Hu] _ IH]; intros converter memory.
  - cbn [compileAttrValues_loop flat_map]. rewrite app_nil_r. reflexivity.
  - destruct (encode_exact_value C n w u s converter memory Hw Hid Hscan Hu)
      as (c1 & u2 & Hc & Hd & Hcopy).
    cbn [compileAttrValues_loop flat_map]. rewrite Hc. cbn [obind].
    change (negb (NC_NOERR =? 0)) with false. cbn [obind].
    rewrite Hd. cbn [obind]. rewrite Hcopy. cbn [obind].
    rewrite IH, <- app_assoc. reflexivity.
Qed.

(** ** The build pass and the Type Builder *)

(** C4 (the code departs from the claim).  The store refuses the
    definition of the top-level variable a.  The build pass goes on,
    defines b, and returns NC_NOERR: the second loop of [build] drops the
    status of [buildVariable]. *)
Lemma build_ignores_variable_failure :
  nc (RefStore.ext Examples.refuse_a) (nc_def_var 0 "a" 4 0 []) RefStore.init
  = (NC_ENAMEINUSE, 0, RefStore.init) /\
  observe (NCD4_metabuild (RefStore.ext Examples.refuse_a) 4
             Examples.two_vars_meta 0 (RefStore.start Examples.two_vars_schema))
  = Ok (NC_NOERR, [nc_def_var 0 "a" 4 0 []; nc_def_var 0 "b" 4 0 []]).
Proof. split; vm_compute; reflexivity. Qed.

(** C5, as stated, fails: building two opaque types of size 0 issues two
    calls of [nc_def_vlen] for the name _bytestring, not one (the
    reference store refuses the second, and the pass stops with its
    status). *)
Lemma buildOpaque_defines_bytestring_twice :
  exists cs : list Call,
    observe (NCD4_metabuild (RefStore.ext RefStore.no_failure) 4
               Examples.two_opaques_meta 7
               (RefStore.start Examples.two_opaques_schema))
    = Ok (NC_ENAMEINUSE, cs) /\
    cs = [nc_def_vlen 7 "_bytestring" (nc_code NC_UBYTE);
          nc_def_vlen 7 "_bytestring" (nc_code NC_UBYTE)] /\
    definitions cs = 2%nat.
Proof. eexists. repeat split; vm_compute; reflexivity. Qed.

(** C6 (the code departs from the claim).  For a sequence type with the
    marker and exactly one field, [buildSequenceType] reads
    [field1->basetype] while [field1] is still [NULL]: no wrapper type is
    defined. *)
Lemma buildSequenceType_direct_vlen_undefined :
  NCD4_findAttr Examples.direct_vlen_schema [5%nat] UCARTAGVLEN
  = Ok (Some 5%nat) /\
  buildSequenceType (RefStore.ext RefStore.no_failure) 4 2
    (RefStore.start Examples.direct_vlen_schema)
  = Undefined.
Proof. split; vm_compute; reflexivity. Qed.

(** C7 (the code departs from the claim).  The structure type p.q of the
    root group gets a name in which two backslashes stand where the dot
    was: [backslashEscape] writes a backslash twice and drops the
    character itself; the characters / and @ fare the same. *)
Lemma getFieldFQN_replaces_by_backslashes :
  backslashEscape "p.q" = "p\\q" /\
  backslashEscape "a/b@c" = "a\\b\\c" /\
  getFieldFQN 4 Examples.composite_schema 2 "_t" = Ok "p\\q_t".
Proof. repeat split; vm_compute; reflexivity. Qed.

(** C8, as stated, fails for a sequence type: its first visit issues two
    type definitions, not one, the inner compound type and the wrapper. *)
Lemma buildSequenceType_first_visit_two_definitions :
  exists cs : list Call,
    observe (buildSequenceType (RefStore.ext RefStore.no_failure) 4 7
               (RefStore.start Examples.composite_schema))
    = Ok (NC_NOERR, cs) /\
    cs = [nc_inq_typeid 7 "rows_t";
          nc_def_compound 7 8 (Some "rows_cmpd_t");
          nc_insert_compound 7 100 "u" 0 4;
          nc_insert_compound 7 100 "v" 4 4;
          nc_def_vlen 7 "rows_t" 100] /\
    definitions cs = 2%nat.
Proof. eexists. repeat split; vm_compute; reflexivity. Qed.

(** ** The scenarios of the specification, run on the reference store *)

(** Scenario A: the dimension is defined, the variable is defined with rank
    1 over the id of the dimension, and one text attribute of count 1 is
    put on it. *)
Example scenario_A :
  observe (NCD4_metabuild (RefStore.ext RefStore.no_failure) 4
             Examples.scenario_A_meta 7
             (RefStore.start Examples.scenario_A_schema))
  = Ok (NC_NOERR,
        [nc_def_dim 7 "time" 10;
         nc_def_var 7 "temp" (nc_code NC_DOUBLE) 1 [100];
         nc_put_att 7 101 "units" (nc_code NC_STRING) 1 [MPtr "seconds"]]).
Proof. vm_compute; reflexivity. Qed.

(** Scenario B: a structure type with two 32-bit integer fields has the
    offsets 0 and 4 and the size 8; one compound type is defined, with two
    field insertions. *)
Example scenario_B :
  observe (buildStructureType (RefStore.ext RefStore.no_failure) 4 2
             (RefStore.start Examples.composite_schema))
  = Ok (NC_NOERR,
        [nc_inq_typeid 7 "p\\q_t";
         nc_def_compound 7 8 (Some "p\\q_t");
         nc_insert_compound 7 100 "x" 0 (nc_code NC_INT);
         nc_insert_compound 7 100 "y" 4 (nc_code NC_INT)]).
Proof. vm_compute; reflexivity. Qed.

(** The forms of [%lf] input the reference scanner reads: decimal,
    hexadecimal, infinity and NaN; a hexadecimal prefix without digits and
    a broken [infinity] convert nothing. *)
Example RefScan_lf_forms :
  map RefScan.lf ["1.5"; "0x10"; "0x1.8p1"; "inf"; "-Infinity"; "nan";
                  "0x"; "infini"; "warm"]
  = [Some 4609434218613702656; Some 4625196817309499392;
     Some 4613937818241073152; Some 9218868437227405312;
     Some 18442240474082181120; Some 9221120237041090560;
     None; None; None].
Proof. vm_compute; reflexivity. Qed.

(** Groups are defined parent first, and a fixed-size opaque type in its
    own group. *)
Example subgroup_opaque :
  observe (NCD4_metabuild (RefStore.ext RefStore.no_failure) 4
             Examples.subgroup_meta 7
             (RefStore.start Examples.subgroup_schema))
  = Ok (NC_NOERR, [nc_def_grp 7 "inner"; nc_def_opaque 100 16 "digest"]).
Proof. vm_compute; reflexivity. Qed.

(** ** Offset Calculator: enumerations *)

(** C10.  The size of an enumeration type is the byte width of its
    underlying atomic type. *)
Theorem computeTypeSize_enum :
  forall (fuel : nat) (h : heap) (t bt : nat) (n btn : NCD4node),
    h !! t = Some n -> sort n = NCD4_TYPE -> subsort n = NC_ENUM ->
    basetype n = Some bt -> h !! bt = Some btn -> sort btn = NCD4_TYPE ->
    nc_code (subsort btn) <= NC_MAX_ATOMIC_TYPE ->
    meta_id btn = nc_code (subsort btn) ->
    computeTypeSize (S (S fuel)) h (Some t)
    = Ok (NCD4_typesize (nc_code (subsort btn))).
Proof.
  intros fuel h t bt n btn Ht Hsort Hsub Hbase Hbt Hbsort Hatomic Hid.
  simpl. unfold deref. rewrite Ht. simpl. rewrite Hsort, Hsub, Hbase.
  simpl. unfold deref. rewrite Hbt. simpl. rewrite Hbsort, Hid.
  destruct (subsort btn); try reflexivity;
    unfold NC_MAX_ATOMIC_TYPE in Hatomic; simpl in Hatomic; lia.
Qed.

Lemma computeTypeSize_enum_witness :
  computeTypeSize 2 Examples.colors_schema (Some 2%nat) = Ok 1.
Proof.
  apply (computeTypeSize_enum 0 Examples.colors_schema 2 1
           (Fixture.with_en_econsts [3; 4]%nat
              (Fixture.with_basetype (Some 1%nat)
                 (Fixture.node NCD4_TYPE NC_ENUM "colors" None)))
           (Fixture.atomic NC_BYTE "Int8" None));
    try reflexivity; vm_compute; discriminate.
Defined.

(** ** Builders that issue a single call *)

Section SingleCall.

Context {Store : Type} (E : externals Store).

Lemma freeStringMemory_loop_advances (cells : list mcell) :
  forall (count offset : nat),
    (offset + count <= length cells)%nat ->
    freeStringMemory_loop cells count offset = Ok (offset + count)%nat.
Proof.
  induction count as [|k IH]; intros offset Hle.
  - cbn [freeStringMemory_loop]. rewrite Nat.add_0_r. reflexivity.
  - cbn [freeStringMemory_loop].
    destruct (cells !! offset) as [c|] eqn:Hc.
    + rewrite IH by lia. f_equal. lia.
    + apply lookup_ge_None in Hc. lia.
Qed.

Lemma freeStringMemory_advanced (cells : list mcell) :
  (1 <= length cells)%nat ->
  freeStringMemory (Some cells) (length cells) = Undefined.
Proof.
  intros Hlen. unfold freeStringMemory.
  rewrite (freeStringMemory_loop_advances cells (length cells) 0) by lia.
  cbn [obind Nat.add]. unfold free_at.
  destruct (length cells); [lia | reflexivity].
Qed.

(** C9 (the code departs from the claim).  For a variable with at least
    one map, [buildMaps] fills [memory] with the fully qualified names of
    the maps in declared order and calls [nc_put_att] with it, as the
    claim has it.  It then calls [freeStringMemory], whose loop advances
    [mem] by one element per name and which then calls [free] on the
    advanced pointer, [memory + count].  That is no pointer [malloc]
    returned: the behaviour is undefined, and [buildMaps] does not return
    the status of the call, for any store and any number [k >= 1] of
    maps. *)
Theorem buildMaps_frees_advanced_pointer :
  forall (fuel : nat) (st : BState Store) (var g : nat) (vn gn : NCD4node),
    (1 <= fuel)%nat ->
    st_heap st !! var = Some vn ->
    (1 <= length (maps vn))%nat ->
    groupFor fuel (st_heap st) (Some var) = Ok g ->
    st_heap st !! g = Some gn ->
    let memory :=
      map (fun m => MPtr (NCD4_makeFQN E (st_heap st) m)) (maps vn) in
    freeStringMemory_loop memory (length (maps vn)) 0
    = Ok (length (maps vn)) /\
    freeStringMemory (Some memory) (length (maps vn)) = Undefined /\
    buildMaps E fuel var st = Undefined.
Proof.
  intros fuel st var g vn gn Hfuel Hvar Hmaps Hgroup Hg memory.
  assert (Hlen : length memory = length (maps vn))
    by (subst memory; apply length_map).
  assert (Hfree : freeStringMemory (Some memory) (length (maps vn)) = Undefined)
    by (rewrite <- Hlen; apply freeStringMemory_advanced; lia).
  split; [|split; [exact Hfree|]].
  - rewrite (freeStringMemory_loop_advances memory (length (maps vn)) 0)
      by lia. reflexivity.
  - destruct fuel as [|k]; [lia|].
    unfold buildMaps. cbn [buildMaps_loop]. cbv zeta.
    unfold deref at 1. rewrite Hvar. cbn [obind].
    destruct (Nat.ltb_spec 0 (length (maps vn))) as [_ | Hle]; [|lia].
    rewrite Hgroup. cbn [obind]. unfold deref at 1. rewrite Hg. cbn [obind].
    fold memory. rewrite Hfree. reflexivity.
Qed.

(** C5, amended.  Building an opaque type of size 0 issues exactly one
    call, [nc_def_vlen] in the root group for the reserved name
    _bytestring with element type unsigned byte; its status is returned
    and, on success, the id it gives is recorded for the node. *)
Theorem buildOpaque_zero_size :
  forall (fuel : nat) (builder : NCD4meta) (st : BState Store) (op g : nat)
         (opn rootn : NCD4node),
    st_heap st !! op = Some opn ->
    opaque_size opn = 0 ->
    groupFor fuel (st_heap st) (Some op) = Ok g ->
    st_heap st !! root builder = Some rootn ->
    let def := nc_def_vlen (meta_id rootn) "_bytestring" (nc_code NC_UBYTE) in
    let answer := fst (nc E def (st_store st)) in
    exists st' : BState Store,
      buildOpaque E fuel builder op st = Ok (fst answer, st') /\
      st_trace st' = (st_trace st ++ [def])%list /\
      (fst answer = NC_NOERR -> id_of (st_heap st') op = Some (snd answer)).
Proof.
  intros fuel builder st op g opn rootn Hop Hsize Hgroup Hroot def answer.
  unfold buildOpaque. rewrite Hgroup. cbn [obind].
  unfold deref at 1. rewrite Hop. cbn [obind]. rewrite Hsize. cbn [Z.gtb Z.compare].
  unfold deref at 1. rewrite Hroot. cbn [obind]. fold def.
  unfold define, issue. subst answer.
  destruct (nc E def (st_store st)) as [[ret out] s'] eqn:Hnc. cbn [fst snd].
  destruct (Z.eqb_spec ret 0) as [-> | Hne].
  - eexists. split; [reflexivity|]. split; [reflexivity|].
    intros _. unfold id_of, with_heap, write_meta_id. cbn [st_heap].
    rewrite lookup_alter_eq, Hop. reflexivity.
  - unfold NCCHECK. destruct (Z.eqb_spec ret 0) as [-> | _]; [congruence|].
    eexists. split; [reflexivity|]. split; [reflexivity|].
    intros Hz. unfold NC_NOERR in Hz. congruence.
Qed.

End SingleCall.

Lemma buildMaps_frees_advanced_pointer_witness :
  freeStringMemory_loop [MPtr "/A"; MPtr "/B"] 2 0 = Ok 2%nat /\
  freeStringMemory (Some [MPtr "/A"; MPtr "/B"]) 2 = Undefined /\
  buildMaps (RefStore.ext RefStore.no_failure) 2 1
    (RefStore.start Examples.maps_schema) = Undefined.
Proof.
  apply (buildMaps_frees_advanced_pointer (RefStore.ext RefStore.no_failure) 2
           (RefStore.start Examples.maps_schema) 1 0
           (set_meta_id 12
              (Fixture.with_maps [2; 3]%nat
                 (Fixture.with_basetype (Some 4%nat)
                    (Fixture.node NCD4_VAR NC_INT "v" (Some 0%nat)))))
           (set_meta_id 7
              (Fixture.with_vars [1; 2; 3]%nat
                 (Fixture.with_group_isdataset true
                    (Fixture.node NCD4_GROUP NC_NAT "" None)))));
    solve [ reflexivity | vm_compute; lia ].
Defined.

Lemma buildOpaque_zero_size_witness :
  exists st' : BState RefStore.state,
    buildOpaque (RefStore.ext RefStore.no_failure) 2
      Examples.two_opaques_meta 1
      (RefStore.start (write_meta_id 0 7 Examples.two_opaques_schema))
    = Ok (NC_NOERR, st') /\
    st_trace st' = [nc_def_vlen 7 "_bytestring" (nc_code NC_UBYTE)] /\
    (NC_NOERR = NC_NOERR -> id_of (st_heap st') 1 = Some 100).
Proof.
  apply (buildOpaque_zero_size (RefStore.ext RefStore.no_failure) 2
           Examples.two_opaques_meta
           (RefStore.start (write_meta_id 0 7 Examples.two_opaques_schema))
           1 0
           (Fixture.node NCD4_TYPE NC_OPAQUE "blob1" (Some 0%nat))
           (set_meta_id 7
              (Fixture.with_group_isdataset true
                 (Fixture.node NCD4_GROUP NC_NAT "" None))));
    reflexivity.
Defined.

(** ** Offset Calculator: declared widths and prefix sums *)

Lemma spec_widths_mono (F G : nat -> option Z) (fields : list nat) :
  (forall f w, F f = Some w -> G f = Some w) ->
  forall ws, spec_widths F fields = Some ws -> spec_widths G fields = Some ws.
Proof.
  intros HFG. induction fields as [|f rest IH]; intros ws Hws; simpl in *.
  - exact Hws.
  - destruct (F f) as [w|] eqn:HF; [|discriminate].
    destruct (spec_widths F rest) as [ws'|] eqn:Hrest; [|discriminate].
    rewrite (HFG _ _ HF), (IH _ eq_refl). exact Hws.
Qed.

Lemma spec_widths_lookup (F : nat -> option Z) (fields : list nat) :
  forall ws, spec_widths F fields = Some ws ->
    length ws = length fields /\
    forall i f, fields !! i = Some f ->
      exists w, ws !! i = Some w /\ F f = Some w.
Proof.
  induction fields as [|f rest IH]; intros ws Hws; simpl in *.
  - inversion Hws; subst. split; [reflexivity|]. intros i g Hg. discriminate.
  - destruct (F f) as [w|] eqn:HF; [|discriminate].
    destruct (spec_widths F rest) as [ws'|] eqn:Hrest; [|discriminate].
    inversion Hws; subst. destruct (IH _ eq_refl) as [Hlen Hall].
    split; [simpl; congruence|].
    intros [|i] g Hg; simpl in *.
    + inversion Hg; subst. exists w. split; [reflexivity | exact HF].
    + exact (Hall i g Hg).
Qed.

Lemma spec_fieldWidth_mono (F G : nat -> option Z) (h : heap) :
  (forall t w, F t = Some w -> G t = Some w) ->
  forall f w, spec_fieldWidth F h f = Some w -> spec_fieldWidth G h f = Some w.
Proof.
  intros HFG f w. unfold spec_fieldWidth.
  destruct (h !! f) as [fn|]; [|discriminate].
  destruct (subsort fn); try (intros H; exact H);
    (destruct (basetype fn) as [bt|]; [|discriminate];
     destruct (h !! bt) as [btn|]; [|discriminate];
     match goal with |- context [if ?b then _ else _] => destruct b end;
     [apply HFG | discriminate]).
Qed.

Lemma spec_typeWidth_step_mono (F G : nat -> option Z) (h : heap) :
  (forall t w, F t = Some w -> G t = Some w) ->
  forall t w, spec_typeWidth_step F h t = Some w ->
    spec_typeWidth_step G h t = Some w.
Proof.
  intros HFG t w. unfold spec_typeWidth_step.
  destruct (h !! t) as [n|]; [|discriminate].
  destruct (sort n); try discriminate.
  destruct (subsort n); try (intros H; exact H).
  - destruct (basetype n) as [bt|]; [|discriminate].
    destruct (h !! bt) as [btn|]; [|discriminate].
    destruct (is_struct_type btn); [discriminate|]. apply HFG.
  - destruct (spec_widths (spec_fieldWidth F h) (vars n)) as [ws|] eqn:Hws;
      [|discriminate].
    intros Hw.
    rewrite (spec_widths_mono _ _ _ (spec_fieldWidth_mono F G h HFG) _ Hws).
    exact Hw.
Qed.

Lemma spec_typeWidth_S (h : heap) :
  forall k t w, spec_typeWidth k h t = Some w ->
    spec_typeWidth (S k) h t = Some w.
Proof.
  induction k as [|k IH]; intros t w Hw; [discriminate|].
  change (spec_typeWidth_step (spec_typeWidth (S k) h) h t = Some w).
  apply (spec_typeWidth_step_mono (spec_typeWidth k h)); [exact IH | exact Hw].
Qed.

Lemma spec_typeWidth_le (h : heap) (k k' : nat) (t : nat) (w : Z) :
  (k <= k')%nat -> spec_typeWidth k h t = Some w ->
  spec_typeWidth k' h t = Some w.
Proof.
  induction 1 as [|k' _ IH]; intros Hw; [exact Hw|].
  apply spec_typeWidth_S, IH, Hw.
Qed.

Lemma spec_fieldWidths_le (h : heap) (k k' : nat) (c : NCD4node) (ws : list Z) :
  (k <= k')%nat -> spec_fieldWidths k h c = Some ws ->
  spec_fieldWidths k' h c = Some ws.
Proof.
  intros Hle. unfold spec_fieldWidths. apply spec_widths_mono.
  apply spec_fieldWidth_mono. intros t w. apply spec_typeWidth_le, Hle.
Qed.

(** The declared widths do not depend on the fuel that suffices. *)
Lemma spec_fieldWidths_unique (h : heap) (k k' : nat) (c : NCD4node)
    (ws ws' : list Z) :
  spec_fieldWidths k h c = Some ws -> spec_fieldWidths k' h c = Some ws' ->
  ws = ws'.
Proof.
  intros H H'.
  apply (spec_fieldWidths_le h k (Nat.max k k')) in H; [|lia].
  apply (spec_fieldWidths_le h k' (Nat.max k k')) in H'; [|lia].
  congruence.
Qed.

Lemma NCD4_typesize_nonneg (tid : Z) : 0 <= NCD4_typesize tid.
Proof.
  unfold NCD4_typesize. destruct (nc_of_code tid) as [[]|]; lia.
Qed.

Lemma spec_widths_nonneg (F : nat -> option Z) (fields : list nat) :
  (forall f w, F f = Some w -> 0 <= w) ->
  forall ws, spec_widths F fields = Some ws -> Forall (fun w => 0 <= w) ws.
Proof.
  intros HF. induction fields as [|f rest IH]; intros ws Hws; simpl in *.
  - inversion Hws. constructor.
  - destruct (F f) as [w|] eqn:Hw; [|discriminate].
    destruct (spec_widths F rest) as [ws'|]; [|discriminate].
    inversion Hws; subst. constructor; [exact (HF _ _ Hw) | exact (IH _ eq_refl)].
Qed.

Lemma sumZ_nonneg (ws : list Z) : Forall (fun w => 0 <= w) ws -> 0 <= sumZ ws.
Proof. induction 1; simpl; lia. Qed.

Lemma spec_fieldWidth_nonneg (F : nat -> option Z) (h : heap) :
  (forall t w, F t = Some w -> 0 <= w) ->
  forall f w, spec_fieldWidth F h f = Some w -> 0 <= w.
Proof.
  intros HF f w. unfold spec_fieldWidth.
  destruct (h !! f) as [fn|]; [|discriminate].
  destruct (subsort fn);
    try (intros H; inversion H; unfold sizeof_nc_vlen_t; lia);
    (destruct (basetype fn) as [bt|]; [|discriminate];
     destruct (h !! bt) as [btn|]; [|discriminate];
     match goal with |- context [if ?b then _ else _] => destruct b end;
     [apply HF | discriminate]).
Qed.

Lemma spec_typeWidth_nonneg (h : heap) :
  forall k t w, spec_typeWidth k h t = Some w -> 0 <= w.
Proof.
  induction k as [|k IH]; intros t w Hw; [discriminate|].
  cbn [spec_typeWidth] in Hw. unfold spec_typeWidth_step in Hw.
  destruct (h !! t) as [n|]; [|discriminate].
  destruct (sort n); try discriminate.
  destruct (subsort n);
    try (inversion Hw; subst; first [apply NCD4_typesize_nonneg
                                    | unfold sizeof_nc_vlen_t; lia]).
  - destruct (opaque_size n =? 0); [inversion Hw; unfold sizeof_nc_vlen_t; lia|].
    destruct (Z.ltb_spec 0 (opaque_size n)); simpl in Hw; [|discriminate].
    destruct (opaque_size n <? 2 ^ 64); inversion Hw; subst; lia.
  - destruct (basetype n) as [bt|]; [|discriminate].
    destruct (h !! bt) as [btn|]; [|discriminate].
    destruct (is_struct_type btn); [discriminate|].
    apply (IH _ _ Hw).
  - destruct (spec_widths (spec_fieldWidth (spec_typeWidth k h) h) (vars n))
      as [ws|] eqn:Hws; [|discriminate].
    inversion Hw; subst. apply sumZ_nonneg.
    apply (spec_widths_nonneg _ _ (spec_fieldWidth_nonneg _ h IH) _ Hws).
Qed.

Lemma spec_fieldWidths_nonneg (h : heap) (k : nat) (c : NCD4node) (ws : list Z) :
  spec_fieldWidths k h c = Some ws -> Forall (fun w => 0 <= w) ws.
Proof.
  apply spec_widths_nonneg, spec_fieldWidth_nonneg, spec_typeWidth_nonneg.
Qed.

Lemma sumZ_app (l1 l2 : list Z) : sumZ (l1 ++ l2) = sumZ l1 + sumZ l2.
Proof. induction l1 as [|x l1 IH]; simpl; [reflexivity | rewrite IH; lia]. Qed.

Lemma sumZ_take_le (ws : list Z) (i : nat) :
  Forall (fun w => 0 <= w) ws -> 0 <= sumZ (take i ws) <= sumZ ws.
Proof.
  intros Hnn. rewrite <- (take_drop i ws) at 3. rewrite sumZ_app.
  pose proof (sumZ_nonneg (take i ws) (Forall_take _ _ _ Hnn)).
  pose proof (sumZ_nonneg (drop i ws) (Forall_drop _ _ _ Hnn)). lia.
Qed.

Lemma sumZ_take_S (ws : list Z) (i : nat) (w : Z) :
  ws !! i = Some w -> sumZ (take (S i) ws) = sumZ (take i ws) + w.
Proof.
  intros Hw. rewrite (take_S_r _ _ _ Hw), sumZ_app. simpl. lia.
Qed.

(** The declared width of a sequence field is the size of a
    variable-length handle, whatever its element type. *)
Lemma spec_fieldWidth_sequence (F : nat -> option Z) (h : heap) (f : nat)
    (fn : NCD4node) :
  h !! f = Some fn -> subsort fn = NC_SEQ ->
  spec_fieldWidth F h f = Some sizeof_nc_vlen_t.
Proof.
  intros Hf Hkind. unfold spec_fieldWidth. rewrite Hf, Hkind. reflexivity.
Qed.

(** The declared width of a structure field is the sum of the declared
    widths of the fields of its structure type. *)
Lemma spec_fieldWidth_structure (k : nat) (h : heap) (f bt : nat)
    (fn btn : NCD4node) :
  h !! f = Some fn -> subsort fn = NC_STRUCT -> basetype fn = Some bt ->
  h !! bt = Some btn -> is_struct_type btn = true ->
  spec_fieldWidth (spec_typeWidth (S k) h) h f
  = option_map sumZ (spec_fieldWidths k h btn).
Proof.
  intros Hf Hkind Hbase Hbt Hstruct. unfold spec_fieldWidth.
  rewrite Hf, Hkind, Hbase, Hbt, Hstruct. cbn [nc_type_eqb Bool.eqb].
  change (Bool.eqb (nc_type_eqb NC_STRUCT NC_STRUCT) true) with true.
  cbn [spec_typeWidth]. unfold spec_typeWidth_step. rewrite Hbt.
  unfold is_struct_type in Hstruct. apply andb_prop in Hstruct as [Hs Hk].
  destruct (sort btn); try discriminate.
  destruct (subsort btn); try discriminate.
  unfold spec_fieldWidths.
  destruct (spec_widths (spec_fieldWidth (spec_typeWidth k h) h) (vars btn));
    reflexivity.
Qed.

Section OffsetLayout.

Variable h0 : heap.
Hypothesis Howned : owned h0.
Hypothesis Hfixed : fixed_up h0.

Lemma set_meta_offset_twice (v v' : Z) (n : NCD4node) :
  set_meta_offset v (set_meta_offset v' n) = set_meta_offset v n.
Proof. reflexivity. Qed.

Lemma same_shape (v : Z) (n n0 : NCD4node) :
  n = n0 \/ (exists v', n = set_meta_offset v' n0) ->
  set_meta_offset v n = set_meta_offset v n0 /\
  sort n = sort n0 /\ subsort n = subsort n0 /\ basetype n = basetype n0 /\
  vars n = vars n0 /\ opaque_size n = opaque_size n0 /\ meta_id n = meta_id n0.
Proof.
  intros [-> | [v' ->]]; repeat split; reflexivity.
Qed.

Lemma offsets_written_refl (h : heap) : offsets_written h0 h h.
Proof. intros x. left. reflexivity. Qed.

Lemma offsets_written_trans (h1 h2 h3 : heap) :
  offsets_written h0 h1 h2 -> offsets_written h0 h2 h3 ->
  offsets_written h0 h1 h3.
Proof.
  intros H12 H23 x. destruct (H23 x) as [Heq | Hw].
  - rewrite Heq. apply H12.
  - right. exact Hw.
Qed.

(** Under the invariant a node read from the current graph is the node of
    [h0], up to its offset slot. *)
Lemma invariant_read (h : heap) (x : nat) (n0 : NCD4node) :
  offsets_written h0 h0 h -> h0 !! x = Some n0 ->
  exists n, h !! x = Some n /\ (n = n0 \/ exists v', n = set_meta_offset v' n0).
Proof.
  intros Hinv Hx. destruct (Hinv x) as [Heq | (n1 & v & H1 & _ & Hh)].
  - exists n0. split; [congruence | left; reflexivity].
  - exists (set_meta_offset v n1). split; [exact Hh|].
    right. exists v. congruence.
Qed.

Lemma declared_offset_unique (x : nat) (v v' : Z) :
  declared_offset h0 x v -> declared_offset h0 x v' -> v = v'.
Proof using Howned.
  intros (n & Hn & Hv) (n' & Hn' & Hv').
  assert (n' = n) by congruence. subst n'.
  destruct Hv as [(Hs & t & c & i & ws & k & Hc & Ht & Hi & Hws & ->)
                 | (Hs & ws & k & Hws & ->)];
  destruct Hv' as [(Hs' & t' & c' & i' & ws' & k' & Hc' & Ht' & Hi' & Hws' & ->)
                  | (Hs' & ws' & k' & Hws' & ->)]; try congruence.
  - assert (t' = t) by congruence. subst t'.
    assert (c' = c) by congruence. subst c'.
    destruct (Howned _ _ Ht) as [Hnd _].
    assert (i' = i) by (eapply NoDup_lookup; eauto). subst i'.
    rewrite (spec_fieldWidths_unique _ _ _ _ _ _ Hws Hws'). reflexivity.
  - rewrite (spec_fieldWidths_unique _ _ _ _ _ _ Hws Hws'). reflexivity.
Qed.

(** Writing a declared offset keeps the invariant. *)
Lemma offsets_written_write (h : heap) (x : nat) (v : Z) :
  offsets_written h0 h0 h -> declared_offset h0 x v ->
  offsets_written h0 h (write_meta_offset x v h).
Proof.
  intros Hinv Hgood y. unfold write_meta_offset.
  destruct (decide (x = y)) as [<- | Hne].
  - right. destruct Hgood as (n & Hn & Hv).
    exists n, v. split; [exact Hn|]. split; [exists n; auto|].
    rewrite lookup_alter_eq.
    destruct (invariant_read h x n Hinv Hn) as (n1 & -> & Hshape).
    simpl. f_equal. apply (same_shape v n1 n Hshape).
  - left. apply lookup_alter_ne. exact Hne.
Qed.

(** A slot that holds its declared offset keeps it. *)
Lemma offsets_written_stable (h h' : heap) (x : nat) (v : Z) (n0 : NCD4node) :
  offsets_written h0 h h' -> h0 !! x = Some n0 -> declared_offset h0 x v ->
  h !! x = Some (set_meta_offset v n0) ->
  h' !! x = Some (set_meta_offset v n0).
Proof using Howned.
  intros Hupd H0 Hgood Hx. destruct (Hupd x) as [Heq | (n1 & v' & H1 & Hg' & Hh)].
  - congruence.
  - assert (n1 = n0) by congruence. subst n1.
    rewrite (declared_offset_unique x v v' Hgood Hg'). exact Hh.
Qed.

(** [computeTypeSize] gives the declared width of a type that is no
    structure. *)
Lemma computeTypeSize_declared (h : heap) :
  offsets_written h0 h0 h ->
  forall k t n0 w,
    h0 !! t = Some n0 -> is_struct_type n0 = false ->
    spec_typeWidth k h0 t = Some w ->
    computeTypeSize k h (Some t) = Ok w.
Proof using Hfixed.
  intros Hinv. induction k as [|k IH]; intros t n0 w Ht Hns Hw; [discriminate|].
  cbn [spec_typeWidth] in Hw. unfold spec_typeWidth_step in Hw. rewrite Ht in Hw.
  cbn [computeTypeSize deref_opt]. unfold deref.
  destruct (invariant_read h t n0 Hinv Ht) as (n & -> & Hshape).
  destruct (same_shape 0 n n0 Hshape) as (_ & Hsort & Hsub & Hbase & _ & Hop & Hid).
  cbn [obind]. rewrite Hsort, Hsub, Hbase, Hop, Hid.
  pose proof (Hfixed t n0 Ht) as Hfix.
  unfold is_struct_type in Hns.
  destruct (sort n0); try discriminate.
  specialize (Hfix eq_refl).
  destruct (subsort n0) eqn:Hkind; simpl in Hns; try discriminate;
    try (rewrite Hfix by (vm_compute; discriminate); inversion Hw; reflexivity).
  - inversion Hw; reflexivity.
  - destruct (opaque_size n0 =? 0); [inversion Hw; reflexivity|].
    destruct (Z.ltb_spec 0 (opaque_size n0)); simpl in Hw; [|discriminate].
    destruct (Z.ltb_spec (opaque_size n0) (2 ^ 64)); inversion Hw; subst.
    unfold wrap. rewrite Z.mod_small by lia. reflexivity.
  - destruct (basetype n0) as [bt|]; [|discriminate].
    destruct (h0 !! bt) as [btn|] eqn:Hbt; [|discriminate].
    destruct (is_struct_type btn) eqn:Hbs; [discriminate|].
    exact (IH bt btn w Hbt Hbs Hw).
Qed.

(** The loop of [computeOffsets] over the fields of [c], from field [i]
    on: every field gets the sum of the declared widths before it, and the
    final offset is the sum of all declared widths. *)
Lemma computeOffsets_loop_declared (k : nat) (t : nat) (c : NCD4node)
    (ws : list Z) :
  (forall h bt btn w,
     offsets_written h0 h0 h -> h0 !! bt = Some btn ->
     is_struct_type btn = true -> spec_typeWidth k h0 bt = Some w ->
     w < 2 ^ 64 ->
     exists h', computeOffsets k bt h = Ok h' /\ offsets_written h0 h h' /\
                h' !! bt = Some (set_meta_offset w btn)) ->
  h0 !! t = Some c ->
  spec_fieldWidths k h0 c = Some ws ->
  sumZ ws < 2 ^ 64 ->
  forall fields i h,
    offsets_written h0 h0 h ->
    drop i (vars c) = fields ->
    exists h',
      computeOffsets_loop (computeOffsets k) (computeTypeSize k) fields
        (sumZ (take i ws)) h = Ok (sumZ ws, h') /\
      offsets_written h0 h h' /\
      forall j f, (i <= j)%nat -> vars c !! j = Some f ->
        exists fn0, h0 !! f = Some fn0 /\
          h' !! f = Some (set_meta_offset (sumZ (take j ws)) fn0).
Proof using Howned Hfixed.
  intros Hnested Ht Hws Hbound.
  pose proof (spec_fieldWidths_nonneg _ _ _ _ Hws) as Hnn.
  destruct (spec_widths_lookup _ _ _ Hws) as [Hlen Hfield].
  destruct (Howned _ _ Ht) as [Hnd Hown].
  induction fields as [|f rest IH]; intros i h Hinv Hdrop.
  - exists h. cbn [computeOffsets_loop].
    assert (length (vars c) <= i)%nat as Hi.
    { destruct (Nat.le_gt_cases (length (vars c)) i) as [Hle | Hgt]; [exact Hle|].
      apply (f_equal length) in Hdrop. rewrite length_drop in Hdrop.
      simpl in Hdrop. lia. }
    rewrite take_ge by lia.
    split; [reflexivity|]. split; [apply offsets_written_refl|].
    intros j g Hij Hg. apply lookup_lt_Some in Hg. lia.
  - assert (Hi : vars c !! i = Some f).
    { rewrite <- (Nat.add_0_r i), <- lookup_drop, Hdrop. reflexivity. }
    assert (Hrest : drop (S i) (vars c) = rest).
    { rewrite <- (Nat.add_1_r i), <- drop_drop, Hdrop. reflexivity. }
    destruct (Hfield i f Hi) as (w & Hwi & Hfw).
    destruct (Hown i f Hi) as (fn0 & Hf0 & Hfsort & Hfcont).
    pose proof (sumZ_take_S ws i w Hwi) as Hnext.
    pose proof (sumZ_take_le ws i Hnn) as Hlo.
    pose proof (sumZ_take_le ws (S i) Hnn) as Hhi.
    assert (Hgood : declared_offset h0 f (sumZ (take i ws))).
    { exists fn0. split; [exact Hf0|]. left. split; [exact Hfsort|].
      exists t, c, i, ws, k. auto. }
    assert (Htail : forall h1, offsets_written h0 h h1 ->
      exists h',
        computeOffsets_loop (computeOffsets k) (computeTypeSize k) rest
          (wrap 64 (sumZ (take i ws) + w))
          (write_meta_offset f (sumZ (take i ws)) h1) = Ok (sumZ ws, h') /\
        offsets_written h0 h h' /\
        forall j g, (i <= j)%nat -> vars c !! j = Some g ->
          exists gn0, h0 !! g = Some gn0 /\
            h' !! g = Some (set_meta_offset (sumZ (take j ws)) gn0)).
    { intros h1 Hh1.
      pose proof (offsets_written_trans _ _ _ Hinv Hh1) as Hinv1.
      pose proof (offsets_written_write h1 f _ Hinv1 Hgood) as Hw2.
      pose proof (offsets_written_trans _ _ _ Hinv1 Hw2) as Hinv2.
      unfold wrap. rewrite Z.mod_small by lia. rewrite <- Hnext.
      destruct (IH (S i) _ Hinv2 Hrest) as (h' & Hrun & Hupd & Hlater).
      exists h'. split; [exact Hrun|].
      split; [exact (offsets_written_trans _ _ _ Hh1
                       (offsets_written_trans _ _ _ Hw2 Hupd))|].
      intros j g Hij Hg.
      destruct (Nat.eq_dec j i) as [-> | Hne].
      - assert (g = f) by congruence. subst g.
        exists fn0. split; [exact Hf0|].
        apply (offsets_written_stable _ _ _ _ _ Hupd Hf0 Hgood).
        unfold write_meta_offset. rewrite lookup_alter_eq.
        destruct (invariant_read h1 f fn0 Hinv1 Hf0) as (fn1 & -> & Hshape1).
        simpl. f_equal. apply (same_shape _ fn1 fn0 Hshape1).
      - apply Hlater; [lia | exact Hg]. }
    destruct (invariant_read h f fn0 Hinv Hf0) as (fn & Hfn & Hshape).
    destruct (same_shape 0 fn fn0 Hshape) as (_ & _ & Hsub & Hbase & _).
    cbn [computeOffsets_loop]. unfold deref at 1. rewrite Hfn. cbn [obind].
    rewrite Hsub, Hbase.
    unfold spec_fieldWidth in Hfw. rewrite Hf0 in Hfw.
    destruct (subsort fn0) eqn:Hkind.
    14: { inversion Hfw; subst w. cbn [obind].
          exact (Htail h (offsets_written_refl h)). }
    16: { destruct (basetype fn0) as [bt|]; [|discriminate].
          destruct (h0 !! bt) as [btn|] eqn:Hbt; [|discriminate].
          destruct (is_struct_type btn) eqn:Hbs; simpl in Hfw; [|discriminate].
          assert (w < 2 ^ 64) as Hwb by lia.
          destruct (Hnested h bt btn w Hinv Hbt Hbs Hfw Hwb)
            as (h1 & Hrun1 & Hupd1 & Hbt1).
          cbn [nonnull obind]. rewrite Hrun1. cbn [obind].
          destruct k as [|k']; [discriminate|].
          cbn [computeTypeSize deref_opt]. unfold deref at 1. rewrite Hbt1.
          cbn [obind]. unfold is_struct_type in Hbs.
          apply andb_prop in Hbs as [Hbsort Hbkind].
          change (sort (set_meta_offset w btn)) with (sort btn).
          change (subsort (set_meta_offset w btn)) with (subsort btn).
          destruct (sort btn); try discriminate.
          destruct (subsort btn); try discriminate.
          cbn [obind]. exact (Htail h1 Hupd1). }
    all: destruct (basetype fn0) as [bt|]; [|discriminate];
      destruct (h0 !! bt) as [btn|] eqn:Hbt; [|discriminate];
      destruct (is_struct_type btn) eqn:Hbs; simpl in Hfw; [discriminate|];
      rewrite (computeTypeSize_declared h Hinv k bt btn w Hbt Hbs Hfw);
      cbn [obind]; exact (Htail h (offsets_written_refl h)).
Qed.


(** [computeOffsets] on a structure type records its declared width. *)
Lemma computeOffsets_struct_declared :
  forall k h bt btn w,
    offsets_written h0 h0 h -> h0 !! bt = Some btn ->
    is_struct_type btn = true -> spec_typeWidth k h0 bt = Some w ->
    w < 2 ^ 64 ->
    exists h', computeOffsets k bt h = Ok h' /\ offsets_written h0 h h' /\
               h' !! bt = Some (set_meta_offset w btn).
Proof using Howned Hfixed.
  induction k as [|k IH]; intros h bt btn w Hinv Hbt Hbs Hw Hwb; [discriminate|].
  cbn [spec_typeWidth] in Hw. unfold spec_typeWidth_step in Hw.
  rewrite Hbt in Hw. pose proof Hbs as Hbs'. unfold is_struct_type in Hbs'.
  apply andb_prop in Hbs' as [Hbsort Hbkind].
  destruct (sort btn) eqn:Hsort; try discriminate.
  destruct (subsort btn) eqn:Hkind; try discriminate.
  destruct (spec_widths (spec_fieldWidth (spec_typeWidth k h0) h0) (vars btn))
    as [ws|] eqn:Hws; [|discriminate].
  inversion Hw; subst w.
  destruct (computeOffsets_loop_declared k bt btn ws IH Hbt Hws Hwb
              (vars btn) 0%nat h Hinv eq_refl) as (h1 & Hrun & Hupd & _).
  destruct (invariant_read h bt btn Hinv Hbt) as (n & Hn & Hshape).
  destruct (same_shape 0 n btn Hshape) as (_ & _ & _ & _ & Hvars & _).
  cbn [computeOffsets]. unfold deref at 1. rewrite Hn. cbn [obind].
  rewrite Hvars. change (sumZ (take 0 ws)) with 0 in Hrun. rewrite Hrun.
  cbn [obind].
  pose proof (offsets_written_trans _ _ _ Hinv Hupd) as Hinv1.
  assert (Hgood : declared_offset h0 bt (sumZ ws)).
  { exists btn. split; [exact Hbt|]. right. split; [exact Hsort|].
    exists ws, k. split; [exact Hws | reflexivity]. }
  eexists. split; [reflexivity|].
  split.
  - exact (offsets_written_trans _ _ _ Hupd
             (offsets_written_write h1 bt _ Hinv1 Hgood)).
  - unfold write_meta_offset. rewrite lookup_alter_eq.
    destruct (invariant_read h1 bt btn Hinv1 Hbt) as (n1 & -> & Hshape1).
    simpl. f_equal. apply (same_shape _ n1 btn Hshape1).
Qed.

(** The slots [computeOffsets] leaves, for use by the builders that
    pass them on to the store. *)
Lemma computeOffsets_slots :
  forall (fuel : nat) (cmpd : nat) (c : NCD4node) (ws : list Z),
    h0 !! cmpd = Some c -> sort c = NCD4_TYPE ->
    spec_fieldWidths fuel h0 c = Some ws ->
    sumZ ws < 2 ^ 64 ->
    exists h' : heap,
      computeOffsets (S fuel) cmpd h0 = Ok h' /\
      offset_of h' cmpd = Some (sumZ ws) /\
      forall (i : nat) (f : nat), vars c !! i = Some f ->
        offset_of h' f = Some (sumZ (take i ws)).
Proof using Howned Hfixed.
  intros k t c ws Ht Hsort Hws Hwb.
  pose proof (offsets_written_refl h0) as Hinv.
  destruct (computeOffsets_loop_declared k t c ws
              (computeOffsets_struct_declared k) Ht Hws Hwb
              (vars c) 0%nat h0 Hinv eq_refl) as (h1 & Hrun & Hupd & Hfields).
  cbn [computeOffsets]. unfold deref at 1. rewrite Ht. cbn [obind].
  change (sumZ (take 0 ws)) with 0 in Hrun. rewrite Hrun. cbn [obind].
  assert (Hgood : declared_offset h0 t (sumZ ws)).
  { exists c. split; [exact Ht|]. right. split; [exact Hsort|].
    exists ws, k. split; [exact Hws | reflexivity]. }
  pose proof (offsets_written_write h1 t _ Hupd Hgood) as Hlast.
  eexists. split; [reflexivity|]. split.
  - unfold offset_of, write_meta_offset. rewrite lookup_alter_eq.
    destruct (invariant_read h1 t c Hupd Ht) as (n1 & -> & Hshape1).
    reflexivity.
  - intros i f Hi.
    destruct (Hfields i f (Nat.le_0_l i) Hi) as (fn0 & Hf0 & Hf1).
    assert (Hgf : declared_offset h0 f (sumZ (take i ws))).
    { destruct (Howned _ _ Ht) as [_ Hown].
      destruct (Hown i f Hi) as (fn & Hfn & Hfsort & Hfcont).
      exists fn. split; [exact Hfn|]. left. split; [exact Hfsort|].
      exists t, c, i, ws, k. auto. }
    unfold offset_of.
    rewrite (offsets_written_stable _ _ _ _ _ Hlast Hf0 Hgf Hf1).
    reflexivity.
Qed.

(** C2.  In a graph where every field belongs to the one type listing it
    and the atomic types carry their kind, let [ws] be the declared widths
    of the fields of the composite type [cmpd], with a sum below 2^64.
    Then [computeOffsets] returns; it records the sum of [ws] as the size
    of [cmpd] and, for the field at position [i], the sum of the first
    [i] widths as its offset.  (By [spec_typeWidth] the declared width of a
    structure field is the sum of the declared widths of the fields of its
    structure type, and that of a sequence field is the size of a
    variable-length handle.) *)
Theorem computeOffsets_prefix_sums :
  forall (fuel : nat) (cmpd : nat) (c : NCD4node) (ws : list Z),
    h0 !! cmpd = Some c -> sort c = NCD4_TYPE ->
    spec_fieldWidths fuel h0 c = Some ws ->
    sumZ ws < 2 ^ 64 ->
    exists h' : heap,
      computeOffsets (S fuel) cmpd h0 = Ok h' /\
      offset_of h' cmpd = Some (sumZ ws) /\
      forall (i : nat) (f : nat), vars c !! i = Some f ->
        offset_of h' f = Some (sumZ (take i ws)).
Proof using Howned Hfixed.
  intros k t c ws Ht Hsort Hws Hwb.
  pose proof (offsets_written_refl h0) as Hinv.
  destruct (computeOffsets_loop_declared k t c ws
              (computeOffsets_struct_declared k) Ht Hws Hwb
              (vars c) 0%nat h0 Hinv eq_refl) as (h1 & Hrun & Hupd & Hfields).
  cbn [computeOffsets]. unfold deref at 1. rewrite Ht. cbn [obind].
  change (sumZ (take 0 ws)) with 0 in Hrun. rewrite Hrun. cbn [obind].
  assert (Hgood : declared_offset h0 t (sumZ ws)).
  { exists c. split; [exact Ht|]. right. split; [exact Hsort|].
    exists ws, k. split; [exact Hws | reflexivity]. }
  pose proof (offsets_written_write h1 t _ Hupd Hgood) as Hlast.
  eexists. split; [reflexivity|]. split.
  - unfold offset_of, write_meta_offset. rewrite lookup_alter_eq.
    destruct (invariant_read h1 t c Hupd Ht) as (n1 & -> & Hshape1).
    reflexivity.
  - intros i f Hi.
    destruct (Hfields i f (Nat.le_0_l i) Hi) as (fn0 & Hf0 & Hf1).
    assert (Hgf : declared_offset h0 f (sumZ (take i ws))).
    { destruct (Howned _ _ Ht) as [_ Hown].
      destruct (Hown i f Hi) as (fn & Hfn & Hfsort & Hfcont).
      exists fn. split; [exact Hfn|]. left. split; [exact Hfsort|].
      exists t, c, i, ws, k. auto. }
    unfold offset_of.
    rewrite (offsets_written_stable _ _ _ _ _ Hlast Hf0 Hgf Hf1).
    reflexivity.
Qed.

End OffsetLayout.

Lemma ownedb_sound (h : heap) : ownedb h = true -> owned h.
Proof.
  unfold ownedb. rewrite forallb_forall. intros Hall t c Ht.
  apply elem_of_map_to_list, list_elem_of_In in Ht.
  specialize (Hall _ Ht). simpl in Hall.
  apply andb_prop in Hall as [Hnd Hfields].
  split; [apply bool_decide_eq_true in Hnd; exact Hnd|].
  intros i f Hi. rewrite forallb_forall in Hfields.
  apply list_elem_of_lookup_2, list_elem_of_In in Hi.
  specialize (Hfields _ Hi).
  destruct (h !! f) as [fn|]; [|discriminate].
  apply andb_prop in Hfields as [Hsort Hcont].
  exists fn. split; [reflexivity|]. split.
  - destruct (sort fn); try discriminate. reflexivity.
  - destruct (container fn) as [t'|]; [|discriminate].
    apply Nat.eqb_eq in Hcont. congruence.
Qed.

Lemma fixed_upb_sound (h : heap) : fixed_upb h = true -> fixed_up h.
Proof.
  unfold fixed_upb. rewrite forallb_forall. intros Hall t n Ht Hsort Hle.
  apply elem_of_map_to_list, list_elem_of_In in Ht.
  specialize (Hall _ Ht). simpl in Hall. rewrite Hsort in Hall.
  apply Z.leb_le in Hle. rewrite Hle in Hall. simpl in Hall.
  apply Z.eqb_eq. exact Hall.
Qed.

Lemma computeOffsets_prefix_sums_witness :
  exists h' : heap,
    computeOffsets 3 10 Examples.layout_schema = Ok h' /\
    offset_of h' 10 = Some 37 /\
    forall (i : nat) (f : nat), [11; 12; 13; 14]%nat !! i = Some f ->
      offset_of h' f = Some (sumZ (take i [1; 12; 16; 8])).
Proof.
  apply (computeOffsets_prefix_sums Examples.layout_schema
           (ownedb_sound Examples.layout_schema
              ltac:(vm_compute; reflexivity))
           (fixed_upb_sound Examples.layout_schema
              ltac:(vm_compute; reflexivity))
           2 10 Examples.outer_type [1; 12; 16; 8]);
    vm_compute; solve [ reflexivity | trivial ].
Defined.

(** ** The reference store obeys the store laws *)

Lemma RefStore_lookup_def_type (g : Z) (nm : string) (s s' : RefStore.state)
    (ret tid : Z) :
  RefStore.def_type g nm s = (ret, tid, s') ->
  (ret = NC_NOERR -> RefStore.lookup (RefStore.typenames s') g nm = Some tid) /\
  (forall g0 nm0 tid0,
     RefStore.lookup (RefStore.typenames s) g0 nm0 = Some tid0 ->
     RefStore.lookup (RefStore.typenames s') g0 nm0 = Some tid0).
Proof.
  unfold RefStore.def_type.
  destruct (RefStore.lookup (RefStore.typenames s) g nm) as [old|] eqn:Hold;
    intros Heq; inversion Heq; subst; clear Heq.
  - split; [discriminate | auto].
  - split.
    + intros _. simpl. rewrite Z.eqb_refl, String.eqb_refl. reflexivity.
    + intros g0 nm0 tid0 H0. simpl.
      destruct (Z.eqb_spec g g0) as [-> | Hg]; simpl; [|exact H0].
      destruct (String.eqb_spec nm nm0) as [-> | Hn]; [congruence | exact H0].
Qed.

Lemma RefStore_registers : store_registers (RefStore.ext RefStore.no_failure).
Proof.
  intros c s tid s' g nm Hc Hdef. unfold type_known. simpl in *.
  unfold RefStore.nc_with in *. simpl in *.
  assert (Hl : RefStore.lookup (RefStore.typenames s') g nm = Some tid).
  { destruct c; simpl in Hdef; try discriminate;
      try (inversion Hdef; subst;
           exact (proj1 (RefStore_lookup_def_type _ _ _ _ _ _ Hc) eq_refl)).
    destruct nm0 as [nm0|]; [|discriminate]. inversion Hdef; subst.
    exact (proj1 (RefStore_lookup_def_type _ _ _ _ _ _ Hc) eq_refl). }
  rewrite Hl. reflexivity.
Qed.

Lemma RefStore_keeps : store_keeps (RefStore.ext RefStore.no_failure).
Proof.
  intros c s g nm tid. unfold type_known. simpl.
  unfold RefStore.nc_with. simpl.
  destruct (RefStore.lookup (RefStore.typenames s) g nm) as [t0|] eqn:Hl;
    simpl; [|discriminate].
  intros Hk. inversion Hk; subst t0.
  assert (Hl' : RefStore.lookup
                  (RefStore.typenames (snd (RefStore.answer c s))) g nm
                = Some tid).
  { destruct c; simpl; try exact Hl;
      try (match goal with
           | |- context [RefStore.def_type ?a ?b ?c] =>
               destruct (RefStore.def_type a b c) as [[r t] s1] eqn:Hd;
               exact (proj2 (RefStore_lookup_def_type _ _ _ _ _ _ Hd) _ _ _ Hl)
           end).
    - destruct nm0 as [nm0|]; simpl; [|exact Hl].
      destruct (RefStore.def_type ncid0 nm0 s) as [[r t] s1] eqn:Hd.
      exact (proj2 (RefStore_lookup_def_type _ _ _ _ _ _ Hd) _ _ _ Hl).
    - destruct (RefStore.lookup (RefStore.typenames s) ncid0 nm0); exact Hl. }
  rewrite Hl'. reflexivity.
Qed.

(** ** Type Builder: a composite type visited twice *)

Ltac inv_bind H :=
  match type of H with
  | obind ?c _ = Ok _ =>
      let E := fresh "Hrun" in
      destruct c eqn:E; cbn [obind] in H; try discriminate H
  end.

Lemma id_of_write_meta_offset (p : nat) (v : Z) (h : heap) (x : nat) :
  id_of (write_meta_offset p v h) x = id_of h x.
Proof.
  unfold id_of, write_meta_offset. destruct (decide (p = x)) as [-> | Hne].
  - rewrite lookup_alter_eq. destruct (h !! x); reflexivity.
  - rewrite lookup_alter_ne by exact Hne. reflexivity.
Qed.

Lemma id_of_write_meta_cmpdid (p : nat) (v : Z) (h : heap) (x : nat) :
  id_of (write_meta_cmpdid p v h) x = id_of h x.
Proof.
  unfold id_of, write_meta_cmpdid. destruct (decide (p = x)) as [-> | Hne].
  - rewrite lookup_alter_eq. destruct (h !! x); reflexivity.
  - rewrite lookup_alter_ne by exact Hne. reflexivity.
Qed.

Lemma id_of_write_meta_id_ne (p : nat) (v : Z) (h : heap) (x : nat) :
  x <> p -> id_of (write_meta_id p v h) x = id_of h x.
Proof.
  intros Hne. unfold id_of, write_meta_id.
  rewrite lookup_alter_ne by congruence. reflexivity.
Qed.

Lemma id_of_write_meta_id_eq (p : nat) (v : Z) (h : heap) (n : NCD4node) :
  h !! p = Some n -> id_of (write_meta_id p v h) p = Some v.
Proof.
  intros Hp. unfold id_of, write_meta_id. rewrite lookup_alter_eq, Hp.
  reflexivity.
Qed.

Lemma id_of_deref (h : heap) (p : nat) (n : NCD4node) :
  deref h p = Ok n -> h !! p = Some n /\ id_of h p = Some (meta_id n).
Proof.
  unfold deref, id_of. destruct (h !! p); intros H; inversion H; auto.
Qed.

Lemma computeOffsets_loop_ids
    (offsets : nat -> heap -> outcome heap)
    (typesize : heap -> option nat -> outcome Z) :
  (forall c h h', offsets c h = Ok h' -> forall x, id_of h' x = id_of h x) ->
  forall fields off h off' h',
    computeOffsets_loop offsets typesize fields off h = Ok (off', h') ->
    forall x, id_of h' x = id_of h x.
Proof.
  intros Hoff. induction fields as [|f rest IH]; intros off h off' h' Hrun x.
  - inversion Hrun. reflexivity.
  - cbn [computeOffsets_loop] in Hrun. inv_bind Hrun.
    match type of Hrun with
    | obind ?c _ = _ => destruct c as [[size h1]| |] eqn:Hsize
    end; cbn [obind] in Hrun; try discriminate.
    rewrite (IH _ _ _ _ Hrun x), id_of_write_meta_offset.
    destruct (subsort a);
      try (inv_bind Hsize; inversion Hsize; subst; reflexivity);
      try (inversion Hsize; subst; reflexivity).
    inv_bind Hsize. inv_bind Hsize. inv_bind Hsize. inversion Hsize; subst.
    eapply Hoff; eassumption.
Qed.

Lemma computeOffsets_ids :
  forall fuel c h h', computeOffsets fuel c h = Ok h' ->
    forall x, id_of h' x = id_of h x.
Proof.
  induction fuel as [|k IH]; intros c h h' Hrun x; [discriminate|].
  cbn [computeOffsets] in Hrun. inv_bind Hrun.
  match type of Hrun with
  | obind ?c _ = _ => destruct c as [[off h1]| |] eqn:Hloop
  end; cbn [obind] in Hrun; try discriminate.
  inversion Hrun; subst. rewrite id_of_write_meta_offset.
  exact (computeOffsets_loop_ids _ _ (IH) _ _ _ _ _ Hloop x).
Qed.

Section CompositeTwice.

Context {Store : Type} (E : externals Store).
Hypothesis Hregisters : store_registers E.
Hypothesis Hkeeps : store_keeps E.

Lemma perform_eq (c : Call) (st : BState Store) :
  perform E c st
  = (fst (fst (nc E c (st_store st))),
     Build_BState (st_heap st) (snd (nc E c (st_store st)))
       (st_trace st ++ [c])).
Proof.
  unfold perform, issue. destruct (nc E c (st_store st)) as [[ret out] s'].
  reflexivity.
Qed.

Lemma issue_eq (c : Call) (st : BState Store) :
  issue E c st
  = (fst (fst (nc E c (st_store st))), snd (fst (nc E c (st_store st))),
     Build_BState (st_heap st) (snd (nc E c (st_store st)))
       (st_trace st ++ [c])).
Proof.
  unfold issue. destruct (nc E c (st_store st)) as [[ret out] s'].
  reflexivity.
Qed.

Lemma definitions_app (cs1 cs2 : list Call) :
  definitions (cs1 ++ cs2) = (definitions cs1 + definitions cs2)%nat.
Proof. unfold definitions. rewrite List.filter_app, length_app. reflexivity. Qed.

(** The field insertions of [buildCompound] define no type, leave the
    graph as it is, and the store forgets nothing. *)
Lemma buildCompound_fields_inv (cmpdtype group : nat) :
  forall fields st ret st',
    buildCompound_fields E cmpdtype group fields st = Ok (ret, st') ->
    st_heap st' = st_heap st /\
    (forall g nm tid, type_known E (st_store st) g nm tid ->
                      type_known E (st_store st') g nm tid) /\
    exists cs, st_trace st' = (st_trace st ++ cs)%list /\ definitions cs = 0%nat.
Proof using Hkeeps.
  induction fields as [|f rest IH]; intros st ret st' Hrun.
  - inversion Hrun; subst. split; [reflexivity|]. split; [auto|].
    exists []. rewrite app_nil_r. split; reflexivity.
  - cbn [buildCompound_fields] in Hrun.
    inv_bind Hrun. inv_bind Hrun. inv_bind Hrun.
    assert (Hstep : forall c,
      NCCHECK (perform E c st) (buildCompound_fields E cmpdtype group rest)
      = Ok (ret, st') ->
      is_type_definition c = false ->
      st_heap st' = st_heap st /\
      (forall g nm tid, type_known E (st_store st) g nm tid ->
                        type_known E (st_store st') g nm tid) /\
      exists cs, st_trace st' = (st_trace st ++ cs)%list /\
                 definitions cs = 0%nat).
    { intros c Hc Hnot. rewrite perform_eq in Hc. unfold NCCHECK in Hc.
      destruct (negb (fst (fst (nc E c (st_store st))) =? 0)).
      - inversion Hc; subst. cbn [st_heap st_store st_trace].
        split; [reflexivity|]. split; [intros g nm tid; apply Hkeeps|].
        exists [c]. split; [reflexivity|].
        unfold definitions. simpl. rewrite Hnot. reflexivity.
      - destruct (IH _ _ _ Hc) as (Hheap & Hknown & cs & Htrace & Hdefs).
        cbn [st_heap st_store st_trace] in *.
        split; [exact Hheap|].
        split; [intros g nm tid Hk; apply Hknown, Hkeeps, Hk|].
        exists (c :: cs). rewrite Htrace, <- app_assoc. split; [reflexivity|].
        change (c :: cs) with ([c] ++ cs)%list. rewrite definitions_app, Hdefs.
        unfold definitions. simpl. rewrite Hnot. reflexivity. }
    destruct (length (dims a)).
    + inv_bind Hrun. eapply Hstep; [exact Hrun | reflexivity].
    + inv_bind Hrun. inv_bind Hrun. eapply Hstep; [exact Hrun | reflexivity].
Qed.

(** A successful [buildCompound]: one type definition, in the group
    [group], recorded for [cmpdtype] and known to the store. *)
Lemma buildCompound_inv (fuel : nat) (cmpdtype group : nat)
    (nm : option string) (st st' : BState Store) (gn : NCD4node) :
  buildCompound E fuel cmpdtype group nm st = Ok (NC_NOERR, st') ->
  st_heap st !! group = Some gn -> cmpdtype <> group ->
  exists size tid cs,
    st_trace st'
    = (st_trace st ++ nc_def_compound (meta_id gn) size nm :: cs)%list /\
    definitions cs = 0%nat /\
    id_of (st_heap st') cmpdtype = Some tid /\
    (forall x, x <> cmpdtype -> id_of (st_heap st') x = id_of (st_heap st) x) /\
    (forall name, nm = Some name ->
       type_known E (st_store st') (meta_id gn) name tid) /\
    (forall g name t, type_known E (st_store st) g name t ->
       type_known E (st_store st') g name t).
Proof using Hkeeps Hregisters.
  intros Hrun Hgroup Hne. unfold buildCompound in Hrun.
  inv_bind Hrun. rename a into h1. inv_bind Hrun. rename a into gn1.
  inv_bind Hrun. rename a into cn1.
  pose proof (computeOffsets_ids _ _ _ _ Hrun0) as Hids.
  destruct (id_of_deref _ _ _ Hrun1) as [Hg1 Hgid1].
  destruct (id_of_deref _ _ _ Hrun2) as [Hc1 _].
  assert (Hgid : meta_id gn1 = meta_id gn).
  { rewrite Hids in Hgid1. unfold id_of in Hgid1. rewrite Hgroup in Hgid1.
    congruence. }
  rewrite Hgid in Hrun.
  unfold define in Hrun. rewrite issue_eq in Hrun.
  cbn [with_heap st_heap st_store st_trace] in Hrun.
  set (def := nc_def_compound (meta_id gn) (meta_offset cn1) nm) in *.
  destruct (nc E def (st_store st)) as [[ret tid] s1] eqn:Hnc.
  cbn [fst snd] in Hrun. unfold NCCHECK in Hrun.
  destruct (ret =? 0) eqn:Hret; rewrite ?Hret in Hrun; cbn [negb] in Hrun.
  2: { inversion Hrun as [[Hr Hs]]. rewrite Hr in Hret. discriminate Hret. }
  apply Z.eqb_eq in Hret. subst ret.
  destruct (buildCompound_fields_inv _ _ _ _ _ _ Hrun)
    as (Hheap & Hknown & cs & Htrace & Hdefs).
  cbn [with_heap st_heap st_store st_trace] in *.
  exists (meta_offset cn1), tid, cs.
  split; [rewrite Htrace, <- app_assoc; reflexivity|].
  split; [exact Hdefs|].
  split; [rewrite Hheap; exact (id_of_write_meta_id_eq _ _ _ _ Hc1)|].
  split.
  { intros x Hx. rewrite Hheap, id_of_write_meta_id_ne by exact Hx.
    apply Hids. }
  split.
  { intros name ->. apply Hknown.
    exact (Hregisters def (st_store st) tid s1 (meta_id gn) name Hnc eq_refl). }
  intros g name t Hk. apply Hknown.
  pose proof (Hkeeps def (st_store st) g name t Hk) as Hk'.
  rewrite Hnc in Hk'. exact Hk'.
Qed.

Lemma getFieldFQN_any_tail (fuel : nat) (h : heap) (x : nat) (tail : string)
    (fqn : string) :
  getFieldFQN fuel h x tail = Ok fqn ->
  forall tail', exists fqn', getFieldFQN fuel h x tail' = Ok fqn'.
Proof.
  unfold getFieldFQN. intros Hrun tail'.
  inv_bind Hrun. cbn [obind]. inv_bind Hrun. cbn [obind].
  eexists. reflexivity.
Qed.

Lemma resolvedIdentity_inv (fuel : nat) (h : heap) (type : nat)
    (nm : string) (group : nat) :
  resolvedIdentity fuel h type = Ok (nm, group) ->
  exists g n,
    groupFor fuel h (Some type) = Ok g /\ deref h type = Ok n /\
    match nc4_orig_name n with
    | Some orig => nm = orig /\ nc4_orig_group n = Some group
    | None => getFieldFQN fuel h type "_t" = Ok nm /\ group = g
    end.
Proof.
  unfold resolvedIdentity. intros Hrun.
  inv_bind Hrun. inv_bind Hrun. exists a, a0.
  split; [reflexivity|]. split; [reflexivity|].
  destruct (nc4_orig_name a0) as [orig|].
  - inv_bind Hrun. inversion Hrun; subst.
    destruct (nc4_orig_group a0); inversion Hrun2. auto.
  - inv_bind Hrun. inversion Hrun; subst. auto.
Qed.

(** A visit that finds the name known adopts the id: one probe, no
    definition. *)
Lemma second_visit (fuel : nat) (builder : NCD4meta) (st1 : BState Store)
    (n2 group : nat) (x2 : NCD4node) (nm : string) (gid tid : Z) :
  st_heap st1 !! n2 = Some x2 -> sort x2 = NCD4_TYPE ->
  (subsort x2 = NC_STRUCT \/ subsort x2 = NC_SEQ) ->
  resolvedIdentity fuel (st_heap st1) n2 = Ok (nm, group) ->
  id_of (st_heap st1) group = Some gid ->
  type_known E (st_store st1) gid nm tid ->
  exists st2,
    build_switch E fuel builder n2 st1 = Ok (NC_NOERR, st2) /\
    st_trace st2 = (st_trace st1 ++ [nc_inq_typeid gid nm])%list /\
    id_of (st_heap st2) n2 = Some tid.
Proof.
  intros Hn2 Hsort Hkind Hid Hgid Hknown.
  destruct (resolvedIdentity_inv _ _ _ _ _ Hid) as (g & n & Hg & Hn & Hname).
  assert (n = x2) by (unfold deref in Hn; rewrite Hn2 in Hn; congruence).
  subst n.
  assert (Hgroup : exists gn, deref (st_heap st1) group = Ok gn /\
                              meta_id gn = gid).
  { unfold id_of in Hgid. unfold deref.
    destruct (st_heap st1 !! group) as [gn|]; [|discriminate].
    exists gn. split; [reflexivity | congruence]. }
  destruct Hgroup as (gn & Hgn & Hgnid).
  unfold type_known in Hknown.
  unfold build_switch. rewrite Hn. cbn [obind]. rewrite Hsort.
  eexists. split; [|split].
  - destruct Hkind as [Hk | Hk]; rewrite Hk.
    + unfold buildStructureType. rewrite Hg. cbn [obind]. rewrite Hn.
      cbn [obind].
      destruct (nc4_orig_name x2) as [orig|]; destruct Hname as [Hnm Hgr].
      * subst orig. rewrite Hgr. cbn [nonnull obind]. rewrite Hgn.
        cbn [obind]. rewrite issue_eq, Hgnid, Hknown. cbn [fst snd].
        reflexivity.
      * subst g. rewrite Hnm. cbn [obind]. rewrite Hgn.
        cbn [obind]. rewrite issue_eq, Hgnid, Hknown. cbn [fst snd].
        reflexivity.
    + unfold buildSequenceType. rewrite Hg. cbn [obind]. rewrite Hn.
      cbn [obind].
      destruct (nc4_orig_name x2) as [orig|]; destruct Hname as [Hnm Hgr].
      * subst orig. rewrite Hgr. cbn [nonnull obind]. rewrite Hgn.
        cbn [obind]. rewrite issue_eq, Hgnid, Hknown. cbn [fst snd].
        reflexivity.
      * subst g.
        destruct (getFieldFQN_any_tail _ _ _ _ _ Hnm "_cmpd_t") as [cn Hcn].
        rewrite Hnm. cbn [obind]. rewrite Hcn. cbn [obind]. rewrite Hgn.
        cbn [obind]. rewrite issue_eq, Hgnid, Hknown. cbn [fst snd].
        reflexivity.
  - reflexivity.
  - cbn [with_heap st_heap]. exact (id_of_write_meta_id_eq _ _ _ _ Hn2).
Qed.

(** The first visit of a composite type whose name the store does not
    know yet. *)
Lemma first_visit (fuel : nat) (builder : NCD4meta) (st st1 : BState Store)
    (n1 group : nat) (x1 gn : NCD4node) (nm : string) :
  st_heap st !! n1 = Some x1 -> sort x1 = NCD4_TYPE ->
  (subsort x1 = NC_STRUCT \/ subsort x1 = NC_SEQ) ->
  resolvedIdentity fuel (st_heap st) n1 = Ok (nm, group) ->
  st_heap st !! group = Some gn -> sort gn = NCD4_GROUP ->
  fst (fst (nc E (nc_inq_typeid (meta_id gn) nm) (st_store st))) <> NC_NOERR ->
  build_switch E fuel builder n1 st = Ok (NC_NOERR, st1) ->
  exists cs tid,
    st_trace st1 = (st_trace st ++ cs)%list /\
    definitions cs = match subsort x1 with NC_STRUCT => 1%nat | _ => 2%nat end /\
    id_of (st_heap st1) n1 = Some tid /\
    type_known E (st_store st1) (meta_id gn) nm tid /\
    id_of (st_heap st1) group = Some (meta_id gn).
Proof using Hkeeps Hregisters.
  intros Hn1 Hsort Hkind Hid Hgroup Hgsort Hunknown Hrun.
  destruct (resolvedIdentity_inv _ _ _ _ _ Hid) as (g & n & Hg & Hn & Hname).
  assert (n = x1) by (unfold deref in Hn; rewrite Hn1 in Hn; congruence).
  subst n.
  assert (Hne : n1 <> group) by (intros ->; congruence).
  assert (Hgn : deref (st_heap st) group = Ok gn)
    by (unfold deref; rewrite Hgroup; reflexivity).
  assert (Hgid0 : id_of (st_heap st) group = Some (meta_id gn))
    by (unfold id_of; rewrite Hgroup; reflexivity).
  set (probe := nc_inq_typeid (meta_id gn) nm) in *.
  apply Z.eqb_neq in Hunknown.
  unfold build_switch in Hrun. rewrite Hn in Hrun. cbn [obind] in Hrun.
  rewrite Hsort in Hrun.
  destruct Hkind as [Hk | Hk]; rewrite Hk in Hrun |- *.
  - unfold buildStructureType in Hrun. rewrite Hg in Hrun.
    cbn [obind] in Hrun. rewrite Hn in Hrun. cbn [obind] in Hrun.
    assert (Hres :
      match nc4_orig_name x1 with
      | Some orig => let* og := nonnull (nc4_orig_group x1) in Ok (orig, og)
      | None =>
          let* fqn := getFieldFQN fuel (st_heap st) n1 "_t" in Ok (fqn, g)
      end = Ok (nm, group)).
    { destruct (nc4_orig_name x1); destruct Hname as [H1 H2]; subst;
        rewrite ?H1, ?H2; reflexivity. }
    rewrite Hres in Hrun. cbn [obind] in Hrun. rewrite Hgn in Hrun.
    cbn [obind] in Hrun. rewrite issue_eq in Hrun. fold probe in Hrun.
    cbn [fst snd] in Hrun. rewrite Hunknown in Hrun.
    unfold CHECKED in Hrun. inv_bind Hrun. destruct a as [r st'].
    unfold NCCHECK, done in Hrun.
    destruct (r =? 0) eqn:Hr; cbn [negb] in Hrun.
    2: { inversion Hrun as [[H1 H2]]. rewrite H1 in Hr. discriminate Hr. }
    apply Z.eqb_eq in Hr. subst r. inversion Hrun; subst st'. clear Hrun.
    destruct (buildCompound_inv _ _ _ _ _ _ gn Hrun0 Hgroup Hne)
      as (size & tid & cs & Htrace & Hdefs & Hid1 & Hids & Hknown & _).
    cbn [st_heap st_store st_trace] in *.
    exists (probe :: nc_def_compound (meta_id gn) size (Some nm) :: cs), tid.
    split; [rewrite Htrace, <- app_assoc; reflexivity|].
    split.
    { change (probe :: nc_def_compound (meta_id gn) size (Some nm) :: cs)
        with ([probe; nc_def_compound (meta_id gn) size (Some nm)] ++ cs)%list.
      rewrite definitions_app, Hdefs. reflexivity. }
    split; [exact Hid1|]. split; [exact (Hknown nm eq_refl)|].
    rewrite Hids by congruence. exact Hgid0.
  - unfold buildSequenceType in Hrun. rewrite Hg in Hrun.
    cbn [obind] in Hrun. rewrite Hn in Hrun. cbn [obind] in Hrun.
    assert (Hres : exists cmpdname,
      match nc4_orig_name x1 with
      | Some orig =>
          let* og := nonnull (nc4_orig_group x1) in Ok ((orig, None), og)
      | None =>
          let* vlen := getFieldFQN fuel (st_heap st) n1 "_t" in
          let* cmpd := getFieldFQN fuel (st_heap st) n1 "_cmpd_t" in
          Ok ((vlen, Some cmpd), g)
      end = Ok ((nm, cmpdname), group)).
    { destruct (nc4_orig_name x1); destruct Hname as [H1 H2]; subst.
      - exists None. rewrite H2. reflexivity.
      - destruct (getFieldFQN_any_tail _ _ _ _ _ H1 "_cmpd_t") as [cn Hcn].
        exists (Some cn). rewrite H1, Hcn. reflexivity. }
    destruct Hres as [cmpdname Hres].
    rewrite Hres in Hrun. cbn [obind] in Hrun. rewrite Hgn in Hrun.
    cbn [obind] in Hrun. rewrite issue_eq in Hrun. fold probe in Hrun.
    cbn [fst snd] in Hrun. rewrite Hunknown in Hrun.
    inv_bind Hrun. rename a into ucar.
    match type of Hrun with
    | (if ?b then _ else _) = _ => destruct b
    end.
    { cbn [deref_opt obind] in Hrun. discriminate Hrun. }
    unfold CHECKED in Hrun. inv_bind Hrun. destruct a as [r st2].
    unfold NCCHECK in Hrun.
    destruct (r =? 0) eqn:Hr; cbn [negb] in Hrun.
    2: { inversion Hrun as [[H1 H2]]. rewrite H1 in Hr. discriminate Hr. }
    apply Z.eqb_eq in Hr. subst r.
    destruct (buildCompound_inv _ _ _ _ _ _ gn Hrun1 Hgroup Hne)
      as (size & tidc & cs & Htrace & Hdefs & Hid1 & Hids & _ & _).
    cbn [st_heap st_store st_trace] in *.
    inv_bind Hrun. rename a into sn2.
    destruct (id_of_deref _ _ _ Hrun2) as [Hsn2 Hsn2id].
    cbn [with_heap st_heap st_store st_trace] in Hrun.
    inv_bind Hrun. rename a into gn3.
    destruct (id_of_deref _ _ _ Hrun3) as [Hgn3 Hgn3id].
    rewrite id_of_write_meta_cmpdid, Hids, Hgid0 in Hgn3id by congruence.
    assert (Hgid3 : meta_id gn3 = meta_id gn) by congruence.
    rewrite Hgid3 in Hrun.
    unfold define in Hrun. rewrite issue_eq in Hrun.
    cbn [with_heap st_heap st_store st_trace] in Hrun.
    set (defv := nc_def_vlen (meta_id gn) nm (meta_id sn2)) in *.
    destruct (nc E defv (st_store st2)) as [[rv out] s3] eqn:Hnc.
    cbn [fst snd] in Hrun. unfold NCCHECK, done in Hrun.
    destruct (rv =? 0) eqn:Hrv; rewrite ?Hrv in Hrun; cbn [negb] in Hrun.
    2: { inversion Hrun as [[H1 H2]]. rewrite H1 in Hrv. discriminate Hrv. }
    apply Z.eqb_eq in Hrv. subst rv. inversion Hrun; subst st1. clear Hrun.
    cbn [with_heap st_heap st_store st_trace].
    exists (probe :: nc_def_compound (meta_id gn) size cmpdname :: cs ++ [defv])%list,
           out.
    split.
    { rewrite Htrace, <- !app_assoc. reflexivity. }
    split.
    { change (probe :: nc_def_compound (meta_id gn) size cmpdname :: cs ++ [defv])%list
        with ([probe; nc_def_compound (meta_id gn) size cmpdname]
                ++ (cs ++ [defv]))%list.
      rewrite !definitions_app, Hdefs. reflexivity. }
    split.
    { apply (id_of_write_meta_id_eq _ _ _ (set_meta_cmpdid (meta_id sn2) sn2)).
      unfold write_meta_cmpdid. rewrite lookup_alter_eq, Hsn2. reflexivity. }
    split.
    { exact (Hregisters defv (st_store st2) out s3 (meta_id gn) nm Hnc eq_refl). }
    rewrite id_of_write_meta_id_ne, id_of_write_meta_cmpdid, Hids by congruence.
    exact Hgid0.
Qed.

(** C8, amended.  Let the store register the names it defines and never
    forget one.  The first visit of a structure type issues exactly one
    type definition, and the first visit of a sequence type built on an
    inner compound type exactly two.  A second visit of a composite type
    that resolves to the same name and group then issues the probe alone,
    no definition, and adopts the id the first visit recorded. *)
Theorem composite_type_revisit :
  forall (fuel : nat) (builder : NCD4meta) (st st1 : BState Store)
         (n1 n2 group : nat) (x1 x2 gn : NCD4node) (nm : string),
    st_heap st !! n1 = Some x1 -> sort x1 = NCD4_TYPE ->
    (subsort x1 = NC_STRUCT \/ subsort x1 = NC_SEQ) ->
    resolvedIdentity fuel (st_heap st) n1 = Ok (nm, group) ->
    st_heap st !! group = Some gn -> sort gn = NCD4_GROUP ->
    fst (fst (nc E (nc_inq_typeid (meta_id gn) nm) (st_store st))) <> NC_NOERR ->
    build_switch E fuel builder n1 st = Ok (NC_NOERR, st1) ->
    st_heap st1 !! n2 = Some x2 -> sort x2 = NCD4_TYPE ->
    (subsort x2 = NC_STRUCT \/ subsort x2 = NC_SEQ) ->
    resolvedIdentity fuel (st_heap st1) n2 = Ok (nm, group) ->
    exists (cs : list Call) (st2 : BState Store) (tid : Z),
      st_trace st1 = (st_trace st ++ cs)%list /\
      definitions cs
      = match subsort x1 with NC_STRUCT => 1%nat | _ => 2%nat end /\
      build_switch E fuel builder n2 st1 = Ok (NC_NOERR, st2) /\
      st_trace st2 = (st_trace st1 ++ [nc_inq_typeid (meta_id gn) nm])%list /\
      id_of (st_heap st1) n1 = Some tid /\
      id_of (st_heap st2) n2 = Some tid.
Proof using Hkeeps Hregisters.
  intros fuel builder st st1 n1 n2 group x1 x2 gn nm
    Hn1 Hsort1 Hkind1 Hid1 Hgroup Hgsort Hunknown Hrun1
    Hn2 Hsort2 Hkind2 Hid2.
  destruct (first_visit fuel builder st st1 n1 group x1 gn nm
              Hn1 Hsort1 Hkind1 Hid1 Hgroup Hgsort Hunknown Hrun1)
    as (cs & tid & Htrace & Hdefs & Htid & Hknown & Hgid).
  destruct (second_visit fuel builder st1 n2 group x2 nm (meta_id gn) tid
              Hn2 Hsort2 Hkind2 Hid2 Hgid Hknown)
    as (st2 & Hrun2 & Htrace2 & Htid2).
  exists cs, st2, tid. auto 10.
Qed.

End CompositeTwice.

Lemma composite_type_revisit_witness :
  exists (cs : list Call) (st2 : BState RefStore.state) (tid : Z),
    st_trace Examples.revisit_after
    = (st_trace Examples.revisit_start ++ cs)%list /\
    definitions cs = 2%nat /\
    build_switch (RefStore.ext RefStore.no_failure) 4 Examples.revisit_meta 10
      Examples.revisit_after = Ok (NC_NOERR, st2) /\
    st_trace st2
    = (st_trace Examples.revisit_after ++ [nc_inq_typeid 7 "rows_t"])%list /\
    id_of (st_heap Examples.revisit_after) 7 = Some tid /\
    id_of (st_heap st2) 10 = Some tid.
Proof.
  apply (composite_type_revisit (RefStore.ext RefStore.no_failure)
           RefStore_registers RefStore_keeps
           4 Examples.revisit_meta Examples.revisit_start
           Examples.revisit_after 7 10 0
           Examples.rows_type Examples.rows_alias Examples.root_group
           "rows_t");
    try (right; reflexivity);
    vm_compute; solve [ reflexivity | discriminate ].
Defined.

(** * Further properties of the code *)

(** ** Attribute Value Encoder: what the buffer holds *)

Lemma compileAttrValues_exact_kinds_witness :
  compileAttrValues RefScan.C Examples.float_schema (Some 2%nat) ["-1"; "300"]
  = Ok (NC_NOERR, Some [MByte 255; MByte 44]).
Proof.
  apply (compileAttrValues_exact_kinds RefScan.C Examples.float_schema 2
           (Fixture.atomic NC_BYTE "Int8" None) 8 ["-1"; "300"]
           [18446744073709551615; 300]); try reflexivity.
  repeat constructor; vm_compute; congruence.
Defined.

Lemma store_low_self (w u v : Z) :
  0 <= w -> v mod 2 ^ w = u mod 2 ^ w -> store_low w u v = u.
Proof.
  intros Hw Hv. rewrite store_low_eq, Hv by lia.
  symmetry. apply Z.div_mod. apply Z.pow_nonzero; lia.
Qed.

Lemma downConvert_exact_id (n : NCD4node) (w u : Z) :
  exact_bits (subsort n) = Some w -> 0 <= u < 2 ^ 64 ->
  downConvert (ABits u) n = Ok (NC_NOERR, ABits u).
Proof.
  intros Hw Hu. unfold downConvert.
  destruct (subsort n); simpl in Hw; inversion Hw; subst w; clear Hw;
    try reflexivity;
    try (rewrite store_low_self; [reflexivity | lia | ];
         first [ apply to_signed_mod; lia | reflexivity ]).
  unfold wrap. rewrite (to_signed_mod 64 u) by lia.
  rewrite Z.mod_small by lia. reflexivity.
Qed.

(** X2.  On the integer kinds and the 64-bit float, [downConvert] leaves
    the conversion union as it is (the member it stores back overlays the
    low bytes it was computed from), so converting twice equals
    converting once. *)
Theorem downConvert_exact_unchanged :
  forall (n : NCD4node) (w u : Z),
    exact_bits (subsort n) = Some w -> 0 <= u < 2 ^ 64 ->
    downConvert (ABits u) n = Ok (NC_NOERR, ABits u) /\
    (let* (_, c) := downConvert (ABits u) n in downConvert c n)
    = downConvert (ABits u) n.
Proof.
  intros n w u Hw Hu. pose proof (downConvert_exact_id n w u Hw Hu) as Hid.
  split; [exact Hid|]. rewrite Hid. cbn [obind]. exact Hid.
Qed.

Lemma downConvert_exact_unchanged_witness :
  downConvert (ABits 300) (Fixture.atomic NC_BYTE "Int8" None)
  = Ok (NC_NOERR, ABits 300) /\
  (let* (_, c) := downConvert (ABits 300) (Fixture.atomic NC_BYTE "Int8" None) in
   downConvert c (Fixture.atomic NC_BYTE "Int8" None))
  = downConvert (ABits 300) (Fixture.atomic NC_BYTE "Int8" None).
Proof.
  apply (downConvert_exact_unchanged (Fixture.atomic NC_BYTE "Int8" None) 8 300);
    [reflexivity | lia].
Defined.

(** X3.  A text attribute is stored verbatim: one pointer-sized slot per
    value, holding the value's text, in input order; no value is parsed. *)
Theorem compileAttrValues_text_verbatim :
  forall (C : libc) (h : heap) (bt : nat) (n : NCD4node) (values : list string),
    h !! bt = Some n -> sort n = NCD4_TYPE -> subsort n = NC_STRING ->
    meta_id n = nc_code NC_STRING ->
    compileAttrValues C h (Some bt) values = Ok (NC_NOERR, Some (map MPtr values)).
Proof.
  intros C h bt n values Hbt Hsort Hkind Hid.
  unfold compileAttrValues. cbn [deref_opt]. unfold deref. rewrite Hbt.
  cbn [obind]. rewrite Hkind.
  change (nc_type_eqb NC_STRING NC_ENUM) with false. cbv iota. cbn [obind].
  rewrite Hsort, Hid. cbn [ISTYPE negb orb].
  change (nc_code NC_STRING >? NC_MAX_ATOMIC_TYPE) with false. cbv iota.
  change (Some (map MPtr values)) with (Some ([] ++ map MPtr values)%list).
  generalize (@nil mcell) as memory. generalize AUninit as converter.
  induction values as [|s rest IH]; intros converter memory.
  - cbn [compileAttrValues_loop map]. rewrite app_nil_r. reflexivity.
  - cbn [compileAttrValues_loop]. unfold convertString, downConvert.
    rewrite Hkind. cbn [obind]. change (negb (NC_NOERR =? 0)) with false.
    cbv iota. cbn [obind]. unfold copyAtomic. rewrite Hid.
    cbn [nc_of_code nc_code obind]. rewrite IH, <- app_assoc. reflexivity.
Qed.

Lemma compileAttrValues_text_verbatim_witness :
  compileAttrValues RefScan.C Examples.tagged_schema (Some 6%nat)
    ["seconds"; "since 1970"]
  = Ok (NC_NOERR, Some [MPtr "seconds"; MPtr "since 1970"]).
Proof.
  apply (compileAttrValues_text_verbatim RefScan.C Examples.tagged_schema 6
           (Fixture.atomic NC_STRING "String" (Some 0%nat))
           ["seconds"; "since 1970"]); reflexivity.
Defined.

(** One value of a numeric kind that [sscanf] accepts is appended to the
    buffer and the loop goes on. *)
Lemma compileAttrValues_loop_numeric_step (C : libc) (h : heap) (n : NCD4node)
    (s : string) (rest : list string) (converter : ATOMICS)
    (memory : list mcell) :
  numeric_kind (subsort n) = true -> meta_id n = nc_code (subsort n) ->
  is_Some (scan_of C (subsort n) s) ->
  exists converter' memory',
    compileAttrValues_loop C h false n n (s :: rest) converter memory
    = compileAttrValues_loop C h false n n rest converter' memory'.
Proof.
  intros Hkind Hid [u Hscan].
  cbn [compileAttrValues_loop]. unfold convertString, downConvert, copyAtomic.
  rewrite Hid.
  destruct (subsort n); simpl in Hkind; try discriminate Hkind;
    simpl in Hscan; rewrite Hscan; cbn [obind nc_of_code nc_code];
    change (negb (NC_NOERR =? 0)) with false; cbv iota; cbn [obind];
    eexists; eexists; reflexivity.
Qed.

(** X4.  For an attribute of a numeric kind, the first value that [sscanf]
    does not accept ends the encoding: [compileAttrValues] returns
    [NC_EBADTYPE] (not the [NC_ERANGE] of [convertString]) and hands no
    buffer to its caller, whatever the values after it. *)
Theorem compileAttrValues_unparsable_value :
  forall (C : libc) (h : heap) (bt : nat) (n : NCD4node)
         (good : list string) (bad : string) (rest : list string),
    h !! bt = Some n -> sort n = NCD4_TYPE ->
    numeric_kind (subsort n) = true -> meta_id n = nc_code (subsort n) ->
    Forall (fun s => is_Some (scan_of C (subsort n) s)) good ->
    scan_of C (subsort n) bad = None ->
    compileAttrValues C h (Some bt) (good ++ bad :: rest)
    = Ok (NC_EBADTYPE, None).
Proof.
  intros C h bt n good bad rest Hbt Hsort Hkind Hid Hgood Hbad.
  unfold compileAttrValues. cbn [deref_opt]. unfold deref. rewrite Hbt.
  cbn [obind].
  assert (Hne : nc_type_eqb (subsort n) NC_ENUM = false)
    by (destruct (subsort n); simpl in Hkind; try discriminate Hkind;
        reflexivity).
  rewrite Hne. cbn [obind]. rewrite Hsort. cbn [ISTYPE negb orb].
  assert (Hat : (meta_id n >? NC_MAX_ATOMIC_TYPE) = false)
    by (rewrite Hid; destruct (subsort n); simpl in Hkind;
        try discriminate Hkind; reflexivity).
  rewrite Hat.
  generalize (@nil mcell) as memory. generalize AUninit as converter.
  induction Hgood as [|s good Hs _ IH]; intros converter memory.
  - cbn [app compileAttrValues_loop]. unfold convertString.
    destruct (subsort n); simpl in Hkind; try discriminate Hkind;
      simpl in Hbad; rewrite Hbad; reflexivity.
  - cbn [app].
    destruct (compileAttrValues_loop_numeric_step C h n s (good ++ bad :: rest)
                converter memory Hkind Hid Hs) as (c' & m' & ->).
    apply IH.
Qed.

Lemma compileAttrValues_unparsable_value_witness :
  compileAttrValues RefScan.C Examples.float_schema (Some 1%nat)
    (["1.5"] ++ "warm" :: ["2"])
  = Ok (NC_EBADTYPE, None).
Proof.
  apply (compileAttrValues_unparsable_value RefScan.C Examples.float_schema 1
           (Fixture.atomic NC_FLOAT "Float32" None) ["1.5"] "warm" ["2"]);
    try reflexivity.
  repeat constructor. eexists. vm_compute. reflexivity.
Defined.

(** X6.  [convertString] and [downConvert] have no case for [NC_CHAR]:
    for a character attribute with at least one value, the byte that
    [copyAtomic] appends is read from a conversion union that no statement
    has written. *)
Theorem compileAttrValues_char_indeterminate :
  forall (C : libc) (h : heap) (bt : nat) (n : NCD4node)
         (s : string) (rest : list string),
    h !! bt = Some n -> sort n = NCD4_TYPE -> subsort n = NC_CHAR ->
    meta_id n = nc_code NC_CHAR ->
    compileAttrValues C h (Some bt) (s :: rest) = Undefined.
Proof.
  intros C h bt n s rest Hbt Hsort Hkind Hid.
  unfold compileAttrValues. cbn [deref_opt]. unfold deref. rewrite Hbt.
  cbn [obind]. rewrite Hkind.
  change (nc_type_eqb NC_CHAR NC_ENUM) with false. cbv iota. cbn [obind].
  rewrite Hsort, Hid. cbn [ISTYPE negb orb].
  change (nc_code NC_CHAR >? NC_MAX_ATOMIC_TYPE) with false. cbv iota.
  cbn [compileAttrValues_loop]. unfold convertString, downConvert.
  rewrite Hkind. cbn [obind]. change (negb (NC_NOERR =? 0)) with false.
  cbv iota. cbn [obind]. unfold copyAtomic. rewrite Hid. reflexivity.
Qed.

Lemma compileAttrValues_char_indeterminate_witness :
  compileAttrValues RefScan.C {[ 1%nat := Fixture.atomic NC_CHAR "Char" None ]}
    (Some 1%nat) ["x"]
  = Undefined.
Proof.
  apply (compileAttrValues_char_indeterminate RefScan.C
           {[ 1%nat := Fixture.atomic NC_CHAR "Char" None ]} 1
           (Fixture.atomic NC_CHAR "Char" None) "x" []); reflexivity.
Defined.

(** ** Enumeration constants by name *)

Lemma econst_by_name_first (h : heap) (s : string) (pre : list nat) (ec : nat)
    (post : list nat) (ecn : NCD4node) :
  Forall (fun q => exists qn, h !! q = Some qn /\ name qn <> s) pre ->
  h !! ec = Some ecn -> name ecn = s ->
  econst_by_name h (pre ++ ec :: post) s = Ok (Some ec).
Proof.
  intros Hpre Hec Hname. induction Hpre as [|q pre (qn & Hq & Hne) _ IH].
  - cbn [app econst_by_name]. unfold deref. rewrite Hec. cbn [obind].
    rewrite Hname, String.eqb_refl. reflexivity.
  - cbn [app econst_by_name]. unfold deref at 1. rewrite Hq. cbn [obind].
    destruct (String.eqb_spec (name qn) s) as [Heq | _]; [contradiction|].
    exact IH.
Qed.

(** X5.  The values of an enumeration attribute that are names of declared
    constants are encoded as the values of those constants, each as the
    low bytes of the width of the underlying integer type; a name declared
    twice stands for its first constant. *)
Theorem compileAttrValues_enum_names :
  forall (C : libc) (h : heap) (en base : nat) (enn bn : NCD4node) (w : Z)
         (values : list string) (us : list Z),
    h !! en = Some enn -> subsort enn = NC_ENUM ->
    basetype enn = Some base -> h !! base = Some bn -> sort bn = NCD4_TYPE ->
    exact_bits (subsort bn) = Some w -> meta_id bn = nc_code (subsort bn) ->
    Forall2 (named_constant h (en_econsts enn)) values us ->
    compileAttrValues C h (Some en) values
    = Ok (NC_NOERR,
          Some (flat_map (fun u => map MByte (le_bytes (Z.to_nat (w / 8)) u)) us)).
Proof.
  intros C h en base enn bn w values us Hen Hkind Hbase Hbn Hsort Hw Hid Hvalues.
  unfold compileAttrValues. cbn [deref_opt]. unfold deref at 1. rewrite Hen.
  cbn [obind]. rewrite Hkind.
  change (nc_type_eqb NC_ENUM NC_ENUM) with true. cbv iota.
  rewrite Hbase. cbn [deref_opt]. unfold deref at 1. rewrite Hbn. cbn [obind].
  rewrite Hsort. cbn [ISTYPE negb orb].
  assert (Hat : (meta_id bn >? NC_MAX_ATOMIC_TYPE) = false)
    by (rewrite Hid; destruct (subsort bn); simpl in Hw; try discriminate Hw;
        reflexivity).
  rewrite Hat.
  change (Some (flat_map (fun u => map MByte (le_bytes (Z.to_nat (w / 8)) u)) us))
    with (Some ([] ++ flat_map
                  (fun u => map MByte (le_bytes (Z.to_nat (w / 8)) u)) us)%list).
  generalize (@nil mcell) as memory. generalize AUninit as converter.
  induction Hvalues as [|s u values us Hnamed _ IH]; intros converter memory.
  - cbn [compileAttrValues_loop flat_map]. rewrite app_nil_r. reflexivity.
  - destruct Hnamed as (pre & ec & post & ecn & Hlist & Hpre & Hec & Hname
                        & Hval & Hu).
    cbn [compileAttrValues_loop flat_map]. unfold decodeEconst.
    rewrite Hlist, (econst_by_name_first h s pre ec post ecn Hpre Hec Hname).
    cbn [obind]. unfold deref at 1. rewrite Hec. cbn [obind].
    change (negb (NC_NOERR =? 0)) with false. cbv iota. rewrite Hval.
    rewrite (downConvert_exact_id bn w u Hw Hu). cbn [obind].
    assert (Hcopy : copyAtomic (ABits u) (meta_id bn)
                      (NCD4_typesize (meta_id bn)) memory
                    = Ok (memory ++ map MByte (le_bytes (Z.to_nat (w / 8)) u))%list).
    { unfold copyAtomic. rewrite Hid.
      destruct (subsort bn); simpl in Hw; inversion Hw; subst w; reflexivity. }
    rewrite Hcopy. cbn [obind]. rewrite IH, <- app_assoc. reflexivity.
Qed.

Lemma compileAttrValues_enum_names_witness :
  compileAttrValues RefScan.C Examples.colors_schema (Some 2%nat)
    ["GREEN"; "RED"]
  = Ok (NC_NOERR, Some [MByte 1; MByte 0]).
Proof.
  apply (compileAttrValues_enum_names RefScan.C Examples.colors_schema 2 1
           (Fixture.with_en_econsts [3; 4]%nat
              (Fixture.with_basetype (Some 1%nat)
                 (Fixture.node NCD4_TYPE NC_ENUM "colors" None)))
           (Fixture.atomic NC_BYTE "Int8" None) 8
           ["GREEN"; "RED"] [1; 0]); try reflexivity.
  constructor; [|constructor; [|constructor]].
  - exists [3%nat], 4%nat, [],
      (Fixture.with_en_ecvalue (ABits 1)
         (Fixture.node NCD4_ECONST NC_NAT "GREEN" (Some 2%nat))).
    repeat split; try reflexivity; try lia.
    repeat constructor. eexists. split; [reflexivity | discriminate].
  - exists [], 3%nat, [4%nat],
      (Fixture.with_en_ecvalue (ABits 0)
         (Fixture.node NCD4_ECONST NC_NAT "RED" (Some 2%nat))).
    repeat split; try reflexivity; try lia. constructor.
Defined.

(** ** FQN Namer and the walk to the enclosing group *)

(** X7.  An escaped name is at least as long as the name and at most twice
    as long: the buffer of [1 + 2 * len] bytes that [backslashEscape]
    allocates always suffices. *)
Theorem backslashEscape_length :
  forall s : string,
    (String.length s <= String.length (backslashEscape s)
     <= 2 * String.length s)%nat.
Proof.
  induction s as [|c s IH]; cbn [backslashEscape String.length]; [lia|].
  destruct (escaped_char c); cbn [String.length]; lia.
Qed.

Lemma escaped_char_spec (c : ascii) :
  escaped_char c = true <->
  c = "\"%char \/ c = "/"%char \/ c = "."%char \/ c = "@"%char.
Proof.
  unfold escaped_char.
  destruct (Ascii.eqb_spec c "\"); [tauto|].
  destruct (Ascii.eqb_spec c "/"); [tauto|].
  destruct (Ascii.eqb_spec c "."); [tauto|].
  destruct (Ascii.eqb_spec c "@"); [tauto|].
  simpl. split; [discriminate | tauto].
Qed.

(** X8.  An escaped name holds none of the characters slash, dot and
    at-sign, so that every dot of a name built by [getFieldFQN] from
    escaped components separates two components; and a name without
    backslash, slash, dot and at-sign is its own escape. *)
Theorem backslashEscape_separators :
  forall s : string,
    (forall c, In c (chars (backslashEscape s)) ->
               c <> "/"%char /\ c <> "."%char /\ c <> "@"%char) /\
    ((forall c, In c (chars s) -> escaped_char c = false) ->
     backslashEscape s = s).
Proof.
  induction s as [|c0 s [IHin IHid]]; split.
  - intros c [].
  - reflexivity.
  - intros c. cbn [backslashEscape].
    destruct (escaped_char c0) eqn:Hc0; cbn [chars list_ascii_of_string In].
    + intros [<- | [<- | Hin]]; [repeat split; discriminate ..|].
      exact (IHin c Hin).
    + intros [<- | Hin]; [|exact (IHin c Hin)].
      repeat split; intros ->; discriminate Hc0.
  - intros Hclean. cbn [backslashEscape].
    rewrite (Hclean c0) by (left; reflexivity).
    f_equal. apply IHid. intros c Hin. apply Hclean. right. exact Hin.
Qed.

Lemma string_append_cons (x : ascii) (a b : string) :
  (String x a ++ b = String x (a ++ b))%string.
Proof. reflexivity. Qed.

Lemma string_append_nil_l (a : string) : ("" ++ a = a)%string.
Proof. reflexivity. Qed.

Lemma string_append_assoc (a b c : string) :
  ((a ++ b) ++ c = a ++ (b ++ c))%string.
Proof.
  induction a as [|x a IH]; [reflexivity|].
  rewrite !string_append_cons, IH. reflexivity.
Qed.

Lemma string_append_nil_r (a : string) : (a ++ "" = a)%string.
Proof.
  induction a as [|x a IH]; [reflexivity|].
  rewrite string_append_cons, IH. reflexivity.
Qed.

Lemma concat_dot (x : string) (l : list string) :
  String.concat "." (x :: l)
  = (x ++ String.concat "" (map (fun y => "." ++ y) l))%string.
Proof.
  revert x. induction l as [|y l IH]; intros x.
  - cbn [String.concat map]. rewrite string_append_nil_r. reflexivity.
  - change (String.concat "." (x :: y :: l))
      with (x ++ "." ++ String.concat "." (y :: l))%string.
    rewrite IH. cbn [map]. f_equal.
    destruct l as [|z l].
    + cbn [map String.concat]. rewrite !string_append_nil_r. reflexivity.
    + change (String.concat "" (("." ++ y) :: map (fun y0 => "." ++ y0) (z :: l)))%string
        with (("." ++ y) ++ "" ++ String.concat "" (map (fun y0 => "." ++ y0) (z :: l)))%string.
      rewrite string_append_nil_l, string_append_assoc. reflexivity.
Qed.

Lemma container_chain_head (h : heap) (p : nat) (ns : list nat) (g : nat) :
  container_chain h p ns g = true ->
  match ns with
  | [] =>
      p = g /\ exists n, h !! p = Some n /\ sort n = NCD4_GROUP
  | q :: rest =>
      q = p /\ exists n c, h !! p = Some n /\ ISGROUP (sort n) = false /\
                           container n = Some c /\
                           container_chain h c rest g = true
  end.
Proof.
  destruct ns as [|q rest]; cbn [container_chain]; intros H;
    apply andb_prop in H as [Heq H]; apply Nat.eqb_eq in Heq;
    (split; [congruence|]); destruct (h !! p) as [n|]; try discriminate.
  - exists n. split; [reflexivity|]. destruct (sort n); try discriminate.
    reflexivity.
  - apply andb_prop in H as [Hng H].
    destruct (container n) as [c|] eqn:Hc; [|discriminate].
    exists n, c. repeat split; try assumption.
    destruct (ISGROUP (sort n)); [discriminate | reflexivity].
Qed.

Lemma groupFor_chain (h : heap) :
  forall ns fuel p g,
    container_chain h p ns g = true -> (length ns < fuel)%nat ->
    groupFor fuel h (Some p) = Ok g.
Proof.
  induction ns as [|q rest IH]; intros fuel p g Hchain Hfuel;
    apply container_chain_head in Hchain;
    (destruct fuel as [|k]; [simpl in Hfuel; lia|]);
    cbn [groupFor nonnull obind]; unfold deref.
  - destruct Hchain as (-> & n & -> & Hs). cbn [obind]. rewrite Hs.
    reflexivity.
  - destruct Hchain as (-> & n & c & -> & Hng & Hc & Hrest). cbn [obind].
    rewrite Hc. destruct (sort n); try discriminate Hng;
      apply IH; first [exact Hrest | simpl in Hfuel; lia].
Qed.

Lemma groupFor_step (k : nat) (h : heap) (p : nat) (n : NCD4node) :
  h !! p = Some n ->
  groupFor (S k) h (Some p)
  = if ISGROUP (sort n) then Ok p else groupFor k h (container n).
Proof.
  intros Hp. cbn [groupFor nonnull obind]. unfold deref. rewrite Hp.
  cbn [obind]. destruct (sort n); reflexivity.
Qed.

Lemma groupFor_chain_inv (h : heap) :
  forall fuel p g,
    groupFor fuel h p = Ok g ->
    exists q ns, p = Some q /\ container_chain h q ns g = true /\
                 (length ns < fuel)%nat.
Proof.
  induction fuel as [|k IH]; intros p g Hrun; [discriminate|].
  destruct p as [q|]; [|discriminate].
  destruct (h !! q) as [n|] eqn:Hq;
    [|cbn [groupFor nonnull obind] in Hrun; unfold deref in Hrun;
      rewrite Hq in Hrun; discriminate].
  rewrite (groupFor_step k h q n Hq) in Hrun.
  exists q.
  destruct (ISGROUP (sort n)) eqn:Hs.
  - exists []. inversion Hrun; subst.
    split; [reflexivity|]. cbn [container_chain length].
    rewrite Nat.eqb_refl, Hq, Hs. split; [reflexivity | lia].
  - destruct (IH _ _ Hrun) as (c & ns & Hc & Hchain & Hlen).
    exists (q :: ns). split; [reflexivity|].
    cbn [container_chain length]. rewrite Nat.eqb_refl, Hq, Hs, Hc, Hchain.
    split; [reflexivity | lia].
Qed.

(** The group [groupFor] returns is a group node of the graph. *)
Lemma groupFor_is_group (fuel : nat) (h : heap) (p : option nat) (g : nat) :
  groupFor fuel h p = Ok g ->
  exists gn, h !! g = Some gn /\ sort gn = NCD4_GROUP.
Proof.
  intros Hrun. destruct (groupFor_chain_inv h fuel p g Hrun)
    as (q & ns & _ & Hchain & _).
  clear Hrun. revert q Hchain.
  induction ns as [|x rest IH]; intros q Hchain;
    apply container_chain_head in Hchain.
  - destruct Hchain as (-> & n & Hn & Hs). exists n. auto.
  - destruct Hchain as (_ & n & c & _ & _ & _ & Hrest). exact (IH c Hrest).
Qed.

(** X9.  [groupFor] returns exactly the first group on the chain of
    container back-references: it returns [g] if and only if the walk
    from the node passes nodes that are no groups, fewer than the bound on
    the iterations, and then reaches the group [g]. *)
Theorem groupFor_first_group :
  forall (fuel : nat) (h : heap) (p g : nat),
    groupFor fuel h (Some p) = Ok g <->
    exists ns, container_chain h p ns g = true /\ (length ns < fuel)%nat.
Proof.
  intros fuel h p g. split.
  - intros Hrun. destruct (groupFor_chain_inv h fuel _ g Hrun)
      as (q & ns & Hq & Hchain & Hlen).
    inversion Hq; subst q. exists ns. auto.
  - intros (ns & Hchain & Hlen). exact (groupFor_chain h ns fuel p g Hchain Hlen).
Qed.

Lemma container_chain_nodes (h : heap) :
  forall ns p g,
    container_chain h p ns g = true ->
    Forall (fun q => exists n, h !! q = Some n) ns.
Proof.
  induction ns as [|q rest IH]; intros p g Hchain; [constructor|].
  apply container_chain_head in Hchain
    as (-> & n & c & Hn & _ & _ & Hrest).
  constructor; [exists n; exact Hn | exact (IH c g Hrest)].
Qed.

Lemma fieldPath_chain (h : heap) :
  forall ns fuel p g acc,
    container_chain h p ns g = true -> (length ns < fuel)%nat ->
    fieldPath fuel h (Some p) acc = Ok (rev ns ++ acc)%list.
Proof.
  induction ns as [|q rest IH]; intros fuel p g acc Hchain Hfuel;
    apply container_chain_head in Hchain;
    (destruct fuel as [|k]; [simpl in Hfuel; lia|]);
    cbn [fieldPath nonnull obind]; unfold deref.
  - destruct Hchain as (-> & n & -> & Hs). cbn [obind]. rewrite Hs.
    reflexivity.
  - destruct Hchain as (-> & n & c & -> & Hng & Hc & Hrest). cbn [obind].
    rewrite Hng, Hc. rewrite (IH k c g (p :: acc) Hrest)
      by (simpl in Hfuel; lia).
    cbn [rev]. rewrite <- app_assoc. reflexivity.
Qed.

Lemma fieldJoin_rest (h : heap) :
  forall path fqn,
    Forall (fun q => exists n, h !! q = Some n) path ->
    fieldJoin h path false fqn
    = Ok (fqn ++ String.concat ""
                   (map (fun q => "." ++ backslashEscape (node_name h q))
                        path))%string.
Proof.
  induction path as [|x l IH]; intros fqn Hall.
  - cbn [fieldJoin map String.concat]. rewrite string_append_nil_r.
    reflexivity.
  - inversion Hall as [|? ? [n Hn] Hl]; subst.
    cbn [fieldJoin]. unfold deref. rewrite Hn. cbn [obind].
    assert (Hname : node_name h x = name n)
      by (unfold node_name; rewrite Hn; reflexivity).
    rewrite <- Hname, (IH _ Hl). f_equal.
    cbn [map]. rewrite !string_append_assoc. f_equal.
    destruct l as [|y l].
    + cbn [map String.concat]. rewrite !string_append_nil_r. reflexivity.
    + cbn [map String.concat]. rewrite string_append_nil_l.
      rewrite !string_append_assoc. reflexivity.
Qed.

Lemma fieldJoin_components (h : heap) (path : list nat) :
  Forall (fun q => exists n, h !! q = Some n) path ->
  fieldJoin h path true ""
  = Ok (String.concat "."
          (map (fun q => backslashEscape (node_name h q)) path)).
Proof.
  destruct path as [|x l]; intros Hall; [reflexivity|].
  inversion Hall as [|? ? [n Hn] Hl]; subst.
  cbn [fieldJoin]. unfold deref. rewrite Hn. cbn [obind].
  assert (Hname : node_name h x = name n)
    by (unfold node_name; rewrite Hn; reflexivity).
  rewrite <- Hname, (fieldJoin_rest h l _ Hl). cbn [map]. rewrite concat_dot.
  rewrite string_append_nil_l, map_map. reflexivity.
Qed.

(** X10.  For a field whose chain of containers passes the nodes [ns]
    (the field first) before it reaches a group, [getFieldFQN] returns
    the escaped names of these nodes, outermost first, separated by single
    dots and followed by the tail; the group itself contributes nothing. *)
Theorem getFieldFQN_path :
  forall (fuel : nat) (h : heap) (field g : nat) (ns : list nat)
         (tail : string),
    container_chain h field ns g = true ->
    (length ns < fuel)%nat ->
    getFieldFQN fuel h field tail
    = Ok (String.concat "."
            (map (fun q => backslashEscape (node_name h q)) (rev ns))
          ++ tail)%string.
Proof.
  intros fuel h field g ns tail Hchain Hfuel. unfold getFieldFQN.
  rewrite (fieldPath_chain h ns fuel field g [] Hchain Hfuel).
  cbn [obind]. rewrite app_nil_r.
  rewrite fieldJoin_components; [reflexivity|].
  apply Forall_rev. exact (container_chain_nodes h ns field g Hchain).
Qed.

Lemma getFieldFQN_path_witness :
  getFieldFQN 5 Examples.composite_schema 3 "_t"
  = Ok (String.concat "."
          (map (fun q => backslashEscape (node_name Examples.composite_schema q))
               (rev [3; 2]%nat))
        ++ "_t")%string.
Proof.
  apply (getFieldFQN_path 5 Examples.composite_schema 3 0 [3; 2]%nat "_t").
  - vm_compute. reflexivity.
  - simpl. lia.
Defined.

(** ** The fix-up of the atomic types *)

Lemma fixup_node_idem (n : NCD4node) : fixup_node (fixup_node n) = fixup_node n.
Proof.
  unfold fixup_node.
  destruct (ISTYPE (sort n) && (nc_code (subsort n) <=? NC_MAX_ATOMIC_TYPE))
    eqn:Hc; [|rewrite Hc; reflexivity].
  cbn [set_meta_id sort subsort]. rewrite Hc. reflexivity.
Qed.

Lemma fixup_atomic_step (p : nat) (rest : list nat) (h : heap) (n : NCD4node) :
  h !! p = Some n ->
  fixup_atomic (p :: rest) h = fixup_atomic rest (alter fixup_node p h).
Proof.
  intros Hp. cbn [fixup_atomic]. unfold deref. rewrite Hp. cbn [obind].
  assert (Hlt : (nc_code (subsort n) >? NC_MAX_ATOMIC_TYPE)
                = negb (nc_code (subsort n) <=? NC_MAX_ATOMIC_TYPE)).
  { rewrite Z.gtb_ltb, Z.leb_antisym, negb_involutive. reflexivity. }
  rewrite Hlt.
  assert (Hsame : forall f, f n = n -> alter f p h = h).
  { intros f Hf. apply map_eq. intros x.
    destruct (decide (p = x)) as [<- | Hne].
    - rewrite lookup_alter_eq, Hp. cbn. rewrite Hf. reflexivity.
    - rewrite lookup_alter_ne by exact Hne. reflexivity. }
  assert (Hfix : forall f, f n = fixup_node n ->
                           alter f p h = alter fixup_node p h).
  { intros f Hf. apply map_eq. intros x.
    destruct (decide (p = x)) as [<- | Hne].
    - rewrite !lookup_alter_eq, Hp. cbn. rewrite Hf. reflexivity.
    - rewrite !lookup_alter_ne by exact Hne. reflexivity. }
  destruct (ISTYPE (sort n)) eqn:Hs; cbn [negb].
  - destruct (nc_code (subsort n) <=? NC_MAX_ATOMIC_TYPE) eqn:Hle; cbn [negb].
    + unfold write_meta_id. f_equal. apply Hfix. unfold fixup_node.
      rewrite Hs, Hle. reflexivity.
    + f_equal. symmetry. apply Hsame. unfold fixup_node.
      rewrite Hs, Hle. reflexivity.
  - f_equal. symmetry. apply Hsame. unfold fixup_node. rewrite Hs.
    reflexivity.
Qed.

Lemma fixup_atomic_lookup :
  forall (nodes : list nat) (h : heap),
    (forall p, In p nodes -> exists n, h !! p = Some n) ->
    exists h', fixup_atomic nodes h = Ok h' /\
      forall x,
        h' !! x = if existsb (Nat.eqb x) nodes
                  then option_map fixup_node (h !! x) else h !! x.
Proof.
  induction nodes as [|p rest IH]; intros h Hin.
  - exists h. split; reflexivity.
  - destruct (Hin p (or_introl eq_refl)) as [n Hp].
    rewrite (fixup_atomic_step p rest h n Hp).
    destruct (IH (alter fixup_node p h)) as (h' & Hrun & Hlook).
    { intros q Hq. destruct (Hin q (or_intror Hq)) as [qn Hqn].
      destruct (decide (p = q)) as [<- | Hne].
      - rewrite lookup_alter_eq, Hp. eexists. reflexivity.
      - rewrite lookup_alter_ne by exact Hne. eexists. exact Hqn. }
    exists h'. split; [exact Hrun|]. intros x. rewrite Hlook.
    cbn [existsb]. destruct (Nat.eqb_spec x p) as [-> | Hne]; cbn [orb].
    + rewrite lookup_alter_eq, Hp. cbn.
      destruct (existsb (Nat.eqb p) rest); cbn;
        rewrite ?fixup_node_idem; reflexivity.
    + rewrite lookup_alter_ne by congruence. reflexivity.
Qed.

Lemma all_listed_sound (h : heap) (nodes : list nat) :
  all_listed h nodes = true ->
  forall t n, h !! t = Some n -> existsb (Nat.eqb t) nodes = true.
Proof.
  unfold all_listed. rewrite forallb_forall. intros Hall t n Ht.
  apply elem_of_map_to_list, list_elem_of_In in Ht.
  exact (Hall _ Ht).
Qed.

(** X11.  When the list of all nodes holds exactly the nodes of the graph,
    the fix-up loop of [NCD4_metabuild] returns, leaves every atomic type
    node with its kind as store id (the state [fixed_up] that the offset
    computation relies on), and changes nothing else: each node is the
    node it was, with its id slot set when it is an atomic type. *)
Theorem fixup_atomic_establishes_fixed_up :
  forall (nodes : list nat) (h : heap),
    (forall p, In p nodes -> exists n, h !! p = Some n) ->
    all_listed h nodes = true ->
    exists h',
      fixup_atomic nodes h = Ok h' /\
      fixed_up h' /\
      (forall x, h' !! x = option_map fixup_node (h !! x)) /\
      same_structure h h'.
Proof.
  intros nodes h Hin Hall.
  destruct (fixup_atomic_lookup nodes h Hin) as (h' & Hrun & Hlook).
  assert (Hall' : forall x, h' !! x = option_map fixup_node (h !! x)).
  { intros x. rewrite Hlook. destruct (h !! x) as [n|] eqn:Hx.
    - rewrite (all_listed_sound h nodes Hall x n Hx). reflexivity.
    - destruct (existsb (Nat.eqb x) nodes); reflexivity. }
  exists h'. split; [exact Hrun|]. split; [|split; [exact Hall'|]].
  - intros t n Ht Hsort Hle. rewrite Hall' in Ht.
    destruct (h !! t) as [n0|]; [|discriminate]. cbn in Ht.
    inversion Ht as [Hn]. clear Ht. unfold fixup_node in *.
    destruct (ISTYPE (sort n0) && (nc_code (subsort n0) <=? NC_MAX_ATOMIC_TYPE))
      eqn:Hc.
    + reflexivity.
    + subst n. rewrite Hsort in Hc. cbn [ISTYPE andb] in Hc.
      apply Z.leb_gt in Hc. lia.
  - intros x. rewrite Hall'. destruct (h !! x) as [n|]; [|reflexivity].
    cbn. f_equal. unfold fixup_node.
    destruct (ISTYPE (sort n) && (nc_code (subsort n) <=? NC_MAX_ATOMIC_TYPE));
      reflexivity.
Qed.

Lemma fixup_atomic_establishes_fixed_up_witness :
  exists h',
    fixup_atomic [0; 1; 3; 4; 2]%nat Examples.raw_schema = Ok h' /\
    fixed_up h' /\
    (forall x, h' !! x = option_map fixup_node (Examples.raw_schema !! x)) /\
    same_structure Examples.raw_schema h'.
Proof.
  apply (fixup_atomic_establishes_fixed_up [0; 1; 3; 4; 2]%nat
           Examples.raw_schema).
  - intros p Hp. cbn [In] in Hp.
    destruct Hp as [<- | [<- | [<- | [<- | [<- | []]]]]];
      vm_compute; eexists; reflexivity.
  - vm_compute. reflexivity.
Defined.

(** ** What the passes change in the graph *)

Section OffsetsRelation.

Variable R : heap -> heap -> Prop.
Hypothesis R_refl : forall h, R h h.
Hypothesis R_trans : forall h1 h2 h3, R h1 h2 -> R h2 h3 -> R h1 h3.
Hypothesis R_write : forall p v h, R h (write_meta_offset p v h).

Lemma computeOffsets_loop_rel
    (offsets : nat -> heap -> outcome heap)
    (typesize : heap -> option nat -> outcome Z) :
  (forall c h h', offsets c h = Ok h' -> R h h') ->
  forall fields off h off' h',
    computeOffsets_loop offsets typesize fields off h = Ok (off', h') ->
    R h h'.
Proof.
  intros Hoff. induction fields as [|f rest IH]; intros off h off' h' Hrun.
  - inversion Hrun. apply R_refl.
  - cbn [computeOffsets_loop] in Hrun. inv_bind Hrun.
    match type of Hrun with
    | obind ?c _ = _ => destruct c as [[size h1]| |] eqn:Hsize
    end; cbn [obind] in Hrun; try discriminate.
    apply (R_trans h h1); [|eapply R_trans; [apply R_write | exact (IH _ _ _ _ Hrun)]].
    destruct (subsort a);
      try (inv_bind Hsize; inversion Hsize; subst; apply R_refl);
      try (inversion Hsize; subst; apply R_refl).
    inv_bind Hsize. inv_bind Hsize. inv_bind Hsize. inversion Hsize; subst.
    eapply Hoff; eassumption.
Qed.

Lemma computeOffsets_rel :
  forall fuel c h h', computeOffsets fuel c h = Ok h' -> R h h'.
Proof.
  induction fuel as [|k IH]; intros c h h' Hrun; [discriminate|].
  cbn [computeOffsets] in Hrun. inv_bind Hrun.
  match type of Hrun with
  | obind ?c _ = _ => destruct c as [[off h1]| |] eqn:Hloop
  end; cbn [obind] in Hrun; try discriminate.
  inversion Hrun; subst. eapply R_trans; [|apply R_write].
  exact (computeOffsets_loop_rel _ _ IH _ _ _ _ _ Hloop).
Qed.

End OffsetsRelation.

Lemma same_but_offsets_refl (h : heap) : same_but_offsets h h.
Proof. intros x. reflexivity. Qed.

Lemma same_but_offsets_trans (h1 h2 h3 : heap) :
  same_but_offsets h1 h2 -> same_but_offsets h2 h3 -> same_but_offsets h1 h3.
Proof. intros H12 H23 x. rewrite H23, H12. reflexivity. Qed.

Lemma same_but_offsets_write (p : nat) (v : Z) (h : heap) :
  same_but_offsets h (write_meta_offset p v h).
Proof.
  intros x. unfold write_meta_offset. destruct (decide (p = x)) as [<- | Hne].
  - rewrite lookup_alter_eq. destruct (h !! p); reflexivity.
  - rewrite lookup_alter_ne by exact Hne. reflexivity.
Qed.

(** X12.  [computeOffsets] writes offset slots and nothing else: in the
    graph it returns, every node is the node it was up to the content of
    its offset slot, and no node is added or removed. *)
Theorem computeOffsets_writes_offsets_only :
  forall (fuel : nat) (cmpd : nat) (h h' : heap),
    computeOffsets fuel cmpd h = Ok h' -> same_but_offsets h h'.
Proof.
  intros fuel cmpd h h'.
  exact (computeOffsets_rel same_but_offsets same_but_offsets_refl
           same_but_offsets_trans same_but_offsets_write fuel cmpd h h').
Qed.

Lemma computeOffsets_writes_offsets_only_witness :
  exists h' : heap,
    computeOffsets 3 10 Examples.layout_schema = Ok h' /\
    same_but_offsets Examples.layout_schema h'.
Proof.
  eexists. split; [vm_compute; reflexivity|].
  apply (computeOffsets_writes_offsets_only 3 10 Examples.layout_schema).
  vm_compute. reflexivity.
Defined.

Lemma same_structure_refl (h : heap) : same_structure h h.
Proof. intros x. reflexivity. Qed.

Lemma same_structure_trans (h1 h2 h3 : heap) :
  same_structure h1 h2 -> same_structure h2 h3 -> same_structure h1 h3.
Proof. intros H12 H23 x. rewrite H23, H12. reflexivity. Qed.

Lemma same_structure_alter (f : NCD4node -> NCD4node) (p : nat) (h0 h : heap) :
  (forall n, erase_slots (f n) = erase_slots n) ->
  same_structure h0 h -> same_structure h0 (alter f p h).
Proof.
  intros Hf Hsame x. rewrite <- (Hsame x).
  destruct (decide (p = x)) as [<- | Hne].
  - rewrite lookup_alter_eq. destruct (h !! p); cbn; [rewrite Hf|]; reflexivity.
  - rewrite lookup_alter_ne by exact Hne. reflexivity.
Qed.

Lemma same_structure_write_id (p : nat) (v : Z) (h0 h : heap) :
  same_structure h0 h -> same_structure h0 (write_meta_id p v h).
Proof. apply same_structure_alter. reflexivity. Qed.

Lemma same_structure_write_cmpdid (p : nat) (v : Z) (h0 h : heap) :
  same_structure h0 h -> same_structure h0 (write_meta_cmpdid p v h).
Proof. apply same_structure_alter. reflexivity. Qed.

Lemma same_structure_write_offset (p : nat) (v : Z) (h0 h : heap) :
  same_structure h0 h -> same_structure h0 (write_meta_offset p v h).
Proof. apply same_structure_alter. reflexivity. Qed.

Lemma same_structure_computeOffsets (fuel cmpd : nat) (h0 h h' : heap) :
  same_structure h0 h -> computeOffsets fuel cmpd h = Ok h' ->
  same_structure h0 h'.
Proof.
  intros Hsame Hrun. apply (same_structure_trans h0 h h' Hsame).
  apply (computeOffsets_rel same_structure same_structure_refl
           same_structure_trans
           (fun p v h1 => same_structure_write_offset p v h1 h1
                            (same_structure_refl h1))
           fuel cmpd h h' Hrun).
Qed.

Section StructureKept.

Context {Store : Type} (E : externals Store).
Variable h0 : heap.

Lemma keeps_Ok (ret : Z) (st : BState Store) :
  same_structure h0 (st_heap st) -> keeps_structure h0 (Ok (ret, st)).
Proof. intros Hsame ret' st' Heq. inversion Heq; subst. exact Hsame. Qed.

Lemma keeps_done (st : BState Store) :
  same_structure h0 (st_heap st) -> keeps_structure h0 (done st).
Proof. apply keeps_Ok. Qed.

Lemma keeps_bind {A : Type} (c : outcome A)
    (k : A -> outcome (Z * BState Store)) :
  (forall a, c = Ok a -> keeps_structure h0 (k a)) ->
  keeps_structure h0 (obind c k).
Proof.
  intros Hk ret st' Hrun. destruct c as [a| |]; try discriminate.
  exact (Hk a eq_refl ret st' Hrun).
Qed.

Lemma keeps_NCCHECK (r : Z * BState Store)
    (k : BState Store -> outcome (Z * BState Store)) :
  same_structure h0 (st_heap (snd r)) ->
  (forall st1, same_structure h0 (st_heap st1) -> keeps_structure h0 (k st1)) ->
  keeps_structure h0 (NCCHECK r k).
Proof.
  intros Hr Hk ret st' Hrun. destruct r as [ret0 st0]. cbn [NCCHECK] in Hrun.
  destruct (negb (ret0 =? 0)).
  - inversion Hrun; subst. exact Hr.
  - exact (Hk st0 Hr ret st' Hrun).
Qed.

Lemma keeps_CHECKED (c : outcome (Z * BState Store))
    (k : BState Store -> outcome (Z * BState Store)) :
  keeps_structure h0 c ->
  (forall st1, same_structure h0 (st_heap st1) -> keeps_structure h0 (k st1)) ->
  keeps_structure h0 (CHECKED c k).
Proof.
  intros Hc Hk. unfold CHECKED. apply keeps_bind. intros [ret0 st0] Hrun.
  apply keeps_NCCHECK; [exact (Hc ret0 st0 Hrun) | exact Hk].
Qed.

Lemma issue_heap (c : Call) (st : BState Store) :
  st_heap (snd (issue E c st)) = st_heap st.
Proof. rewrite issue_eq. reflexivity. Qed.

Lemma same_perform (c : Call) (st : BState Store) :
  same_structure h0 (st_heap st) ->
  same_structure h0 (st_heap (snd (perform E c st))).
Proof. rewrite perform_eq. intros H. exact H. Qed.

Lemma same_define (c : Call) (node : nat) (st : BState Store) :
  same_structure h0 (st_heap st) ->
  same_structure h0 (st_heap (snd (define E c node st))).
Proof.
  intros Hsame. unfold define. rewrite issue_eq.
  destruct (_ =? 0); cbn [snd with_heap st_heap];
    [apply same_structure_write_id|]; exact Hsame.
Qed.

Lemma same_with_heap_id (p : nat) (v : Z) (st : BState Store) :
  same_structure h0 (st_heap st) ->
  same_structure h0 (st_heap (with_heap (write_meta_id p v) st)).
Proof. intros H. apply same_structure_write_id. exact H. Qed.

Ltac keeps_step :=
  match goal with
  | |- keeps_structure _ (done _) => apply keeps_done
  | |- keeps_structure _ (Ok (_, _)) => apply keeps_Ok
  | |- keeps_structure _ (obind _ _) => apply keeps_bind; intros
  | |- keeps_structure _ (NCCHECK _ _) => apply keeps_NCCHECK; [|intros]
  | |- keeps_structure _ (CHECKED _ _) => apply keeps_CHECKED; [|intros]
  | |- keeps_structure _ (if ?b then _ else _) => destruct b
  | |- keeps_structure _ (match ?x with _ => _ end) => destruct x
  | |- same_structure _ (st_heap (snd (define _ _ _ _))) => apply same_define
  | |- same_structure _ (st_heap (snd (perform _ _ _))) => apply same_perform
  | |- same_structure _ (st_heap (with_heap (write_meta_id _ _) _)) =>
      apply same_with_heap_id
  | |- same_structure _ (st_heap (with_heap (write_meta_cmpdid _ _) _)) =>
      apply same_structure_write_cmpdid
  | |- same_structure _ (st_heap (snd (if ?b then _ else _))) => destruct b
  | |- same_structure _ (st_heap (snd (_, _))) => cbn [snd]
  | |- same_structure _ _ => assumption
  end.

Ltac keeps_all := cbv zeta; repeat keeps_step.

Lemma buildGroups_keeps :
  forall fuel builder parent st,
    same_structure h0 (st_heap st) ->
    keeps_structure h0 (buildGroups E fuel builder parent st).
Proof.
  induction fuel as [|k IH]; intros builder parent st Hsame;
    [intros ? ? H; discriminate|].
  cbn [buildGroups]. apply keeps_bind. intros p _.
  generalize (groups p). intros gs. revert st Hsame.
  induction gs as [|g rest IHgs]; intros st Hsame; keeps_all.
  - apply IH. assumption.
  - apply IHgs. assumption.
Qed.

Lemma buildDimension_keeps fuel dim st :
  same_structure h0 (st_heap st) ->
  keeps_structure h0 (buildDimension E fuel dim st).
Proof. intros Hsame. unfold buildDimension. keeps_all. Qed.

Lemma buildEnumeration_consts_keeps group en :
  forall econsts st,
    same_structure h0 (st_heap st) ->
    keeps_structure h0 (buildEnumeration_consts E group en econsts st).
Proof.
  induction econsts as [|ec rest IH]; intros st Hsame;
    cbn [buildEnumeration_consts]; keeps_all.
  apply IH. assumption.
Qed.

Lemma buildEnumeration_keeps fuel en st :
  same_structure h0 (st_heap st) ->
  keeps_structure h0 (buildEnumeration E fuel en st).
Proof.
  intros Hsame. unfold buildEnumeration. keeps_all.
  apply buildEnumeration_consts_keeps. assumption.
Qed.

Lemma buildOpaque_keeps fuel builder op st :
  same_structure h0 (st_heap st) ->
  keeps_structure h0 (buildOpaque E fuel builder op st).
Proof. intros Hsame. unfold buildOpaque. keeps_all. Qed.

Lemma buildCompound_fields_keeps cmpdtype group :
  forall fields st,
    same_structure h0 (st_heap st) ->
    keeps_structure h0 (buildCompound_fields E cmpdtype group fields st).
Proof.
  induction fields as [|f rest IH]; intros st Hsame;
    cbn [buildCompound_fields]; keeps_all; apply IH; assumption.
Qed.

Lemma buildCompound_keeps fuel cmpdtype group nm st :
  same_structure h0 (st_heap st) ->
  keeps_structure h0 (buildCompound E fuel cmpdtype group nm st).
Proof.
  intros Hsame. unfold buildCompound. apply keeps_bind. intros h1 Hoff.
  assert (Hsame1 : same_structure h0 h1)
    by exact (same_structure_computeOffsets _ _ _ _ _ Hsame Hoff).
  keeps_all. apply buildCompound_fields_keeps. assumption.
Qed.

Lemma keeps_issue (c : Call) (st : BState Store)
    (k : Z * Z * BState Store -> outcome (Z * BState Store)) :
  same_structure h0 (st_heap st) ->
  (forall probe tid st1, same_structure h0 (st_heap st1) ->
                         keeps_structure h0 (k (probe, tid, st1))) ->
  keeps_structure h0 (k (issue E c st)).
Proof.
  intros Hsame Hk. pose proof (issue_heap c st) as Hheap.
  destruct (issue E c st) as [[probe tid] st1]. cbn [snd] in Hheap.
  apply Hk. rewrite Hheap. exact Hsame.
Qed.

Lemma buildStructureType_keeps fuel structtype st :
  same_structure h0 (st_heap st) ->
  keeps_structure h0 (buildStructureType E fuel structtype st).
Proof.
  intros Hsame. unfold buildStructureType. cbv zeta.
  apply keeps_bind; intros g _. apply keeps_bind; intros sn _.
  apply keeps_bind; intros [nm group] _. apply keeps_bind; intros gn _.
  apply (keeps_issue _ _
           (fun r => let '(probe, tid, st1) := r in _)); [exact Hsame|].
  intros probe tid st1 Hsame1. keeps_all.
  apply buildCompound_keeps. assumption.
Qed.

Lemma buildSequenceType_keeps fuel seqtype st :
  same_structure h0 (st_heap st) ->
  keeps_structure h0 (buildSequenceType E fuel seqtype st).
Proof.
  intros Hsame. unfold buildSequenceType. cbv zeta.
  apply keeps_bind; intros g _. apply keeps_bind; intros sn _.
  apply keeps_bind; intros [[vlen cmpd] group] _.
  apply keeps_bind; intros gn _.
  apply (keeps_issue _ _
           (fun r => let '(probe, tid, st1) := r in _)); [exact Hsame|].
  intros probe tid st1 Hsame1. keeps_all.
  apply buildCompound_keeps. assumption.
Qed.

Lemma buildAttributes_loop_keeps fuel varorgroup :
  forall attrs st,
    same_structure h0 (st_heap st) ->
    keeps_structure h0 (buildAttributes_loop E fuel varorgroup attrs st).
Proof.
  induction attrs as [|a rest IH]; intros st Hsame;
    cbn [buildAttributes_loop]; keeps_all; apply IH; assumption.
Qed.

Lemma buildMaps_loop_keeps var :
  forall fuel i st,
    same_structure h0 (st_heap st) ->
    keeps_structure h0 (buildMaps_loop E fuel i var st).
Proof.
  induction fuel as [|k IH]; intros i st Hsame;
    [intros ? ? H; discriminate|].
  cbn [buildMaps_loop]. keeps_all. apply IH. assumption.
Qed.

Lemma buildMetaData_keeps fuel var st :
  same_structure h0 (st_heap st) ->
  keeps_structure h0 (buildMetaData E fuel var st).
Proof.
  intros Hsame. unfold buildMetaData, buildAttributes, buildMaps. keeps_all.
  - apply buildAttributes_loop_keeps. assumption.
  - apply buildMaps_loop_keeps. assumption.
Qed.

Lemma buildVariable_keeps fuel var st :
  same_structure h0 (st_heap st) ->
  keeps_structure h0 (buildVariable E fuel var st).
Proof.
  intros Hsame.
  unfold buildVariable, buildStructure, buildSequence, buildAtomicVar.
  keeps_all; apply buildMetaData_keeps; assumption.
Qed.

Lemma build_switch_keeps fuel builder x st :
  same_structure h0 (st_heap st) ->
  keeps_structure h0 (build_switch E fuel builder x st).
Proof.
  intros Hsame. unfold build_switch. apply keeps_bind. intros xn _.
  destruct (sort xn); try (apply keeps_done; assumption);
    [apply buildDimension_keeps; assumption|].
  destruct (subsort xn);
    first [ apply keeps_done; assumption
          | apply buildOpaque_keeps; assumption
          | apply buildEnumeration_keeps; assumption
          | apply buildSequenceType_keeps; assumption
          | apply buildStructureType_keeps; assumption ].
Qed.

Lemma build_types_keeps fuel builder :
  forall nodes st,
    same_structure h0 (st_heap st) ->
    keeps_structure h0 (build_types E fuel builder nodes st).
Proof.
  induction nodes as [|x rest IH]; intros st Hsame; cbn [build_types].
  - apply keeps_done. assumption.
  - apply keeps_CHECKED; [apply build_switch_keeps; assumption|].
    intros st1 Hsame1. apply IH. assumption.
Qed.

Lemma build_variables_keeps fuel :
  forall nodes st st',
    same_structure h0 (st_heap st) ->
    build_variables E fuel nodes st = Ok st' ->
    same_structure h0 (st_heap st').
Proof.
  induction nodes as [|x rest IH]; intros st st' Hsame Hrun;
    cbn [build_variables] in Hrun.
  - inversion Hrun; subst. exact Hsame.
  - inv_bind Hrun. inv_bind Hrun.
    match type of Hrun with
    | (if ?b then _ else _) = _ => destruct b
    end.
    + match type of Hrun with
      | obind ?c _ = _ => destruct c as [[ret1 st1]| |] eqn:Hvar
      end; cbn [obind] in Hrun; try discriminate.
      apply (IH st1 st'); [|exact Hrun].
      exact (buildVariable_keeps fuel x st Hsame ret1 st1 Hvar).
    + exact (IH st st' Hsame Hrun).
Qed.

Lemma build_keeps fuel builder rt st :
  same_structure h0 (st_heap st) ->
  keeps_structure h0 (build E fuel builder rt st).
Proof.
  intros Hsame. unfold build.
  apply keeps_CHECKED; [apply buildGroups_keeps; assumption|].
  intros st1 Hsame1.
  apply keeps_CHECKED; [apply build_types_keeps; assumption|].
  intros st2 Hsame2. apply keeps_bind. intros st3 Hvars.
  apply keeps_Ok. exact (build_variables_keeps _ _ _ _ Hsame2 Hvars).
Qed.

Lemma fixup_atomic_keeps :
  forall nodes h h',
    same_structure h0 h -> fixup_atomic nodes h = Ok h' ->
    same_structure h0 h'.
Proof.
  induction nodes as [|p rest IH]; intros h h' Hsame Hrun;
    cbn [fixup_atomic] in Hrun.
  - inversion Hrun; subst. exact Hsame.
  - inv_bind Hrun. destruct (negb (ISTYPE (sort a))).
    + exact (IH _ _ Hsame Hrun).
    + destruct (nc_code (subsort a) >? NC_MAX_ATOMIC_TYPE).
      * exact (IH _ _ Hsame Hrun).
      * apply (IH _ _ (same_structure_write_id _ _ _ _ Hsame) Hrun).
Qed.

End StructureKept.

(** X13.  The build pass leaves the tree as the parser made it: whatever
    status [NCD4_metabuild] returns, every node of the graph it leaves is
    the node it was up to the content of its build-result slots (store id,
    compound id, offset); no node is added, removed, renamed or
    re-linked. *)
Theorem NCD4_metabuild_keeps_structure :
  forall {Store : Type} (E : externals Store) (fuel : nat)
         (metadata : NCD4meta) (ncid_ : Z) (st st' : BState Store) (ret : Z),
    NCD4_metabuild E fuel metadata ncid_ st = Ok (ret, st') ->
    same_structure (st_heap st) (st_heap st').
Proof.
  intros Store E fuel metadata ncid_ st st' ret Hrun.
  unfold NCD4_metabuild in Hrun. cbv zeta in Hrun. cbn [root allnodes] in Hrun.
  inv_bind Hrun. inv_bind Hrun.
  refine (build_keeps E (st_heap st) _ _ _ _ _ ret st' Hrun).
  unfold with_heap. cbn [st_heap].
  refine (fixup_atomic_keeps (st_heap st) _ _ _ _ Hrun1).
  apply same_structure_write_id. apply same_structure_refl.
Qed.

Lemma NCD4_metabuild_keeps_structure_witness :
  same_structure Examples.raw_schema
    (st_heap
       (final_state (RefStore.start Examples.raw_schema)
          (NCD4_metabuild (RefStore.ext RefStore.no_failure) 4
             Examples.raw_meta 7 (RefStore.start Examples.raw_schema)))).
Proof.
  apply (NCD4_metabuild_keeps_structure (RefStore.ext RefStore.no_failure) 4
           Examples.raw_meta 7 (RefStore.start Examples.raw_schema) _
           NC_NOERR).
  vm_compute. reflexivity.
Defined.

(** ** The first loop of [build] *)

Section FirstLoop.

Context {Store : Type} (E : externals Store).

Lemma CHECKED_assoc (c : outcome (Z * BState Store))
    (k1 k2 : BState Store -> outcome (Z * BState Store)) :
  CHECKED (CHECKED c k1) k2 = CHECKED c (fun st => CHECKED (k1 st) k2).
Proof.
  unfold CHECKED. destruct c as [[ret st]| |]; cbn [obind NCCHECK];
    try reflexivity.
  destruct (negb (ret =? 0)) eqn:Hret; [|reflexivity].
  cbn [obind NCCHECK]. rewrite Hret. reflexivity.
Qed.

Lemma CHECKED_ok (st : BState Store)
    (k : BState Store -> outcome (Z * BState Store)) :
  CHECKED (Ok (NC_NOERR, st)) k = k st.
Proof. reflexivity. Qed.

Lemma CHECKED_failed (ret : Z) (st : BState Store)
    (k : BState Store -> outcome (Z * BState Store)) :
  ret <> 0 -> CHECKED (Ok (ret, st)) k = Ok (ret, st).
Proof.
  intros Hret. unfold CHECKED. cbn [obind NCCHECK].
  destruct (Z.eqb_spec ret 0) as [Heq | _]; [contradiction | reflexivity].
Qed.

Lemma build_types_app (fuel : nat) (builder : NCD4meta) :
  forall (l1 l2 : list nat) (st : BState Store),
    build_types E fuel builder (l1 ++ l2) st
    = CHECKED (build_types E fuel builder l1 st)
        (build_types E fuel builder l2).
Proof.
  induction l1 as [|x l1 IH]; intros l2 st.
  - reflexivity.
  - cbn [build_types app]. rewrite CHECKED_assoc.
    destruct (build_switch E fuel builder x st) as [[ret st1]| |];
      try reflexivity.
    destruct (Z.eqb_spec ret 0) as [-> | Hne].
    + rewrite !CHECKED_ok. apply IH.
    + rewrite !CHECKED_failed by exact Hne. reflexivity.
Qed.

End FirstLoop.

(** X14.  A dimension or a type that cannot be built ends the build: when
    the groups are defined and the nodes before [x] in the list of all
    nodes are built, and the step for [x] returns a non-zero status, then
    [build] returns this status in the state the failing step left.  No
    later type is attempted and no variable is defined. *)
Theorem build_stops_at_first_type_failure :
  forall {Store : Type} (E : externals Store) (fuel : nat)
         (builder : NCD4meta) (rt : nat) (st st1 st2 st3 : BState Store)
         (l1 l2 : list nat) (x : nat) (ret : Z),
    buildGroups E fuel builder rt st = Ok (NC_NOERR, st1) ->
    allnodes builder = (l1 ++ x :: l2)%list ->
    build_types E fuel builder l1 st1 = Ok (NC_NOERR, st2) ->
    build_switch E fuel builder x st2 = Ok (ret, st3) ->
    ret <> 0 ->
    build E fuel builder rt st = Ok (ret, st3).
Proof.
  intros Store E fuel builder rt st st1 st2 st3 l1 l2 x ret
    Hgroups Hnodes Htypes Hstep Hret.
  unfold build. rewrite Hgroups, CHECKED_ok, Hnodes, build_types_app, Htypes.
  rewrite CHECKED_ok. cbn [build_types]. rewrite Hstep.
  rewrite (CHECKED_failed (Store := Store) ret st3 _ Hret).
  apply CHECKED_failed. exact Hret.
Qed.

Lemma build_stops_at_first_type_failure_witness :
  exists st3 : BState RefStore.state,
    build (RefStore.ext Examples.refuse_flag) 4 Examples.raw_meta 0
      (RefStore.start Examples.fixed_schema)
    = Ok (NC_ENAMEINUSE, st3) /\
    st_trace st3 = [nc_def_enum 7 (nc_code NC_INT) "flag"].
Proof.
  eexists. split.
  - apply (build_stops_at_first_type_failure
             (RefStore.ext Examples.refuse_flag) 4 Examples.raw_meta 0
             (RefStore.start Examples.fixed_schema)
             (RefStore.start Examples.fixed_schema)
             (RefStore.start Examples.fixed_schema) _
             [0; 1]%nat [4; 2]%nat 3 NC_ENAMEINUSE).
    + vm_compute. reflexivity.
    + reflexivity.
    + vm_compute. reflexivity.
    + vm_compute. reflexivity.
    + discriminate.
  - reflexivity.
Defined.

(** ** Attributes of a variable *)

Section UserAttributes.

Context {Store : Type} (E : externals Store).

Lemma buildAttributes_loop_puts (fuel : nat) (varorgroup : nat) :
  forall (attrs : list nat) (st st' : BState Store) (ret : Z),
    buildAttributes_loop E fuel varorgroup attrs st = Ok (ret, st') ->
    st_heap st' = st_heap st /\
    exists cs,
      st_trace st' = (st_trace st ++ cs)%list /\
      forallb is_user_attribute_put cs = true /\
      (ret = NC_NOERR ->
       map put_name cs
       = map Some (user_names (map (node_name (st_heap st)) attrs))).
Proof.
  induction attrs as [|a rest IH]; intros st st' ret Hrun;
    cbn [buildAttributes_loop] in Hrun.
  - inversion Hrun; subst. split; [reflexivity|]. exists [].
    rewrite app_nil_r. repeat split; reflexivity.
  - cbv zeta in Hrun. inv_bind Hrun.
    assert (Hname : node_name (st_heap st) a = name a0).
    { unfold node_name. unfold deref in Hrun0.
      destruct (st_heap st !! a); inversion Hrun0; reflexivity. }
    cbn [map]. unfold user_names. cbn [List.filter]. rewrite Hname.
    destruct (String.prefix UCARTAGNC4 (name a0)) eqn:Hres; cbn [negb].
    + exact (IH _ _ _ Hrun).
    + inv_bind Hrun.
      match type of Hrun with
      | obind ?c _ = _ => destruct c as [[cret memory]| |] eqn:Hcompile
      end; cbn [obind] in Hrun; try discriminate.
      destruct (negb (cret =? 0)).
      * inversion Hrun; subst. split; [reflexivity|]. exists [].
        rewrite app_nil_r. repeat split; try reflexivity.
        intros Hbad. discriminate Hbad.
      * inv_bind Hrun. inv_bind Hrun. inv_bind Hrun.
        rewrite perform_eq in Hrun. cbn [NCCHECK] in Hrun.
        match type of Hrun with
        | (if negb (?r =? 0) then _ else _) = _ =>
            destruct (Z.eqb_spec r 0) as [Hzero | Hfail]; cbn [negb] in Hrun
        end.
        -- destruct (IH _ _ _ Hrun) as (Hheap & cs & Htrace & Huser & Hnames).
           cbn [st_heap st_trace] in Hheap, Htrace, Hnames.
           split; [exact Hheap|]. eexists (_ :: cs). split.
           ++ rewrite Htrace, <- app_assoc. reflexivity.
           ++ split.
              ** cbn [forallb is_user_attribute_put]. rewrite Hres.
                 exact Huser.
              ** intros Hret. cbn [map put_name]. f_equal.
                 exact (Hnames Hret).
        -- inversion Hrun; subst. split; [reflexivity|].
           eexists [_]. split; [reflexivity|]. split.
           ++ cbn [forallb is_user_attribute_put]. rewrite Hres. reflexivity.
           ++ intros Hret. unfold NC_NOERR in Hret. contradiction.
Qed.

End UserAttributes.

(** X15.  [buildAttributes] writes to the store and never to the graph;
    every call it issues puts an attribute whose name is outside the
    reserved prefix; and when it returns success, the attributes it has
    put are the attributes of the node outside the reserved prefix, each
    once, in declared order. *)
Theorem buildAttributes_puts_user_attributes :
  forall {Store : Type} (E : externals Store) (fuel : nat) (var : nat)
         (vn : NCD4node) (st st' : BState Store) (ret : Z),
    st_heap st !! var = Some vn ->
    buildAttributes E fuel var st = Ok (ret, st') ->
    st_heap st' = st_heap st /\
    exists cs,
      st_trace st' = (st_trace st ++ cs)%list /\
      forallb is_user_attribute_put cs = true /\
      (ret = NC_NOERR ->
       map put_name cs
       = map Some (user_names (map (node_name (st_heap st)) (attributes vn)))).
Proof.
  intros Store E fuel var vn st st' ret Hvar Hrun.
  unfold buildAttributes, deref in Hrun. rewrite Hvar in Hrun.
  cbn [obind] in Hrun.
  exact (buildAttributes_loop_puts E fuel var _ _ _ _ Hrun).
Qed.

Lemma buildAttributes_puts_user_attributes_witness :
  exists st' : BState RefStore.state,
    buildAttributes (RefStore.ext RefStore.no_failure) 3 1
      (RefStore.start Examples.tagged_schema) = Ok (NC_NOERR, st') /\
    st_heap st' = Examples.tagged_schema /\
    exists cs,
      st_trace st' = cs /\
      forallb is_user_attribute_put cs = true /\
      map put_name cs = [Some "units"; Some "scale"].
Proof.
  eexists. split; [vm_compute; reflexivity|].
  destruct (buildAttributes_puts_user_attributes
              (RefStore.ext RefStore.no_failure) 3 1
              (set_meta_id 12
                 (Fixture.with_attributes [3; 4; 5]%nat
                    (Fixture.with_basetype (Some 2%nat)
                       (Fixture.node NCD4_VAR NC_INT "v" (Some 0%nat)))))
              (RefStore.start Examples.tagged_schema) _ NC_NOERR
              eq_refl eq_refl)
    as (Hheap & cs & Htrace & Huser & Hnames).
  split; [exact Hheap|]. exists cs. split; [exact Htrace|].
  split; [exact Huser|]. exact (Hnames eq_refl).
Defined.

(** ** Enumerations *)

Section EnumerationCalls.

Context {Store : Type} (E : externals Store).

Lemma buildEnumeration_consts_calls (group en : nat) (gn enn : NCD4node) :
  forall (econsts : list nat) (st st' : BState Store),
    st_heap st !! group = Some gn ->
    st_heap st !! en = Some enn ->
    buildEnumeration_consts E group en econsts st = Ok (NC_NOERR, st') ->
    st_heap st' = st_heap st /\
    exists cs,
      st_trace st' = (st_trace st ++ cs)%list /\
      Forall2
        (fun ec c =>
           exists ecn, st_heap st !! ec = Some ecn /\
             c = nc_insert_enum (meta_id gn) (meta_id enn) (name ecn)
                   (en_ecvalue ecn))
        econsts cs.
Proof.
  induction econsts as [|ec rest IH]; intros st st' Hg Hen Hrun;
    cbn [buildEnumeration_consts] in Hrun.
  - inversion Hrun; subst. split; [reflexivity|]. exists [].
    rewrite app_nil_r. split; [reflexivity | constructor].
  - cbv zeta in Hrun. unfold deref in Hrun. rewrite Hg, Hen in Hrun.
    destruct (st_heap st !! ec) as [ecn|] eqn:Hec; [|discriminate].
    cbn [obind] in Hrun. rewrite perform_eq in Hrun. cbn [NCCHECK] in Hrun.
    match type of Hrun with
    | (if negb (?r =? 0) then _ else _) = _ =>
        destruct (Z.eqb_spec r 0) as [Hzero | Hfail]; cbn [negb] in Hrun
    end.
    + eapply IH in Hrun; [|exact Hg | exact Hen].
      destruct Hrun as (Hheap & cs & Htrace & Hcalls).
      cbn [st_heap st_trace] in Hheap, Htrace, Hcalls.
      split; [exact Hheap|]. eexists (_ :: cs). split.
      * rewrite Htrace, <- app_assoc. reflexivity.
      * constructor; [|exact Hcalls]. exists ecn.
        split; [exact Hec | reflexivity].
    + inversion Hrun; subst. contradiction.
Qed.

End EnumerationCalls.

(** X16.  A successful [buildEnumeration] issues the definition of the
    enumeration to the group [groupFor] finds, over the store id of the
    underlying type, and then one insertion per constant, in declared
    order, each under the id the store returned for the definition, with
    the name and the value of the constant; this id is recorded on the
    enumeration node. *)
Theorem buildEnumeration_calls :
  forall {Store : Type} (E : externals Store) (fuel : nat) (en g b : nat)
         (enn gn base : NCD4node) (st st' : BState Store),
    groupFor fuel (st_heap st) (Some en) = Ok g ->
    st_heap st !! g = Some gn ->
    st_heap st !! en = Some enn ->
    sort enn = NCD4_TYPE ->
    basetype enn = Some b ->
    st_heap st !! b = Some base ->
    buildEnumeration E fuel en st = Ok (NC_NOERR, st') ->
    exists tid cs,
      fst (nc E (nc_def_enum (meta_id gn) (meta_id base) (name enn))
             (st_store st)) = (NC_NOERR, tid) /\
      id_of (st_heap st') en = Some tid /\
      st_trace st'
      = (st_trace st
         ++ nc_def_enum (meta_id gn) (meta_id base) (name enn) :: cs)%list /\
      Forall2
        (fun ec c =>
           exists ecn, st_heap st !! ec = Some ecn /\
             c = nc_insert_enum (meta_id gn) tid (name ecn) (en_ecvalue ecn))
        (en_econsts enn) cs.
Proof.
  intros Store E fuel en g b enn gn base st st' Hgroup Hg Hen Hsort Hb Hbase
    Hrun.
  assert (Hne : g <> en).
  { intros ->. destruct (groupFor_is_group _ _ _ _ Hgroup) as (gn' & Hgn' & Hs).
    rewrite Hen in Hgn'. inversion Hgn'; subst. congruence. }
  unfold buildEnumeration in Hrun. cbv zeta in Hrun.
  rewrite Hgroup in Hrun. cbn [obind] in Hrun. unfold deref in Hrun.
  rewrite Hg, Hen in Hrun. cbn [obind] in Hrun. rewrite Hb in Hrun.
  cbn [deref_opt] in Hrun. unfold deref in Hrun. rewrite Hbase in Hrun.
  cbn [obind] in Hrun. unfold define in Hrun. rewrite issue_eq in Hrun.
  set (c := nc_def_enum (meta_id gn) (meta_id base) (name enn)) in *.
  destruct (nc E c (st_store st)) as [[r tid] s1] eqn:Hnc.
  cbn [fst snd] in Hrun.
  destruct (Z.eqb_spec r 0) as [-> | Hfail]; cbn [NCCHECK negb] in Hrun.
  - change (0 =? 0) with true in Hrun. cbn [negb] in Hrun.
    set (st1 := with_heap (write_meta_id en tid)
                  (Build_BState (st_heap st) s1 (st_trace st ++ [c]))) in *.
    assert (Hg1 : st_heap st1 !! g = Some gn).
    { subst st1. unfold with_heap, write_meta_id. cbn [st_heap].
      rewrite lookup_alter_ne by congruence. exact Hg. }
    assert (Hen1 : st_heap st1 !! en = Some (set_meta_id tid enn)).
    { subst st1. unfold with_heap, write_meta_id. cbn [st_heap].
      rewrite lookup_alter_eq, Hen. reflexivity. }
    destruct (buildEnumeration_consts_calls E g en gn (set_meta_id tid enn)
                (en_econsts enn) st1 st' Hg1 Hen1 Hrun)
      as (Hheap & cs & Htrace & Hcalls).
    exists tid, cs. split; [reflexivity|]. split; [|split].
    + unfold id_of. rewrite Hheap, Hen1. reflexivity.
    + rewrite Htrace. subst st1. unfold with_heap. cbn [st_trace].
      rewrite <- app_assoc. reflexivity.
    + eapply Forall2_impl; [exact Hcalls|].
      intros ec call (ecn1 & Hec1 & ->). subst st1.
      unfold with_heap, write_meta_id in Hec1. cbn [st_heap] in Hec1.
      destruct (decide (en = ec)) as [<- | Hnec].
      * rewrite lookup_alter_eq, Hen in Hec1. inversion Hec1; subst.
        exists enn. split; [exact Hen | reflexivity].
      * rewrite lookup_alter_ne in Hec1 by exact Hnec.
        exists ecn1. split; [exact Hec1 | reflexivity].
  - apply Z.eqb_neq in Hfail. rewrite Hfail in Hrun. cbn [negb] in Hrun.
    inversion Hrun; subst. apply Z.eqb_neq in Hfail. contradiction.
Qed.

Lemma buildEnumeration_calls_witness :
  exists tid cs,
    fst (RefStore.nc_with RefStore.no_failure
           (nc_def_enum 7 (nc_code NC_INT) "flag") RefStore.init)
    = (NC_NOERR, tid) /\
    id_of (st_heap
             (final_state (RefStore.start Examples.fixed_schema)
                (buildEnumeration (RefStore.ext RefStore.no_failure) 3 3
                   (RefStore.start Examples.fixed_schema)))) 3
    = Some tid /\
    st_trace
      (final_state (RefStore.start Examples.fixed_schema)
         (buildEnumeration (RefStore.ext RefStore.no_failure) 3 3
            (RefStore.start Examples.fixed_schema)))
    = ([] ++ nc_def_enum 7 (nc_code NC_INT) "flag" :: cs)%list /\
    Forall2
      (fun ec c =>
         exists ecn, Examples.fixed_schema !! ec = Some ecn /\
           c = nc_insert_enum 7 tid (name ecn) (en_ecvalue ecn))
      [4%nat] cs.
Proof.
  apply (buildEnumeration_calls (RefStore.ext RefStore.no_failure) 3 3 0 1
           (Fixture.with_en_econsts [4%nat]
              (Fixture.with_basetype (Some 1%nat)
                 (Fixture.node NCD4_TYPE NC_ENUM "flag" (Some 0%nat))))
           (set_meta_id 7
              (Fixture.with_vars [2%nat]
                 (Fixture.with_group_isdataset true
                    (Fixture.node NCD4_GROUP NC_NAT "" None))))
           (set_meta_id (nc_code NC_INT)
              (Fixture.node NCD4_TYPE NC_INT "Int32" (Some 0%nat)))
           (RefStore.start Examples.fixed_schema));
    vm_compute; reflexivity.
Defined.

Section MalformedAttribute.

Context {Store : Type} (E : externals Store).

Lemma buildAttributes_loop_app (fuel : nat) (varorgroup : nat) :
  forall (l1 l2 : list nat) (st : BState Store),
    buildAttributes_loop E fuel varorgroup (l1 ++ l2) st
    = CHECKED (buildAttributes_loop E fuel varorgroup l1 st)
        (buildAttributes_loop E fuel varorgroup l2).
Proof.
  induction l1 as [|a l1 IH]; intros l2 st; [reflexivity|].
  cbn [buildAttributes_loop app]. cbv zeta.
  destruct (deref (st_heap st) a) as [attr| |]; cbn [obind]; try reflexivity.
  destruct (String.prefix UCARTAGNC4 (name attr)); [apply IH|].
  destruct (deref (st_heap st) varorgroup) as [vg| |]; cbn [obind];
    try reflexivity.
  destruct (compileAttrValues (ext_libc E) (st_heap st) (basetype attr)
              (attr_values attr)) as [[cret memory]| |]; cbn [obind];
    try reflexivity.
  destruct (Z.eqb_spec cret 0) as [-> | Hbad]; cbn [negb].
  - destruct (groupFor fuel (st_heap st) (Some varorgroup)) as [g| |];
      cbn [obind]; try reflexivity.
    destruct (deref (st_heap st) g) as [gn| |]; cbn [obind]; try reflexivity.
    destruct (deref_opt (st_heap st) (basetype attr)) as [bt| |]; cbn [obind];
      try reflexivity.
    match goal with
    | |- NCCHECK ?r _ = _ => destruct r as [ret st1]
    end.
    cbn [NCCHECK]. destruct (Z.eqb_spec ret 0) as [-> | Hne]; cbn [negb].
    + apply IH.
    + symmetry. apply CHECKED_failed. exact Hne.
  - symmetry. apply CHECKED_failed. discriminate.
Qed.

End MalformedAttribute.

(** X17.  An attribute value the encoder rejects ends [buildAttributes]
    with the status [NC_ERANGE], whatever status the encoder gave: the
    attributes before it have been put, nothing is put for the attribute
    itself, and the attributes after it are not looked at. *)
Theorem buildAttributes_malformed_value :
  forall {Store : Type} (E : externals Store) (fuel : nat) (var a : nat)
         (vn attr : NCD4node) (pre post : list nat)
         (st st1 : BState Store) (cret : Z) (memory : option (list mcell)),
    st_heap st !! var = Some vn ->
    attributes vn = (pre ++ a :: post)%list ->
    buildAttributes_loop E fuel var pre st = Ok (NC_NOERR, st1) ->
    st_heap st !! a = Some attr ->
    String.prefix UCARTAGNC4 (name attr) = false ->
    compileAttrValues (ext_libc E) (st_heap st) (basetype attr)
      (attr_values attr) = Ok (cret, memory) ->
    cret <> 0 ->
    buildAttributes E fuel var st = Ok (NC_ERANGE, st1).
Proof.
  intros Store E fuel var a vn attr pre post st st1 cret memory
    Hvar Hattrs Hpre Ha Hres Hcompile Hbad.
  destruct (buildAttributes_loop_puts E fuel var pre st st1 NC_NOERR Hpre)
    as (Hheap & _).
  unfold buildAttributes, deref. rewrite Hvar. cbn [obind].
  rewrite Hattrs, buildAttributes_loop_app, Hpre, CHECKED_ok.
  cbn [buildAttributes_loop]. cbv zeta. unfold deref.
  rewrite Hheap, Ha, Hvar. cbn [obind]. rewrite Hres, Hcompile. cbn [obind].
  destruct (Z.eqb_spec cret 0) as [Hz | _]; [contradiction | reflexivity].
Qed.

Lemma buildAttributes_malformed_value_witness :
  exists st1 : BState RefStore.state,
    buildAttributes (RefStore.ext RefStore.no_failure) 3 1
      (RefStore.start Examples.malformed_schema) = Ok (NC_ERANGE, st1) /\
    map put_name (st_trace st1) = [Some "units"].
Proof.
  eexists. split.
  - apply (buildAttributes_malformed_value
             (RefStore.ext RefStore.no_failure) 3 1 4
             (set_meta_id 12
                (Fixture.with_attributes [3; 4; 5]%nat
                   (Fixture.with_basetype (Some 2%nat)
                      (Fixture.node NCD4_VAR NC_INT "v" (Some 0%nat)))))
             (Fixture.with_attr_values ["two"]
                (Fixture.with_basetype (Some 2%nat)
                   (Fixture.node NCD4_ATTR NC_NAT "scale" (Some 1%nat))))
             [3%nat] [5%nat]
             (RefStore.start Examples.malformed_schema) _
             NC_EBADTYPE None).
    + reflexivity.
    + reflexivity.
    + vm_compute. reflexivity.
    + reflexivity.
    + reflexivity.
    + vm_compute. reflexivity.
    + discriminate.
  - reflexivity.
Defined.

(** ** Variables *)

Section VariableKinds.

Context {Store : Type} (E : externals Store).

Lemma CHECKED_done (c : outcome (Z * BState Store)) (r : Z * BState Store) :
  c = Ok r -> CHECKED c done = Ok r.
Proof.
  intros ->. destruct r as [ret st].
  destruct (Z.eqb_spec ret 0) as [-> | Hne].
  - reflexivity.
  - apply CHECKED_failed. exact Hne.
Qed.

Lemma buildAtomicVar_parts (fuel : nat) (var : nat) (st : BState Store)
    (r : Z * BState Store) :
  buildAtomicVar E fuel var st = Ok r ->
  exists g vn dimids gn bt,
    groupFor fuel (st_heap st) (Some var) = Ok g /\
    deref (st_heap st) var = Ok vn /\
    getDimrefs (st_heap st) (dims vn) = Ok dimids /\
    deref (st_heap st) g = Ok gn /\
    deref_opt (st_heap st) (basetype vn) = Ok bt.
Proof.
  intros Hrun. unfold buildAtomicVar in Hrun. cbv zeta in Hrun.
  destruct (groupFor fuel (st_heap st) (Some var)) as [g| |] eqn:Hg;
    cbn [obind] in Hrun; try discriminate.
  destruct (deref (st_heap st) var) as [vn| |] eqn:Hvn;
    cbn [obind] in Hrun; try discriminate.
  destruct (getDimrefs (st_heap st) (dims vn)) as [dimids| |] eqn:Hdims;
    cbn [obind] in Hrun; try discriminate.
  destruct (deref (st_heap st) g) as [gn| |] eqn:Hgn;
    cbn [obind] in Hrun; try discriminate.
  destruct (deref_opt (st_heap st) (basetype vn)) as [bt| |] eqn:Hbt;
    cbn [obind] in Hrun; try discriminate.
  exists g, vn, dimids, gn, bt. repeat split; assumption.
Qed.

End VariableKinds.

(** X18.  The three variable builders do the same: whatever the kind of
    the variable (atomic, structure or sequence), [buildVariable] gives
    the result that [buildAtomicVar] gives for it, one definition of the
    variable in its group over the store id of its base type and the ids
    of its dimensions, followed by its attributes and its maps. *)
Theorem buildVariable_kinds_alike :
  forall {Store : Type} (E : externals Store) (fuel : nat) (var : nat)
         (st : BState Store) (r : Z * BState Store),
    buildAtomicVar E fuel var st = Ok r ->
    buildVariable E fuel var st = Ok r.
Proof.
  intros Store E fuel var st r Hrun.
  destruct (buildAtomicVar_parts E fuel var st r Hrun)
    as (g & vn & dimids & gn & bt & Hg & Hvn & Hdims & Hgn & Hbt).
  assert (Hstruct : buildStructure E fuel var st = Ok r).
  { rewrite <- Hrun. unfold buildStructure, buildAtomicVar. cbv zeta.
    rewrite Hg, Hvn. cbn [obind]. rewrite Hdims. cbn [obind].
    reflexivity. }
  assert (Hseq : buildSequence E fuel var st = Ok r).
  { rewrite <- Hrun. unfold buildSequence, buildAtomicVar. cbv zeta.
    rewrite Hg, Hvn. cbn [obind]. rewrite Hdims. cbn [obind].
    reflexivity. }
  unfold buildVariable. rewrite Hvn. cbn [obind].
  destruct (subsort vn); apply CHECKED_done; assumption.
Qed.

Lemma buildVariable_kinds_alike_witness :
  exists r : Z * BState RefStore.state,
    buildVariable (RefStore.ext RefStore.no_failure) 4 1
      (RefStore.start Examples.composite_schema) = Ok r /\
    st_trace (snd r) = [nc_def_var 7 "p.q" 0 0 []].
Proof.
  eexists. split.
  - apply (buildVariable_kinds_alike (RefStore.ext RefStore.no_failure) 4 1
             (RefStore.start Examples.composite_schema)).
    vm_compute. reflexivity.
  - reflexivity.
Defined.

(** ** Array fields *)

Lemma to_signed_small (d : Z) : 0 <= d < 2 ^ 31 -> to_signed 32 d = d.
Proof.
  intros Hd. unfold to_signed, wrap.
  change (2 ^ (32 - 1)) with 2147483648. change (2 ^ 32) with 4294967296.
  change (2 ^ 31) with 2147483648 in Hd.
  rewrite Z.mod_small by lia.
  destruct (Z.ltb_spec d 2147483648); [reflexivity | lia].
Qed.

Lemma to_signed_high_zero (d : Z) :
  0 <= d < 2 ^ 31 -> to_signed 32 (d / 2 ^ 32) = 0.
Proof.
  intros Hd. change (2 ^ 31) with 2147483648 in Hd.
  change (2 ^ 32) with 4294967296. rewrite Z.div_small by lia. reflexivity.
Qed.

Lemma dimsizes_halves (sizes : list Z) :
  Forall (fun d => 0 < d < 2 ^ 31) sizes ->
  flat_map (fun d => [to_signed 32 d; to_signed 32 (d / 2 ^ 32)]) sizes
  = flat_map (fun d => [d; 0]) sizes.
Proof.
  induction 1 as [|d rest Hd _ IH]; [reflexivity|].
  cbn [flat_map]. rewrite IH, to_signed_small, to_signed_high_zero by lia.
  reflexivity.
Qed.

(** X19.  The extents of an array field reach the store through an [int]
    array that [getDimsizes] has filled as [size_t] (eight bytes each,
    low half first).  For extents between 1 and 2^31 - 1 the [rank]
    numbers the store reads are the extents interleaved with zeros, cut
    at [rank]: they are the declared extents exactly when the rank is at
    most 1. *)
Theorem dimsizes_as_int_interleaved :
  forall sizes : list Z,
    Forall (fun d => 0 < d < 2 ^ 31) sizes ->
    dimsizes_as_int (length sizes) sizes
    = take (length sizes) (flat_map (fun d => [d; 0]) sizes) /\
    (dimsizes_as_int (length sizes) sizes = sizes <-> (length sizes <= 1)%nat).
Proof.
  intros sizes Hall. unfold dimsizes_as_int. rewrite (dimsizes_halves _ Hall).
  split; [reflexivity|].
  destruct sizes as [|a [|b rest]].
  - cbn. split; [lia | reflexivity].
  - cbn. split; [lia | reflexivity].
  - cbn [length flat_map app take]. split; [|lia].
    intros Heq. injection Heq as Hb _.
    apply Forall_inv_tail, Forall_inv in Hall. lia.
Qed.

Lemma dimsizes_as_int_interleaved_witness :
  dimsizes_as_int (length [10; 20; 30]) [10; 20; 30]
  = take (length [10; 20; 30]) (flat_map (fun d => [d; 0]) [10; 20; 30]) /\
  (dimsizes_as_int (length [10; 20; 30]) [10; 20; 30] = [10; 20; 30]
   <-> (length [10; 20; 30] <= 1)%nat).
Proof.
  apply (dimsizes_as_int_interleaved [10; 20; 30]).
  repeat constructor; lia.
Defined.

Section DimensionsIgnored.

Lemma Some_eq_inv {A : Type} (a b : A) : Some a = Some b -> a = b.
Proof. intros H. inversion H. reflexivity. Qed.

Lemma same_but_dims_lookup (h1 h2 : heap) (p : nat) (n1 : NCD4node) :
  same_but_dims h1 h2 -> h1 !! p = Some n1 ->
  exists n2, h2 !! p = Some n2 /\
             Fixture.with_dims [] n2 = Fixture.with_dims [] n1.
Proof.
  intros Hsame Hp. specialize (Hsame p). rewrite Hp in Hsame.
  destruct (h2 !! p) as [n2|]; [|discriminate].
  exists n2. split; [reflexivity|].
  change (Some (Fixture.with_dims [] n2) = Some (Fixture.with_dims [] n1))
    in Hsame.
  exact (Some_eq_inv _ _ Hsame).
Qed.

Lemma same_but_dims_none (h1 h2 : heap) (p : nat) :
  same_but_dims h1 h2 -> h1 !! p = None -> h2 !! p = None.
Proof.
  intros Hsame Hp. specialize (Hsame p). rewrite Hp in Hsame.
  destruct (h2 !! p); [discriminate | reflexivity].
Qed.

Lemma same_but_dims_write (p : nat) (v : Z) (h1 h2 : heap) :
  same_but_dims h1 h2 ->
  same_but_dims (write_meta_offset p v h1) (write_meta_offset p v h2).
Proof.
  intros Hsame x. unfold write_meta_offset.
  destruct (decide (p = x)) as [<- | Hne].
  - rewrite !lookup_alter_eq. specialize (Hsame p).
    destruct (h1 !! p) as [n1|], (h2 !! p) as [n2|];
      try discriminate; try reflexivity.
    change (Some (Fixture.with_dims [] n2) = Some (Fixture.with_dims [] n1))
      in Hsame.
    change (Some (set_meta_offset v (Fixture.with_dims [] n2))
            = Some (set_meta_offset v (Fixture.with_dims [] n1))).
    rewrite (Some_eq_inv _ _ Hsame). reflexivity.
  - rewrite !lookup_alter_ne by exact Hne. apply Hsame.
Qed.

Lemma with_dims_fields (n1 n2 : NCD4node) :
  Fixture.with_dims [] n2 = Fixture.with_dims [] n1 ->
  sort n2 = sort n1 /\ subsort n2 = subsort n1 /\
  basetype n2 = basetype n1 /\ opaque_size n2 = opaque_size n1 /\
  meta_id n2 = meta_id n1 /\ meta_offset n2 = meta_offset n1 /\
  vars n2 = vars n1.
Proof.
  intros Heq.
  pose proof (f_equal sort Heq). pose proof (f_equal subsort Heq).
  pose proof (f_equal basetype Heq). pose proof (f_equal opaque_size Heq).
  pose proof (f_equal meta_id Heq). pose proof (f_equal meta_offset Heq).
  pose proof (f_equal vars Heq). cbn in *. auto 10.
Qed.

Lemma same_but_dims_deref (h1 h2 : heap) (p : nat) :
  same_but_dims h1 h2 ->
  match deref h1 p, deref h2 p with
  | Ok n1, Ok n2 => Fixture.with_dims [] n2 = Fixture.with_dims [] n1
  | Undefined, Undefined => True
  | _, _ => False
  end.
Proof.
  intros Hsame. unfold deref. destruct (h1 !! p) as [n1|] eqn:Hp.
  - destruct (same_but_dims_lookup h1 h2 p n1 Hsame Hp) as (n2 & -> & Heq).
    exact Heq.
  - rewrite (same_but_dims_none h1 h2 p Hsame Hp). exact I.
Qed.

Lemma computeTypeSize_same_but_dims (h1 h2 : heap) :
  same_but_dims h1 h2 ->
  forall fuel t, computeTypeSize fuel h2 t = computeTypeSize fuel h1 t.
Proof.
  intros Hsame. induction fuel as [|k IH]; intros t; [reflexivity|].
  cbn [computeTypeSize]. destruct t as [p|]; [|reflexivity].
  cbn [deref_opt]. pose proof (same_but_dims_deref h1 h2 p Hsame) as Hd.
  destruct (deref h1 p) as [n1| |], (deref h2 p) as [n2| |];
    try contradiction; try reflexivity.
  cbn [obind].
  destruct (with_dims_fields n1 n2 Hd)
    as (Hs & Hss & Hb & Ho & Hi & Hoff & _).
  rewrite Hs, Hss, Hb, Ho, Hi, Hoff.
  destruct (sort n1); try reflexivity.
  destruct (subsort n1); try reflexivity. apply IH.
Qed.

Lemma computeOffsets_loop_same_but_dims
    (offsets : nat -> heap -> outcome heap) (k : nat) :
  (forall c h1 h2 h1',
     same_but_dims h1 h2 -> offsets c h1 = Ok h1' ->
     exists h2', offsets c h2 = Ok h2' /\ same_but_dims h1' h2') ->
  forall fields off h1 h2 off' h1',
    same_but_dims h1 h2 ->
    computeOffsets_loop offsets (computeTypeSize k) fields off h1
    = Ok (off', h1') ->
    exists h2',
      computeOffsets_loop offsets (computeTypeSize k) fields off h2
      = Ok (off', h2') /\ same_but_dims h1' h2'.
Proof.
  intros Hoff. induction fields as [|f rest IH];
    intros off h1 h2 off' h1' Hsame Hrun.
  - inversion Hrun; subst. exists h2. split; [reflexivity | exact Hsame].
  - cbn [computeOffsets_loop] in Hrun |- *.
    pose proof (same_but_dims_deref h1 h2 f Hsame) as Hd.
    destruct (deref h1 f) as [n1| |], (deref h2 f) as [n2| |];
      try contradiction; try discriminate.
    cbn [obind] in Hrun |- *.
    destruct (with_dims_fields n1 n2 Hd) as (_ & Hss & Hb & _).
    rewrite Hss, Hb.
    match type of Hrun with
    | obind ?c _ = _ => destruct c as [[size h1a]| |] eqn:Hsize
    end; cbn [obind] in Hrun; try discriminate.
    assert (Hstep : exists h2a,
               match subsort n1 with
               | NC_STRUCT =>
                   let* bt := nonnull (basetype n1) in
                   let* h1 := offsets bt h2 in
                   let* size := computeTypeSize k h1 (basetype n1) in
                   Ok (size, h1)
               | NC_SEQ => Ok (sizeof_nc_vlen_t, h2)
               | _ =>
                   let* size := computeTypeSize k h2 (basetype n1) in
                   Ok (size, h2)
               end = Ok (size, h2a) /\ same_but_dims h1a h2a).
    { destruct (subsort n1);
        first
          [ inversion Hsize; subst; exists h2;
            split; [reflexivity | exact Hsame]
          | inv_bind Hsize; inversion Hsize; subst; exists h2;
            rewrite (computeTypeSize_same_but_dims _ h2 Hsame);
            match goal with
            | H : computeTypeSize _ _ _ = Ok _ |- _ => rewrite H
            end;
            split; [reflexivity | exact Hsame]
          | idtac ].
      inv_bind Hsize. inv_bind Hsize. inv_bind Hsize.
      inversion Hsize; subst.
      match goal with
      | H : offsets _ _ = Ok _ |- _ =>
          destruct (Hoff _ _ _ _ Hsame H) as (h2a & Hstep2 & Hsame2)
      end.
      exists h2a. cbn [obind]. rewrite Hstep2. cbn [obind].
      rewrite (computeTypeSize_same_but_dims _ _ Hsame2).
      match goal with
      | H : computeTypeSize _ _ _ = Ok _ |- _ => rewrite H
      end.
      split; [reflexivity | exact Hsame2]. }
    destruct Hstep as (h2a & -> & Hsame2). cbn [obind].
    apply (IH _ _ _ _ _ (same_but_dims_write f off _ _ Hsame2) Hrun).
Qed.

Lemma computeOffsets_same_but_dims :
  forall fuel c h1 h2 h1',
    same_but_dims h1 h2 -> computeOffsets fuel c h1 = Ok h1' ->
    exists h2', computeOffsets fuel c h2 = Ok h2' /\ same_but_dims h1' h2'.
Proof.
  induction fuel as [|k IH]; intros c h1 h2 h1' Hsame Hrun; [discriminate|].
  cbn [computeOffsets] in Hrun |- *.
  pose proof (same_but_dims_deref h1 h2 c Hsame) as Hd.
  destruct (deref h1 c) as [n1| |], (deref h2 c) as [n2| |];
    try contradiction; try discriminate.
  cbn [obind] in Hrun |- *.
  destruct (with_dims_fields n1 n2 Hd) as (_ & _ & _ & _ & _ & _ & Hvars).
  rewrite Hvars.
  match type of Hrun with
  | obind ?c _ = _ => destruct c as [[off h1a]| |] eqn:Hloop
  end; cbn [obind] in Hrun; try discriminate.
  destruct (computeOffsets_loop_same_but_dims _ k IH _ _ _ _ _ _ Hsame Hloop)
    as (h2a & -> & Hsame2).
  cbn [obind]. inversion Hrun; subst. eexists. split; [reflexivity|].
  apply same_but_dims_write. exact Hsame2.
Qed.

End DimensionsIgnored.

(** X20.  The layout does not depend on the dimensions of the fields: on
    two graphs that differ in dimension lists only, [computeOffsets]
    returns on both or on neither, and records the same offsets and
    sizes.  An array field is laid out with the width of one element. *)
Theorem computeOffsets_ignores_dimensions :
  forall (fuel : nat) (cmpd : nat) (h1 h2 h1' : heap),
    same_but_dims h1 h2 ->
    computeOffsets fuel cmpd h1 = Ok h1' ->
    exists h2',
      computeOffsets fuel cmpd h2 = Ok h2' /\
      same_but_dims h1' h2' /\
      forall x, offset_of h2' x = offset_of h1' x.
Proof.
  intros fuel cmpd h1 h2 h1' Hsame Hrun.
  destruct (computeOffsets_same_but_dims fuel cmpd h1 h2 h1' Hsame Hrun)
    as (h2' & Hrun2 & Hsame2).
  exists h2'. split; [exact Hrun2|]. split; [exact Hsame2|].
  intros x. unfold offset_of. specialize (Hsame2 x).
  destruct (h1' !! x) as [n1|], (h2' !! x) as [n2|];
    try discriminate; try reflexivity.
  change (Some (Fixture.with_dims [] n2) = Some (Fixture.with_dims [] n1))
    in Hsame2.
  pose proof (Some_eq_inv _ _ Hsame2) as Heq.
  destruct (with_dims_fields n1 n2 Heq) as (_ & _ & _ & _ & _ & Hoff & _).
  rewrite Hoff. reflexivity.
Qed.

Lemma same_but_dims_erased (h : heap) :
  same_but_dims h (Fixture.with_dims [] <$> h).
Proof.
  intros x. rewrite lookup_fmap. destruct (h !! x); reflexivity.
Qed.

Lemma computeOffsets_ignores_dimensions_witness :
  exists h2' : heap,
    computeOffsets 3 10 (Fixture.with_dims [] <$> Examples.array_layout_schema)
    = Ok h2' /\
    same_but_dims
      (match computeOffsets 3 10 Examples.array_layout_schema with
       | Ok h => h
       | _ => Examples.array_layout_schema
       end) h2' /\
    forall x,
      offset_of h2' x
      = offset_of
          (match computeOffsets 3 10 Examples.array_layout_schema with
           | Ok h => h
           | _ => Examples.array_layout_schema
           end) x.
Proof.
  apply (computeOffsets_ignores_dimensions 3 10 Examples.array_layout_schema).
  - apply same_but_dims_erased.
  - vm_compute. reflexivity.
Defined.

(** ** The layout a compound type is defined with *)

Lemma offset_of_write_meta_id (p : nat) (v : Z) (h : heap) (x : nat) :
  offset_of (write_meta_id p v h) x = offset_of h x.
Proof.
  unfold offset_of, write_meta_id. destruct (decide (p = x)) as [-> | Hne].
  - rewrite lookup_alter_eq. destruct (h !! x); reflexivity.
  - rewrite lookup_alter_ne by exact Hne. reflexivity.
Qed.

Section CompoundLayout.

Context {Store : Type} (E : externals Store).

Lemma buildCompound_fields_offsets (cmpdtype group : nat) (all : list nat)
    (ws : list Z) :
  forall (fields : list nat) (i : nat) (st st' : BState Store),
    drop i all = fields ->
    (forall j f, all !! j = Some f ->
                 offset_of (st_heap st) f = Some (sumZ (take j ws))) ->
    buildCompound_fields E cmpdtype group fields st = Ok (NC_NOERR, st') ->
    exists cs,
      st_trace st' = (st_trace st ++ cs)%list /\
      length cs = length fields /\
      forall j call, cs !! j = Some call ->
        insert_offset call = Some (sumZ (take (i + j) ws)).
Proof.
  induction fields as [|f rest IH]; intros i st st' Hdrop Hoffs Hrun.
  - inversion Hrun; subst. exists []. rewrite app_nil_r.
    repeat split. intros j call Hj. discriminate Hj.
  - assert (Hf : all !! i = Some f).
    { assert (H0 : drop i all !! 0%nat = Some f)
        by (rewrite Hdrop; reflexivity).
      rewrite lookup_drop, Nat.add_0_r in H0. exact H0. }
    assert (Hrest : drop (S i) all = rest).
    { assert (H1 : drop 1 (drop i all) = rest)
        by (rewrite Hdrop; reflexivity).
      rewrite drop_drop in H1. rewrite <- H1. f_equal. lia. }
    cbn [buildCompound_fields] in Hrun. cbv zeta in Hrun.
    destruct (deref (st_heap st) f) as [field| |] eqn:Hfield;
      cbn [obind] in Hrun; try discriminate.
    assert (Hoff : meta_offset field = sumZ (take i ws)).
    { pose proof (Hoffs i f Hf) as Ho. unfold offset_of in Ho.
      unfold deref in Hfield. destruct (st_heap st !! f); [|discriminate].
      inversion Hfield; subst. inversion Ho. reflexivity. }
    inv_bind Hrun. inv_bind Hrun.
    assert (Hstep : forall c,
      insert_offset c = Some (sumZ (take i ws)) ->
      NCCHECK (perform E c st) (buildCompound_fields E cmpdtype group rest)
      = Ok (NC_NOERR, st') ->
      exists cs,
        st_trace st' = (st_trace st ++ cs)%list /\
        length cs = length (f :: rest) /\
        forall j call, cs !! j = Some call ->
          insert_offset call = Some (sumZ (take (i + j) ws))).
    { intros c Hc Hcheck. rewrite perform_eq in Hcheck.
      cbn [NCCHECK] in Hcheck.
      match type of Hcheck with
      | (if negb (?r =? 0) then _ else _) = _ =>
          destruct (Z.eqb_spec r 0) as [Hzero | Hfail]; cbn [negb] in Hcheck
      end.
      - eapply (IH (S i)) in Hcheck; [|exact Hrest | exact Hoffs].
        destruct Hcheck as (cs & Htrace & Hlen & Hcalls).
        cbn [st_trace] in Htrace. exists (c :: cs). split; [|split].
        + rewrite Htrace, <- app_assoc. reflexivity.
        + cbn [length]. rewrite Hlen. reflexivity.
        + intros [|j] call Hj.
          * inversion Hj; subst. rewrite Nat.add_0_r. exact Hc.
          * replace (i + S j)%nat with (S i + j)%nat by lia.
            exact (Hcalls j call Hj).
      - inversion Hcheck; subst. contradiction. }
    destruct (length (dims field)).
    + inv_bind Hrun. refine (Hstep _ _ Hrun).
      cbn [insert_offset]. rewrite Hoff. reflexivity.
    + inv_bind Hrun. inv_bind Hrun. refine (Hstep _ _ Hrun).
      cbn [insert_offset]. rewrite Hoff. reflexivity.
Qed.

End CompoundLayout.

(** X21.  The layout reaches the store as it was computed.  In a graph
    where every field belongs to the one type listing it and the atomic
    types carry their kind, let [ws] be the declared widths of the fields
    of [cmpd], with a sum below 2^64.  Then a successful [buildCompound]
    issues the definition of the compound type with the size [sumZ ws] in
    the given group, followed by one insertion per field, in declared
    order, the field at position [i] at the offset [sumZ (take i ws)]. *)
Theorem buildCompound_layout_calls :
  forall {Store : Type} (E : externals Store) (h0 : heap),
    owned h0 -> fixed_up h0 ->
    forall (fuel : nat) (cmpd group : nat) (c gn : NCD4node) (ws : list Z)
           (nm : option string) (st st' : BState Store),
      st_heap st = h0 ->
      h0 !! cmpd = Some c -> sort c = NCD4_TYPE ->
      spec_fieldWidths fuel h0 c = Some ws ->
      sumZ ws < 2 ^ 64 ->
      h0 !! group = Some gn ->
      buildCompound E (S fuel) cmpd group nm st = Ok (NC_NOERR, st') ->
      exists cs,
        st_trace st'
        = (st_trace st
           ++ nc_def_compound (meta_id gn) (sumZ ws) nm :: cs)%list /\
        length cs = length (vars c) /\
        forall i call, cs !! i = Some call ->
          insert_offset call = Some (sumZ (take i ws)).
Proof.
  intros Store E h0 Howned Hfixed fuel cmpd group c gn ws nm st st'
    Hheap Hc Hsort Hws Hbound Hgroup Hrun.
  destruct (computeOffsets_slots h0 Howned Hfixed fuel cmpd c ws Hc Hsort
              Hws Hbound) as (h1 & Hoffsets & Hsize & Hfields).
  unfold buildCompound in Hrun. rewrite Hheap, Hoffsets in Hrun.
  cbn [obind] in Hrun.
  pose proof (computeOffsets_ids _ _ _ _ Hoffsets) as Hids.
  pose proof (computeOffsets_rel same_but_offsets same_but_offsets_refl
                same_but_offsets_trans same_but_offsets_write
                _ _ _ _ Hoffsets) as Hsame.
  destruct (h1 !! group) as [gn1|] eqn:Hg1.
  2:{ unfold deref in Hrun. rewrite Hg1 in Hrun. discriminate. }
  destruct (h1 !! cmpd) as [cn1|] eqn:Hc1.
  2:{ unfold deref in Hrun. rewrite Hg1, Hc1 in Hrun. discriminate. }
  unfold deref in Hrun. rewrite Hg1, Hc1 in Hrun. cbn [obind] in Hrun.
  assert (Hgid : meta_id gn1 = meta_id gn).
  { pose proof (Hids group) as Hi. unfold id_of in Hi.
    rewrite Hg1, Hgroup in Hi. inversion Hi. reflexivity. }
  assert (Hcoff : meta_offset cn1 = sumZ ws).
  { unfold offset_of in Hsize. rewrite Hc1 in Hsize. inversion Hsize.
    reflexivity. }
  assert (Hvars : vars cn1 = vars c).
  { pose proof (Hsame cmpd) as Hs. rewrite Hc1, Hc in Hs.
    apply Some_eq_inv in Hs. exact (f_equal vars Hs). }
  rewrite Hgid, Hcoff, Hvars in Hrun.
  unfold define in Hrun. rewrite issue_eq in Hrun.
  set (def := nc_def_compound (meta_id gn) (sumZ ws) nm) in *.
  destruct (Z.eqb_spec (fst (fst (nc E def (st_store (with_heap (fun _ => h1) st))))) 0)
    as [Hzero | Hfail]; cbn [NCCHECK negb] in Hrun.
  - rewrite Hzero in Hrun. change (0 =? 0) with true in Hrun.
    cbn [negb] in Hrun.
    eapply (buildCompound_fields_offsets E cmpd group (vars c) ws (vars c) 0)
      in Hrun.
    + destruct Hrun as (cs & Htrace & Hlen & Hcalls).
      exists cs. split; [|split; [exact Hlen | exact Hcalls]].
      rewrite Htrace. unfold with_heap. cbn [st_trace].
      rewrite <- app_assoc. reflexivity.
    + reflexivity.
    + intros j f Hj. unfold with_heap. cbn [st_heap].
      rewrite offset_of_write_meta_id. exact (Hfields j f Hj).
  - apply Z.eqb_neq in Hfail. rewrite Hfail in Hrun. cbn [negb] in Hrun.
    inversion Hrun; subst. apply Z.eqb_neq in Hfail. contradiction.
Qed.

Lemma buildCompound_layout_calls_witness :
  exists cs,
    st_trace
      (final_state (RefStore.start Examples.layout_schema)
         (buildCompound (RefStore.ext RefStore.no_failure) 3 10 0
            (Some "outer_t") (RefStore.start Examples.layout_schema)))
    = ([] ++ nc_def_compound 0 (sumZ [1; 12; 16; 8]) (Some "outer_t") :: cs)%list /\
    length cs = length [11; 12; 13; 14]%nat /\
    forall i call, cs !! i = Some call ->
      insert_offset call = Some (sumZ (take i [1; 12; 16; 8])).
Proof.
  apply (buildCompound_layout_calls (RefStore.ext RefStore.no_failure)
           Examples.layout_schema
           (ownedb_sound Examples.layout_schema
              ltac:(vm_compute; reflexivity))
           (fixed_upb_sound Examples.layout_schema
              ltac:(vm_compute; reflexivity))
           2 10 0 Examples.outer_type
           (Fixture.with_group_isdataset true
              (Fixture.node NCD4_GROUP NC_NAT "" None))
           [1; 12; 16; 8] (Some "outer_t")
           (RefStore.start Examples.layout_schema));
    vm_compute; solve [ reflexivity | trivial ].
Defined.

(** ** The order of the passes *)

Section CallPhases.

Context {Store : Type} (E : externals Store).
Variable P : Call -> bool.
Variable st0 : BState Store.

Lemma extends_refl (st : BState Store) : extends_by P st st.
Proof. exists []. rewrite app_nil_r. split; reflexivity. Qed.

Lemma extends_trans (P1 : Call -> bool) (st1 st2 st3 : BState Store) :
  extends_by P1 st1 st2 -> extends_by P1 st2 st3 -> extends_by P1 st1 st3.
Proof.
  intros (cs1 & H1 & Hp1) (cs2 & H2 & Hp2). exists (cs1 ++ cs2)%list.
  rewrite H2, H1, <- app_assoc, forallb_app, Hp1, Hp2. split; reflexivity.
Qed.

Lemma issues_Ok (ret : Z) (st : BState Store) :
  extends_by P st0 st -> issues_only P st0 (Ok (ret, st)).
Proof. intros Hext ret' st' Heq. inversion Heq; subst. exact Hext. Qed.

Lemma issues_done (st : BState Store) :
  extends_by P st0 st -> issues_only P st0 (done st).
Proof. apply issues_Ok. Qed.

Lemma issues_bind {A : Type} (c : outcome A)
    (k : A -> outcome (Z * BState Store)) :
  (forall a, c = Ok a -> issues_only P st0 (k a)) ->
  issues_only P st0 (obind c k).
Proof.
  intros Hk ret st' Hrun. destruct c as [a| |]; try discriminate.
  exact (Hk a eq_refl ret st' Hrun).
Qed.

Lemma issues_NCCHECK (r : Z * BState Store)
    (k : BState Store -> outcome (Z * BState Store)) :
  extends_by P st0 (snd r) ->
  (forall st1, extends_by P st0 st1 -> issues_only P st0 (k st1)) ->
  issues_only P st0 (NCCHECK r k).
Proof.
  intros Hr Hk ret st' Hrun. destruct r as [ret0 st1]. cbn [NCCHECK] in Hrun.
  destruct (negb (ret0 =? 0)).
  - inversion Hrun; subst. exact Hr.
  - exact (Hk st1 Hr ret st' Hrun).
Qed.

Lemma issues_CHECKED (c : outcome (Z * BState Store))
    (k : BState Store -> outcome (Z * BState Store)) :
  issues_only P st0 c ->
  (forall st1, extends_by P st0 st1 -> issues_only P st0 (k st1)) ->
  issues_only P st0 (CHECKED c k).
Proof.
  intros Hc Hk. unfold CHECKED. apply issues_bind. intros [ret1 st1] Hrun.
  apply issues_NCCHECK; [exact (Hc ret1 st1 Hrun) | exact Hk].
Qed.

Lemma extends_with_heap (f : heap -> heap) (st : BState Store) :
  extends_by P st0 st -> extends_by P st0 (with_heap f st).
Proof. intros H. exact H. Qed.

Lemma extends_call (c : Call) (st : BState Store) (s : Store) (h : heap) :
  P c = true -> extends_by P st0 st ->
  extends_by P st0 (Build_BState h s (st_trace st ++ [c])).
Proof.
  intros Hc (cs & Htrace & Hp). exists (cs ++ [c])%list. cbn [st_trace].
  rewrite Htrace, <- app_assoc, forallb_app, Hp. cbn [forallb].
  rewrite Hc. split; reflexivity.
Qed.

Lemma extends_perform (c : Call) (st : BState Store) :
  P c = true -> extends_by P st0 st ->
  extends_by P st0 (snd (perform E c st)).
Proof. intros Hc Hext. rewrite perform_eq. apply extends_call; assumption. Qed.

Lemma extends_define (c : Call) (node : nat) (st : BState Store) :
  P c = true -> extends_by P st0 st ->
  extends_by P st0 (snd (define E c node st)).
Proof.
  intros Hc Hext. unfold define. rewrite issue_eq.
  destruct (_ =? 0); cbn [snd]; [apply extends_with_heap|];
    apply extends_call; assumption.
Qed.

Lemma issues_issue (c : Call) (st : BState Store)
    (k : Z * Z * BState Store -> outcome (Z * BState Store)) :
  P c = true -> extends_by P st0 st ->
  (forall probe tid st1, extends_by P st0 st1 ->
                         issues_only P st0 (k (probe, tid, st1))) ->
  issues_only P st0 (k (issue E c st)).
Proof.
  intros Hc Hext Hk. rewrite issue_eq. apply Hk. apply extends_call; assumption.
Qed.

End CallPhases.

Ltac issues_step :=
  match goal with
  | |- issues_only _ _ (done _) => apply issues_done
  | |- issues_only _ _ (Ok (_, _)) => apply issues_Ok
  | |- issues_only _ _ (obind _ _) => apply issues_bind; intros
  | |- issues_only _ _ (NCCHECK _ _) => apply issues_NCCHECK; [|intros]
  | |- issues_only _ _ (CHECKED _ _) => apply issues_CHECKED; [|intros]
  | |- issues_only _ _ (if ?b then _ else _) => destruct b
  | |- issues_only _ _ (match ?x with _ => _ end) => destruct x
  | |- extends_by _ _ (snd (define _ _ _ _)) =>
      apply extends_define; [reflexivity|]
  | |- extends_by _ _ (snd (perform _ _ _)) =>
      apply extends_perform; [reflexivity|]
  | |- extends_by _ _ (with_heap _ _) => apply extends_with_heap
  | |- extends_by _ _ (snd (if ?b then _ else _)) => destruct b
  | |- extends_by _ _ (snd (_, _)) => cbn [snd]
  | |- extends_by _ _ _ => assumption
  end.

Ltac issues_all := cbv zeta; repeat issues_step.

Section PassCalls.

Context {Store : Type} (E : externals Store).
Variable st0 : BState Store.

Lemma buildGroups_issues :
  forall fuel builder parent st,
    extends_by is_group_call st0 st ->
    issues_only is_group_call st0 (buildGroups E fuel builder parent st).
Proof.
  induction fuel as [|k IH]; intros builder parent st Hext;
    [intros ? ? H; discriminate|].
  cbn [buildGroups]. apply issues_bind. intros p _.
  generalize (groups p). intros gs. revert st Hext.
  induction gs as [|g rest IHgs]; intros st Hext; issues_all.
  - apply IH. assumption.
  - apply IHgs. assumption.
Qed.

Lemma buildDimension_issues fuel dim st :
  extends_by is_schema_call st0 st ->
  issues_only is_schema_call st0 (buildDimension E fuel dim st).
Proof. intros Hext. unfold buildDimension. issues_all. Qed.

Lemma buildEnumeration_consts_issues group en :
  forall econsts st,
    extends_by is_schema_call st0 st ->
    issues_only is_schema_call st0
      (buildEnumeration_consts E group en econsts st).
Proof.
  induction econsts as [|ec rest IH]; intros st Hext;
    cbn [buildEnumeration_consts]; issues_all.
  apply IH. assumption.
Qed.

Lemma buildEnumeration_issues fuel en st :
  extends_by is_schema_call st0 st ->
  issues_only is_schema_call st0 (buildEnumeration E fuel en st).
Proof.
  intros Hext. unfold buildEnumeration. issues_all.
  apply buildEnumeration_consts_issues. assumption.
Qed.

Lemma buildOpaque_issues fuel builder op st :
  extends_by is_schema_call st0 st ->
  issues_only is_schema_call st0 (buildOpaque E fuel builder op st).
Proof. intros Hext. unfold buildOpaque. issues_all. Qed.

Lemma buildCompound_fields_issues cmpdtype group :
  forall fields st,
    extends_by is_schema_call st0 st ->
    issues_only is_schema_call st0
      (buildCompound_fields E cmpdtype group fields st).
Proof.
  induction fields as [|f rest IH]; intros st Hext;
    cbn [buildCompound_fields]; issues_all; apply IH; assumption.
Qed.

Lemma buildCompound_issues fuel cmpdtype group nm st :
  extends_by is_schema_call st0 st ->
  issues_only is_schema_call st0 (buildCompound E fuel cmpdtype group nm st).
Proof.
  intros Hext. unfold buildCompound. issues_all.
  apply buildCompound_fields_issues. assumption.
Qed.

Lemma buildStructureType_issues fuel structtype st :
  extends_by is_schema_call st0 st ->
  issues_only is_schema_call st0 (buildStructureType E fuel structtype st).
Proof.
  intros Hext. unfold buildStructureType. cbv zeta.
  apply issues_bind; intros g _. apply issues_bind; intros sn _.
  apply issues_bind; intros [nm group] _. apply issues_bind; intros gn _.
  apply (issues_issue E _ _ _ _
           (fun r => let '(probe, tid, st1) := r in _));
    [reflexivity | exact Hext |].
  intros probe tid st1 Hext1. issues_all.
  apply buildCompound_issues. assumption.
Qed.

Lemma buildSequenceType_issues fuel seqtype st :
  extends_by is_schema_call st0 st ->
  issues_only is_schema_call st0 (buildSequenceType E fuel seqtype st).
Proof.
  intros Hext. unfold buildSequenceType. cbv zeta.
  apply issues_bind; intros g _. apply issues_bind; intros sn _.
  apply issues_bind; intros [[vlen cmpd] group] _.
  apply issues_bind; intros gn _.
  apply (issues_issue E _ _ _ _
           (fun r => let '(probe, tid, st1) := r in _));
    [reflexivity | exact Hext |].
  intros probe tid st1 Hext1. issues_all.
  apply buildCompound_issues. assumption.
Qed.

Lemma build_switch_issues fuel builder x st :
  extends_by is_schema_call st0 st ->
  issues_only is_schema_call st0 (build_switch E fuel builder x st).
Proof.
  intros Hext. unfold build_switch. apply issues_bind. intros xn _.
  destruct (sort xn); try (apply issues_done; assumption);
    [apply buildDimension_issues; assumption|].
  destruct (subsort xn);
    first [ apply issues_done; assumption
          | apply buildOpaque_issues; assumption
          | apply buildEnumeration_issues; assumption
          | apply buildSequenceType_issues; assumption
          | apply buildStructureType_issues; assumption ].
Qed.

Lemma build_types_issues fuel builder :
  forall nodes st,
    extends_by is_schema_call st0 st ->
    issues_only is_schema_call st0 (build_types E fuel builder nodes st).
Proof.
  induction nodes as [|x rest IH]; intros st Hext; cbn [build_types].
  - apply issues_done. assumption.
  - apply issues_CHECKED; [apply build_switch_issues; assumption|].
    intros st1 Hext1. apply IH. assumption.
Qed.

Lemma buildAttributes_loop_issues fuel varorgroup :
  forall attrs st,
    extends_by is_variable_call st0 st ->
    issues_only is_variable_call st0
      (buildAttributes_loop E fuel varorgroup attrs st).
Proof.
  induction attrs as [|a rest IH]; intros st Hext;
    cbn [buildAttributes_loop]; issues_all; apply IH; assumption.
Qed.

Lemma buildMaps_loop_issues var :
  forall fuel i st,
    extends_by is_variable_call st0 st ->
    issues_only is_variable_call st0 (buildMaps_loop E fuel i var st).
Proof.
  induction fuel as [|k IH]; intros i st Hext;
    [intros ? ? H; discriminate|].
  cbn [buildMaps_loop]. issues_all. apply IH. assumption.
Qed.

Lemma buildMetaData_issues fuel var st :
  extends_by is_variable_call st0 st ->
  issues_only is_variable_call st0 (buildMetaData E fuel var st).
Proof.
  intros Hext. unfold buildMetaData, buildAttributes, buildMaps. issues_all.
  - apply buildAttributes_loop_issues. assumption.
  - apply buildMaps_loop_issues. assumption.
Qed.

Lemma buildVariable_issues fuel var st :
  extends_by is_variable_call st0 st ->
  issues_only is_variable_call st0 (buildVariable E fuel var st).
Proof.
  intros Hext.
  unfold buildVariable, buildStructure, buildSequence, buildAtomicVar.
  issues_all; apply buildMetaData_issues; assumption.
Qed.

Lemma build_variables_issues fuel :
  forall nodes st st',
    extends_by is_variable_call st0 st ->
    build_variables E fuel nodes st = Ok st' ->
    extends_by is_variable_call st0 st'.
Proof.
  induction nodes as [|x rest IH]; intros st st' Hext Hrun;
    cbn [build_variables] in Hrun.
  - inversion Hrun; subst. exact Hext.
  - inv_bind Hrun. inv_bind Hrun.
    match type of Hrun with
    | (if ?b then _ else _) = _ => destruct b
    end.
    + match type of Hrun with
      | obind ?c _ = _ => destruct c as [[ret1 st1]| |] eqn:Hvar
      end; cbn [obind] in Hrun; try discriminate.
      apply (IH st1 st'); [|exact Hrun].
      exact (buildVariable_issues fuel x st Hext ret1 st1 Hvar).
    + exact (IH st st' Hext Hrun).
Qed.

End PassCalls.

(** X22.  The calls of a build come in three passes: whatever status
    [NCD4_metabuild] returns, the calls it has issued are group
    definitions first, then calls that define dimensions and types (with
    the look-ups and insertions these need), then variable definitions and
    attributes.  No type is defined after a variable, and no group after a
    type. *)
Theorem NCD4_metabuild_pass_order :
  forall {Store : Type} (E : externals Store) (fuel : nat)
         (metadata : NCD4meta) (ncid_ : Z) (st st' : BState Store) (ret : Z),
    NCD4_metabuild E fuel metadata ncid_ st = Ok (ret, st') ->
    exists gs ts vs,
      st_trace st' = (st_trace st ++ gs ++ ts ++ vs)%list /\
      forallb is_group_call gs = true /\
      forallb is_schema_call ts = true /\
      forallb is_variable_call vs = true.
Proof.
  intros Store E fuel metadata ncid_ st st' ret Hrun.
  unfold NCD4_metabuild in Hrun. cbv zeta in Hrun. cbn [root allnodes] in Hrun.
  inv_bind Hrun. inv_bind Hrun.
  match type of Hrun with
  | build _ _ ?b _ ?s = _ => set (builder := b) in *; set (sta := s) in *
  end.
  assert (Htrace : st_trace sta = st_trace st) by reflexivity.
  rewrite <- Htrace. clearbody sta. clear Htrace.
  unfold build in Hrun.
  destruct (buildGroups E fuel builder (root metadata) sta)
    as [[r1 st1]| |] eqn:Hgroups; try discriminate.
  destruct (buildGroups_issues E sta fuel builder (root metadata) sta
              (extends_refl _ sta) r1 st1 Hgroups) as (gs & Hgs & Hpg).
  destruct (Z.eqb_spec r1 0) as [-> | Hne1].
  2:{ rewrite (CHECKED_failed r1 st1 _ Hne1) in Hrun. inversion Hrun; subst.
      exists gs, [], []. rewrite !app_nil_r. repeat split; assumption. }
  rewrite CHECKED_ok in Hrun.
  destruct (build_types E fuel builder (allnodes builder) st1)
    as [[r2 st2]| |] eqn:Htypes; try discriminate.
  destruct (build_types_issues E st1 fuel builder (allnodes builder) st1
              (extends_refl _ st1) r2 st2 Htypes) as (ts & Hts & Hpt).
  destruct (Z.eqb_spec r2 0) as [-> | Hne2].
  2:{ rewrite (CHECKED_failed r2 st2 _ Hne2) in Hrun. inversion Hrun; subst.
      exists gs, ts, []. rewrite Hts, Hgs, !app_nil_r, <- !app_assoc.
      repeat split; assumption. }
  rewrite CHECKED_ok in Hrun.
  destruct (build_variables E fuel (allnodes builder) st2)
    as [st3| |] eqn:Hvars; cbn [obind] in Hrun; try discriminate.
  destruct (build_variables_issues E st2 fuel (allnodes builder) st2 st3
              (extends_refl _ st2) Hvars) as (vs & Hvs & Hpv).
  inversion Hrun; subst. exists gs, ts, vs.
  rewrite Hvs, Hts, Hgs, <- !app_assoc. repeat split; assumption.
Qed.

Lemma NCD4_metabuild_pass_order_witness :
  exists gs ts vs,
    st_trace
      (final_state (RefStore.start Examples.raw_schema)
         (NCD4_metabuild (RefStore.ext RefStore.no_failure) 4
            Examples.raw_meta 7 (RefStore.start Examples.raw_schema)))
    = (st_trace (RefStore.start Examples.raw_schema) ++ gs ++ ts ++ vs)%list /\
    forallb is_group_call gs = true /\
    forallb is_schema_call ts = true /\
    forallb is_variable_call vs = true.
Proof.
  apply (NCD4_metabuild_pass_order (RefStore.ext RefStore.no_failure) 4
           Examples.raw_meta 7 (RefStore.start Examples.raw_schema) _
           NC_NOERR).
  vm_compute. reflexivity.
Defined.

Lemma backslashEscape_separators_witness :
  backslashEscape "temp" = "temp".
Proof.
  apply (proj2 (backslashEscape_separators "temp")).
  intros c Hin. cbn in Hin.
  repeat (destruct Hin as [<- | Hin]; [reflexivity|]). destruct Hin.
Defined.

Lemma groupFor_first_group_witness :
  groupFor 3 Examples.composite_schema (Some 3%nat) = Ok 0%nat.
Proof.
  apply (proj2 (groupFor_first_group 3 Examples.composite_schema 3 0)).
  exists [3; 2]%nat. split; [vm_compute; reflexivity | simpl; lia].
Defined.

(** ** Enumeration values that are no declared name *)

Lemma econst_by_name_none (h : heap) (s : string) (econsts : list nat) :
  Forall (fun q => exists qn, h !! q = Some qn /\ name qn <> s) econsts ->
  econst_by_name h econsts s = Ok None.
Proof.
  induction 1 as [|q rest (qn & Hq & Hne) _ IH]; [reflexivity|].
  cbn [econst_by_name]. unfold deref. rewrite Hq. cbn [obind].
  destruct (String.eqb_spec (name qn) s) as [Heq | _]; [contradiction|].
  exact IH.
Qed.

Lemma econst_by_value_none (econsts : list nat) :
  econst_by_value econsts = None.
Proof.
  unfold econst_by_value. induction econsts as [|ec rest IH]; [reflexivity|].
  cbn [find objaddr_eqb]. exact IH.
Qed.

Lemma compileAttrValues_loop_enum_step (C : libc) (h : heap)
    (enn bn : NCD4node) (w u : Z) (s : string) (rest : list string)
    (converter : ATOMICS) (memory : list mcell) :
  exact_bits (subsort bn) = Some w -> meta_id bn = nc_code (subsort bn) ->
  named_constant h (en_econsts enn) s u ->
  compileAttrValues_loop C h true enn bn (s :: rest) converter memory
  = compileAttrValues_loop C h true enn bn rest (ABits u)
      (memory ++ map MByte (le_bytes (Z.to_nat (w / 8)) u))%list.
Proof.
  intros Hw Hid (pre & ec & post & ecn & Hlist & Hpre & Hec & Hname & Hval & Hu).
  cbn [compileAttrValues_loop]. unfold decodeEconst.
  rewrite Hlist, (econst_by_name_first h s pre ec post ecn Hpre Hec Hname).
  cbn [obind]. unfold deref at 1. rewrite Hec. cbn [obind].
  change (negb (NC_NOERR =? 0)) with false. cbv iota. rewrite Hval.
  rewrite (downConvert_exact_id bn w u Hw Hu). cbn [obind].
  assert (Hcopy : copyAtomic (ABits u) (meta_id bn)
                    (NCD4_typesize (meta_id bn)) memory
                  = Ok (memory ++ map MByte (le_bytes (Z.to_nat (w / 8)) u))%list).
  { unfold copyAtomic. rewrite Hid.
    destruct (subsort bn); simpl in Hw; inversion Hw; subst w; reflexivity. }
  rewrite Hcopy. reflexivity.
Qed.

Lemma decodeEconst_unnamed (C : libc) (h : heap) (enn bn : NCD4node)
    (base : nat) (w : Z) (bad : string) (converter : ATOMICS) :
  basetype enn = Some base -> h !! base = Some bn ->
  exact_bits (subsort bn) = Some w ->
  Forall (fun q => exists qn, h !! q = Some qn /\ name qn <> bad)
    (en_econsts enn) ->
  decodeEconst C h enn bad converter
  = Ok (match scan_of C (subsort bn) bad with
        | Some _ => NC_EINVAL
        | None => NC_ERANGE
        end, converter).
Proof.
  intros Hbase Hbn Hw Hnone. unfold decodeEconst.
  rewrite (econst_by_name_none h bad _ Hnone). cbn [obind].
  rewrite Hbase. cbn [deref_opt]. unfold deref. rewrite Hbn. cbn [obind].
  rewrite econst_by_value_none.
  unfold convertString, scan_of, downConvert.
  destruct (subsort bn); simpl in Hw; try discriminate Hw;
    match goal with
    | |- context [match ?scan C bad with _ => _ end] =>
        destruct (scan C bad); reflexivity
    end.
Qed.

(** X23.  An enumeration attribute accepts declared names only.  After any
    number of values that are names of declared constants, a value that is
    the name of no constant ends the encoding with a non-zero status and
    no buffer: [NC_EINVAL] when the value reads as a number of the
    underlying kind (whether or not a constant has this number as its
    value), [NC_ERANGE] when it does not. *)
Theorem compileAttrValues_enum_unnamed_value :
  forall (C : libc) (h : heap) (en base : nat) (enn bn : NCD4node) (w : Z)
         (good : list string) (bad : string) (rest : list string),
    h !! en = Some enn -> subsort enn = NC_ENUM ->
    basetype enn = Some base -> h !! base = Some bn -> sort bn = NCD4_TYPE ->
    exact_bits (subsort bn) = Some w -> meta_id bn = nc_code (subsort bn) ->
    Forall (fun s => exists u, named_constant h (en_econsts enn) s u) good ->
    Forall (fun q => exists qn, h !! q = Some qn /\ name qn <> bad)
      (en_econsts enn) ->
    compileAttrValues C h (Some en) (good ++ bad :: rest)
    = Ok (match scan_of C (subsort bn) bad with
          | Some _ => NC_EINVAL
          | None => NC_ERANGE
          end, None).
Proof.
  intros C h en base enn bn w good bad rest Hen Hkind Hbase Hbn Hsort Hw Hid
    Hgood Hbad.
  unfold compileAttrValues. cbn [deref_opt]. unfold deref at 1. rewrite Hen.
  cbn [obind]. rewrite Hkind.
  change (nc_type_eqb NC_ENUM NC_ENUM) with true. cbv iota.
  rewrite Hbase. cbn [deref_opt]. unfold deref at 1. rewrite Hbn. cbn [obind].
  rewrite Hsort. cbn [ISTYPE negb orb].
  assert (Hat : (meta_id bn >? NC_MAX_ATOMIC_TYPE) = false)
    by (rewrite Hid; destruct (subsort bn); simpl in Hw; try discriminate Hw;
        reflexivity).
  rewrite Hat.
  generalize (@nil mcell) as memory. generalize AUninit as converter.
  induction Hgood as [|s good [u Hnamed] _ IH]; intros converter memory.
  - cbn [app compileAttrValues_loop].
    rewrite (decodeEconst_unnamed C h enn bn base w bad converter
               Hbase Hbn Hw Hbad). cbn [obind].
    destruct (scan_of C (subsort bn) bad); reflexivity.
  - cbn [app].
    rewrite (compileAttrValues_loop_enum_step C h enn bn w u s _ converter
               memory Hw Hid Hnamed).
    apply IH.
Qed.

Lemma compileAttrValues_enum_unnamed_value_witness :
  compileAttrValues RefScan.C Examples.colors_schema (Some 2%nat)
    (["GREEN"] ++ "0" :: ["RED"])
  = Ok (match scan_of RefScan.C NC_BYTE "0" with
        | Some _ => NC_EINVAL
        | None => NC_ERANGE
        end, None).
Proof.
  apply (compileAttrValues_enum_unnamed_value RefScan.C Examples.colors_schema
           2 1
           (Fixture.with_en_econsts [3; 4]%nat
              (Fixture.with_basetype (Some 1%nat)
                 (Fixture.node NCD4_TYPE NC_ENUM "colors" None)))
           (Fixture.atomic NC_BYTE "Int8" None) 8
           ["GREEN"] "0" ["RED"]); try reflexivity.
  - constructor; [|constructor]. exists 1.
    exists [3%nat], 4%nat, [],
      (Fixture.with_en_ecvalue (ABits 1)
         (Fixture.node NCD4_ECONST NC_NAT "GREEN" (Some 2%nat))).
    repeat split; try reflexivity; try lia.
    repeat constructor. eexists. split; [reflexivity | discriminate].
  - repeat constructor; eexists; (split; [reflexivity | discriminate]).
Defined.
